(** * RLA image output: header construction of [RLAOutput::open]

    A shallow embedding of [src/rla.imageio/rlaoutput.cpp]: the channel
    classifier (color / matte / auxiliary groups), the fixed-size string
    fields, the big-endian field serializer, [open], [close] and
    [write_scanline], followed by the properties of the header that the
    format description states.

    Values of type [int] are integers of [Z]; a store into a member of the
    header narrows them to the width of the member.  Overflow of [int]
    arithmetic itself is outside the model: a statement about channel
    counts that reach [INT_MIN] carries the bound that keeps the decrements
    of the source inside [int]. *)

From Stdlib Require Import ZArith Lia Bool Ascii String Strings.Byte DecimalString.
From stdpp Require Import base option list strings gmap.

Local Open Scope Z_scope.

(** ** Machine integers *)

(** Two's complement value of the low [w] bits of [x]: what a store of the
    [int] value [x] into a signed field of [w] bits keeps. *)
Definition wrap (w : Z) (x : Z) : Z :=
  (x + 2 ^ (w - 1)) mod 2 ^ w - 2 ^ (w - 1).

Definition Z_of_byte (b : byte) : Z := Z.of_N (Byte.to_N b).

Definition byte_of_Z (z : Z) : byte :=
  default x00 (Byte.of_N (Z.to_N (z mod 256))).

#[global] Instance byte_eq_dec : EqDecision byte := Byte.byte_eq_dec.

(** The least value of an [int]. *)
Definition INT_MIN : Z := - 2 ^ 31.

(** ** Undefined behaviour

    The C++ source indexes a [std::vector] with [operator[]] and copies
    strings with [strcpy]; both are undefined outside the object.  The
    embedding makes every such step explicit. *)

Inductive UB : Type :=
  | OutOfBounds (index : Z)        (* channelformats[index] past the end *)
  | BufferOverflow (written : nat) (* bytes written into a smaller char array *)
  | BadParamData (index : nat)     (* attribute data shorter than its type *)
  | IndeterminateDate              (* strftime had no room: array indeterminate *)
  | ShortBuffer (held : nat)       (* a read past the bytes the caller's buffer holds *)
  | EmptyScratch.                  (* m_scratch[0] on an empty vector *)

Inductive Outcome (A : Type) : Type :=
  | Ok (a : A)
  | Undefined (u : UB).
Arguments Ok {A} a.
Arguments Undefined {A} u.

Definition bind {A B} (m : Outcome A) (k : A -> Outcome B) : Outcome B :=
  match m with
  | Ok a => k a
  | Undefined u => Undefined u
  end.

Notation "'LET' x <- m 'IN' k" := (bind m (fun x => k))
  (at level 10, x pattern, m at level 100, k at level 200,
   format "'[v' 'LET'  x  <-  m  'IN' '/' k ']'").

(** ** TypeDesc *)

(** Modelled from the spec: [typedesc.h] is not among the sources.  A pixel
    type has a base type, an aggregate and an array length; its size in
    bytes is the base size times the number of components. *)
Inductive BASETYPE : Type :=
  | UNKNOWN | NONE | UINT8 | INT8 | UINT16 | INT16 | UINT32 | INT32
  | UINT64 | INT64 | HALF | FLOAT | DOUBLE | STRING | PTR.

Inductive AGGREGATE : Type := SCALAR | VEC2 | VEC3 | VEC4 | MATRIX44.

Record TypeDesc : Type := mkTypeDesc {
  basetype : BASETYPE;
  aggregate : AGGREGATE;
  arraylen : Z
}.

#[global] Instance BASETYPE_eq_dec : EqDecision BASETYPE.
Proof. solve_decision. Defined.
#[global] Instance AGGREGATE_eq_dec : EqDecision AGGREGATE.
Proof. solve_decision. Defined.
#[global] Instance TypeDesc_eq_dec : EqDecision TypeDesc.
Proof. solve_decision. Defined.

(** The scalar type of a base type, [TypeDesc (BASETYPE)]. *)
Definition scalar (b : BASETYPE) : TypeDesc := mkTypeDesc b SCALAR 0.

Definition basesize (b : BASETYPE) : Z :=
  match b with
  | UNKNOWN | NONE => 0
  | UINT8 | INT8 => 1
  | UINT16 | INT16 | HALF => 2
  | UINT32 | INT32 | FLOAT => 4
  | UINT64 | INT64 | DOUBLE | STRING | PTR => 8
  end.

Definition components (a : AGGREGATE) : Z :=
  match a with
  | SCALAR => 1 | VEC2 => 2 | VEC3 => 3 | VEC4 => 4 | MATRIX44 => 16
  end.

(** [TypeDesc::size ()] *)
Definition size (t : TypeDesc) : Z :=
  basesize (basetype t) * components (aggregate t)
  * (if 0 <? arraylen t then arraylen t else 1).

(** [t == TypeDesc::FLOAT] *)
Definition is_float (t : TypeDesc) : bool := bool_decide (t = scalar FLOAT).

(** ** The header record *)

(** Modelled from the spec: [rla_pvt.h], which declares [WAVEFRONT] and the
    channel type codes, is not among the sources.  The members are named as
    [open] names them. *)
Inductive IntField : Type :=
  | WindowLeft | WindowRight | WindowBottom | WindowTop
  | ActiveLeft | ActiveRight | ActiveBottom | ActiveTop
  | FrameNumber | ColorChannelType
  | NumOfColorChannels | NumOfMatteChannels | NumOfAuxChannels
  | Revision | JobNumber | FieldRendered
  | NumOfChannelBits | MatteChannelType | NumOfMatteBits
  | AuxChannelType | NumOfAuxBits | NextOffset.

Inductive CharField : Type :=
  | Gamma | RedChroma | GreenChroma | BlueChroma | WhitePoint
  | FileName | Description | ProgramName | MachineName | UserName
  | DateCreated | Aspect | AspectRatio | ColorChannel
  | Time | Filter | AuxData | Reserved.

#[global] Instance IntField_eq_dec : EqDecision IntField.
Proof. solve_decision. Defined.
#[global] Instance CharField_eq_dec : EqDecision CharField.
Proof. solve_decision. Defined.

(** Modelled from the spec: [sizeof] of an integer member, in bytes.  The
    integer members are 16 bits wide except [NextOffset] (32 bits). *)
Definition int_width (f : IntField) : nat :=
  match f with NextOffset => 4 | _ => 2 end.

(** What else [rla_pvt.h] declares stays a parameter: the two channel type
    codes and the sizes of the character arrays. *)
Record rla_pvt : Type := mk_rla_pvt {
  CT_BYTE : Z;
  CT_FLOAT : Z;
  char_size : CharField -> nat          (* sizeof of a character member *)
}.

Record WAVEFRONT : Type := mkWAVEFRONT {
  ints : IntField -> Z;
  chars : CharField -> list byte
}.

(** [memset (&rla, 0, sizeof (rla))] *)
Definition zeroed (pvt : rla_pvt) : WAVEFRONT :=
  {| ints := fun _ => 0;
     chars := fun f => replicate (char_size pvt f) x00 |}.

Definition get_int (rla : WAVEFRONT) (f : IntField) : Z := ints rla f.

(** [rla.f = v]: the value is narrowed to the member's width. *)
Definition set_int (f : IntField) (v : Z) (rla : WAVEFRONT) : WAVEFRONT :=
  {| ints := fun g =>
               if decide (g = f) then wrap (8 * Z.of_nat (int_width f)) v
               else ints rla g;
     chars := chars rla |}.

Definition set_chars (f : CharField) (v : list byte) (rla : WAVEFRONT) : WAVEFRONT :=
  {| ints := ints rla;
     chars := fun g => if decide (g = f) then v else chars rla g |}.

(** ** Channel classifier  ([open], "figure out what's going on with the channels") *)

(** [channelformats[i]]; the index is converted to [size_t], so a negative
    one is past the end as well. *)
Definition at_index (channelformats : list TypeDesc) (i : Z) : Outcome TypeDesc :=
  if i <? 0 then Undefined (OutOfBounds i)
  else match channelformats !! Z.to_nat i with
       | Some t => Ok t
       | None => Undefined (OutOfBounds i)
       end.

(** [a != b] on [TypeDesc]. *)
Definition differs (a b : TypeDesc) : bool := bool_decide (a <> b).

Section Classifier.
Variable pvt : rla_pvt.

(** How [channelformats[i]] is read; [at_index channelformats] in [open]. *)
Variable rd : Z -> Outcome TypeDesc.

Definition type_code (t : TypeDesc) : Z :=
  if is_float t then CT_FLOAT pvt else CT_BYTE pvt.

(** The loop
    [for (streak = 1; streak < cap && remaining > 0; ++streak, --remaining)
         if (channelformats[base + streak] != channelformats[base]) break;]
    entered with [remaining = n]; [cap] is absent in the matte and
    auxiliary loops.  Returns the final [streak] and [remaining]. *)
Fixpoint streak_loop (cap : option Z) (base streak : Z) (n : nat)
  : Outcome (Z * nat) :=
  match n with
  | O => Ok (streak, O)
  | S n' =>
      if match cap with Some c => streak <? c | None => true end then
        LET a <- rd (base + streak) IN
        LET b <- rd base IN
        if differs a b then Ok (streak, n)
        else streak_loop cap base (streak + 1) n'
      else Ok (streak, n)
  end.

Definition streak_for (cap : option Z) (base remaining : Z) : Outcome (Z * Z) :=
  if 0 <? remaining then
    LET (streak, n) <- streak_loop cap base 1 (Z.to_nat remaining) IN
    Ok (streak, Z.of_nat n)
  else Ok (1, remaining).

(** The branch [if (m_spec.channelformats.size ())], in its three steps;
    each returns the header and, but for the last, the updated [remaining].

    "accomodate first 3 channels of the same type as colour ones" *)
Definition explicit_color (remaining : Z) (rla : WAVEFRONT)
  : Outcome (WAVEFRONT * Z) :=
  LET (streak, remaining) <- streak_for (Some 3) 0 remaining IN
  LET t <- rd 0 IN
  let rla := set_int ColorChannelType (type_code t) rla in
  let rla := set_int NumOfChannelBits (size t * 8) rla in
  Ok (set_int NumOfColorChannels streak rla, remaining).

(** "if we have anything left, treat it as alpha" *)
Definition explicit_matte (remaining : Z) (rla : WAVEFRONT)
  : Outcome (WAVEFRONT * Z) :=
  if decide (remaining <> 0) then
    let base := get_int rla NumOfColorChannels in
    LET (streak, remaining) <- streak_for None base remaining IN
    LET t <- rd base IN
    let rla := set_int MatteChannelType (type_code t) rla in
    let rla := set_int NumOfMatteBits (size t * 8) rla in
    Ok (set_int NumOfMatteChannels streak rla, remaining)
  else Ok (rla, remaining).

(** "and if there's something more left, put it in auxiliary" *)
Definition explicit_aux (remaining : Z) (rla : WAVEFRONT) : Outcome WAVEFRONT :=
  if decide (remaining <> 0) then
    let base := get_int rla NumOfColorChannels + get_int rla NumOfMatteChannels in
    LET (streak, remaining) <- streak_for None base remaining IN
    LET t <- rd base IN
    let rla := set_int MatteChannelType (type_code t) rla in
    let rla := set_int NumOfAuxBits (size t * 8) rla in
    Ok (set_int NumOfAuxChannels streak rla)
  else Ok rla.

Definition classify_explicit (remaining : Z) (rla : WAVEFRONT) : Outcome WAVEFRONT :=
  LET (rla, remaining) <- explicit_color remaining rla IN
  LET (rla, remaining) <- explicit_matte remaining rla IN
  explicit_aux remaining rla.

(** The [else] branch: one global pixel type.  Its three steps return the
    header together with the updated [remaining].  The source decrements
    the [int] [remaining] once in [global_color] and once in [global_matte]:
    for [INT_MIN + 2 <= nchannels] both stay inside [int] and the integers
    below are those of the source. *)
Definition global_types (format : TypeDesc) (rla : WAVEFRONT) : WAVEFRONT :=
  let rla := set_int AuxChannelType (type_code format) rla in
  let rla := set_int MatteChannelType (get_int rla AuxChannelType) rla in
  let rla := set_int ColorChannelType (get_int rla MatteChannelType) rla in
  let rla := set_int NumOfAuxBits (size format * 8) rla in
  let rla := set_int NumOfMatteBits (get_int rla NumOfAuxBits) rla in
  set_int NumOfChannelBits (get_int rla NumOfMatteBits) rla.

(** [if (remaining >= 3) { ... = 3; remaining -= 3; } else { ... = 1; --remaining; }] *)
Definition global_color (remaining : Z) (rla : WAVEFRONT) : WAVEFRONT * Z :=
  if 3 <=? remaining then (set_int NumOfColorChannels 3 rla, remaining - 3)
  else (set_int NumOfColorChannels 1 rla, remaining - 1).

(** [if (remaining-- > 0) ++rla.NumOfMatteChannels;] *)
Definition global_matte (remaining : Z) (rla : WAVEFRONT) : WAVEFRONT * Z :=
  if 0 <? remaining
  then (set_int NumOfMatteChannels (get_int rla NumOfMatteChannels + 1) rla,
        remaining - 1)
  else (rla, remaining - 1).

(** [if (remaining > 0) rla.NumOfAuxChannels = remaining;] *)
Definition global_aux (remaining : Z) (rla : WAVEFRONT) : WAVEFRONT :=
  if 0 <? remaining then set_int NumOfAuxChannels remaining rla else rla.

Definition classify_global (format : TypeDesc) (remaining : Z) (rla : WAVEFRONT)
  : WAVEFRONT :=
  let rla := global_types format rla in
  let '(rla, remaining) := global_color remaining rla in
  let '(rla, remaining) := global_matte remaining rla in
  global_aux remaining rla.
End Classifier.

(** The classifier as [open] runs it on a freshly zeroed header. *)
Definition classify (pvt : rla_pvt) (nchannels : Z) (format : TypeDesc)
    (channelformats : list TypeDesc) (rla : WAVEFRONT) : Outcome WAVEFRONT :=
  if decide (channelformats <> [])
  then classify_explicit pvt (at_index channelformats) nchannels rla
  else Ok (classify_global pvt format nchannels rla).

(** The three group sizes of a header. *)
Definition group_sizes (rla : WAVEFRONT) : Z * Z * Z :=
  (get_int rla NumOfColorChannels, get_int rla NumOfMatteChannels,
   get_int rla NumOfAuxChannels).

Definition sizes_sum (rla : WAVEFRONT) : Z :=
  get_int rla NumOfColorChannels + get_int rla NumOfMatteChannels
  + get_int rla NumOfAuxChannels.

(** An instance of the declarations for concrete runs: channel type 0 is
    byte data and 4 is float data; the character arrays have the sizes that
    the format description lists, with 20 bytes for the date, whose text has
    17 characters, and 36 reserved bytes. *)
Definition wavefront_char_size (f : CharField) : nat :=
  match f with
  | Gamma => 16 | RedChroma | GreenChroma | BlueChroma | WhitePoint => 24
  | FileName | Description => 128 | ProgramName => 64
  | MachineName | UserName => 32 | DateCreated => 20 | Aspect => 24
  | AspectRatio => 16 | ColorChannel => 32 | Time => 16 | Filter => 32
  | AuxData => 32 | Reserved => 36
  end%nat.

Definition wavefront_pvt : rla_pvt := mk_rla_pvt 0 4 wavefront_char_size.

(** ** C strings and the fixed-size character arrays *)

Definition bytes (s : string) : list byte := list_byte_of_string s.

(** The characters before the first NUL: what [strcpy], [strncpy] and
    [atoi] see of a character sequence. *)
Fixpoint until_nul (l : list byte) : list byte :=
  match l with
  | [] => []
  | b :: l' => if decide (b = x00) then [] else b :: until_nul l'
  end.

(** [s.c_str ()] *)
Definition c_str (s : string) : list byte := until_nul (bytes s).

(** [s.c_str ()] read back as a string: what [fopen] and the ["%s"] of
    [error] see of a [std::string], the characters before its first NUL. *)
Definition c_name (s : string) : string := string_of_list_byte (c_str s).

(** [strncpy (dst, src, n)]: exactly [n] bytes are written, the copy of
    [src] cut at [n] and padded with NULs. *)
Definition strncpy (dst src : list byte) (n : nat) : Outcome (list byte) :=
  if decide (n <= length dst)%nat
  then Ok (take n (src ++ replicate n x00) ++ drop n dst)
  else Undefined (BufferOverflow n).

(** [strcpy (dst, src)]: the whole of [src] and its NUL are written,
    whatever the size of [dst]. *)
Definition strcpy (dst src : list byte) : Outcome (list byte) :=
  let n := S (length src) in
  if decide (n <= length dst)%nat
  then Ok (src ++ x00 :: drop n dst)
  else Undefined (BufferOverflow n).

(** [snprintf (dst, n, ...)] for the formatted text [text]: at most [n]
    bytes are written, the last of them a NUL. *)
Definition snprintf (dst : list byte) (n : nat) (text : list byte)
  : Outcome (list byte) :=
  match n with
  | O => Ok dst
  | S m =>
      let out := take m text ++ [x00] in
      if decide (length out <= length dst)%nat
      then Ok (out ++ drop (length out) dst)
      else Undefined (BufferOverflow (length out))
  end.

(** [memcpy (dst, src, length src)] *)
Definition memcpy (dst src : list byte) : Outcome (list byte) :=
  if decide (length src <= length dst)%nat
  then Ok (src ++ drop (length src) dst)
  else Undefined (BufferOverflow (length src)).

(** [strftime (dst, max, ...)] for the formatted text [text]: written with
    its NUL when it fits in [max] bytes; otherwise the array is
    indeterminate. *)
Definition strftime (dst : list byte) (max : nat) (text : list byte)
  : Outcome (list byte) :=
  if decide (S (length text) <= max)%nat
  then strcpy dst text
  else Undefined IndeterminateDate.

Definition is_digit (b : byte) : bool :=
  (48 <=? Z_of_byte b) && (Z_of_byte b <=? 57).

Definition is_space (b : byte) : bool :=
  (Z_of_byte b =? 32) || ((9 <=? Z_of_byte b) && (Z_of_byte b <=? 13)).

Fixpoint atoi_digits (acc : Z) (l : list byte) : Z :=
  match l with
  | b :: l' => if is_digit b then atoi_digits (10 * acc + (Z_of_byte b - 48)) l'
               else acc
  | [] => acc
  end.

Fixpoint skip_spaces (l : list byte) : list byte :=
  match l with
  | b :: l' => if is_space b then skip_spaces l' else l
  | [] => []
  end.

(** [atoi] *)
Definition atoi (l : list byte) : Z :=
  match skip_spaces l with
  | b :: l' =>
      if decide (b = "-"%byte) then - atoi_digits 0 l'
      else if decide (b = "+"%byte) then atoi_digits 0 l'
      else atoi_digits 0 (b :: l')
  | [] => 0
  end.

(** ["%d"] *)
Definition decimal (z : Z) : string := NilZero.string_of_int (Z.to_int z).

(** ["%02d"], as [strftime] prints month, day, hour and minute. *)
Definition pad2 (z : Z) : string :=
  if (0 <=? z) && (z <? 10) then ("0" +:+ decimal z)%string else decimal z.

Definition to_lower (c : ascii) : ascii :=
  let n := nat_of_ascii c in
  if (65 <=? n)%nat && (n <=? 90)%nat then ascii_of_nat (n + 32) else c.

Fixpoint lower (s : string) : string :=
  match s with
  | EmptyString => EmptyString
  | String c s' => String (to_lower c) (lower s')
  end.

(** [boost::algorithm::iequals] *)
Definition iequals (a b : string) : bool := bool_decide (lower a = lower b).

(** ** The library and the host around the plugin *)

(** Modelled from the spec: the C [float] type with its [printf]
    conversion, and the banner string [OIIO_INTRO_STRING] of [imageio.h],
    are outside the sources and stay parameters. *)
Record Platform : Type := mkPlatform {
  Float : Type;
  float_one : Float;                       (* 1.f *)
  int_div_float : Z -> Z -> Float;         (* a / (float) b *)
  printf_f : nat -> Float -> list byte;    (* "%.<n>f" *)
  OIIO_INTRO_STRING : string
}.

(** [struct tm] as [localtime] fills it. *)
Record tm : Type := mk_tm {
  tm_min : Z; tm_hour : Z; tm_mday : Z; tm_mon : Z; tm_year : Z
}.

Record Host : Type := mkHost {
  littleendian : bool;             (* fmath.h: the byte order of the host *)
  localtime : tm;                  (* localtime (time (NULL)) *)
  can_create : string -> bool      (* whether fopen (name, "wb") succeeds *)
}.

Inductive OpenMode : Type := Create | AppendSubimage | AppendMIPLevel.

#[global] Instance OpenMode_eq_dec : EqDecision OpenMode.
Proof. solve_decision. Defined.

Section Output.
Variable P : Platform.
Variable pvt : rla_pvt.

(** *** ImageSpec and its attributes *)

(** Modelled from the spec: [ImageSpec] and [ImageIOParameter] are declared
    in [imageio.h], outside the sources.  An attribute has a name, a type
    and data; the getters return the default unless an attribute of that
    name and of a fitting type is present. *)
Inductive ParamData : Type :=
  | IntData (v : list Z)
  | FloatData (v : list (Float P))
  | StringData (v : list string).

Record ImageIOParameter : Type := mkParam {
  pname : string;
  ptype : TypeDesc;
  pdata : ParamData
}.

Record ImageSpec : Type := mkImageSpec {
  x : Z; y : Z; width : Z; height : Z; depth : Z;
  full_x : Z; full_y : Z; full_width : Z; full_height : Z;
  nchannels : Z;
  format : TypeDesc;
  channelformats : list TypeDesc;
  extra_attribs : list ImageIOParameter
}.

Definition set_depth (d : Z) (spec : ImageSpec) : ImageSpec :=
  mkImageSpec (x spec) (y spec) (width spec) (height spec) d
    (full_x spec) (full_y spec) (full_width spec) (full_height spec)
    (nchannels spec) (format spec) (channelformats spec) (extra_attribs spec).

(** Modelled from the spec: the attribute getters of [ImageSpec]. *)
Definition find_attribute (spec : ImageSpec) (name : string)
  : option ImageIOParameter :=
  List.find (fun p => bool_decide (pname p = name)) (extra_attribs spec).

Definition is_int_type (t : TypeDesc) : bool :=
  match basetype t with
  | UINT8 | INT8 | UINT16 | INT16 | UINT32 | INT32 =>
      bool_decide (aggregate t = SCALAR) && (arraylen t <=? 0)
  | _ => false
  end.

Definition get_int_attribute (spec : ImageSpec) (name : string) (val : Z) : Z :=
  match find_attribute spec name with
  | Some (mkParam _ t (IntData (v :: _))) => if is_int_type t then v else val
  | _ => val
  end.

Definition get_float_attribute (spec : ImageSpec) (name : string) (val : Float P)
  : Float P :=
  match find_attribute spec name with
  | Some (mkParam _ t (FloatData (v :: _))) => if is_float t then v else val
  | _ => val
  end.

Definition get_string_attribute (spec : ImageSpec) (name : string) (val : string)
  : string :=
  match find_attribute spec name with
  | Some (mkParam _ t (StringData (v :: _))) =>
      if bool_decide (t = scalar STRING) then v else val
  | _ => val
  end.

(** [((float * )p->data ())[i]] *)
Definition float_at (p : ImageIOParameter) (i : nat) : Outcome (Float P) :=
  match pdata p with
  | FloatData v =>
      match v !! i with Some f => Ok f | None => Undefined (BadParamData i) end
  | _ => Undefined (BadParamData i)
  end.

(** *** Filling the character arrays *)

Definition space : list byte := bytes " ".

(** [RLAOutput::set_chromaticity] *)
Definition set_chromaticity (p : option ImageIOParameter) (dst : list byte)
    (field_size : nat) (default_val : string) : Outcome (list byte) :=
  match p with
  | Some p' =>
      if bool_decide (basetype (ptype p') = FLOAT) then
        match aggregate (ptype p') with
        | VEC2 =>
            LET a <- float_at p' 0 IN
            LET b <- float_at p' 1 IN
            snprintf dst field_size (printf_f P 4 a ++ space ++ printf_f P 4 b)
        | VEC3 =>
            LET a <- float_at p' 0 IN
            LET b <- float_at p' 1 IN
            LET c <- float_at p' 2 IN
            snprintf dst field_size
              (printf_f P 4 a ++ space ++ printf_f P 4 b ++ space ++ printf_f P 4 c)
        | _ => Ok dst
        end
      else strcpy dst (bytes default_val)
  | None => strcpy dst (bytes default_val)
  end.

(** Run a string operation on one character member of the header. *)
Definition on_chars (f : CharField) (op : list byte -> Outcome (list byte))
    (rla : WAVEFRONT) : Outcome WAVEFRONT :=
  LET v <- op (chars rla f) IN Ok (set_chars f v rla).

(** [s = get_string_attribute (name, ""); if (s.length ()) strncpy (...)] *)
Definition copy_attribute (spec : ImageSpec) (name : string) (f : CharField)
    (rla : WAVEFRONT) : Outcome WAVEFRONT :=
  let s := get_string_attribute spec name "" in
  if decide (String.length s <> 0%nat)
  then on_chars f (fun dst => strncpy dst (c_str s) (char_size pvt f)) rla
  else Ok rla.

Definition set_gamma (spec : ImageSpec) (rla : WAVEFRONT) : Outcome WAVEFRONT :=
  let s := get_string_attribute spec "oiio:ColorSpace" "Unknown" in
  if iequals s "Linear" then on_chars Gamma (fun dst => strcpy dst (bytes "1.0")) rla
  else if iequals s "GammaCorrected" then
    on_chars Gamma
      (fun dst => snprintf dst (char_size pvt Gamma)
         (printf_f P 10 (get_float_attribute spec "oiio:Gamma" (float_one P)))) rla
  else Ok rla.

Definition chromaticity (spec : ImageSpec) (name : string) (f : CharField)
    (default_val : string) (rla : WAVEFRONT) : Outcome WAVEFRONT :=
  on_chars f
    (fun dst => set_chromaticity (find_attribute spec name) dst (char_size pvt f)
                  default_val) rla.

(** The text of [strftime (..., "%m  %d %H:%M %Y", ...)]. *)
Definition date_text (t : tm) : list byte :=
  bytes (pad2 (tm_mon t + 1) +:+ "  " +:+ pad2 (tm_mday t) +:+ " "
         +:+ pad2 (tm_hour t) +:+ ":" +:+ pad2 (tm_min t) +:+ " "
         +:+ decimal (tm_year t + 1900)).

Definition month_name (m : Z) : option string :=
  match m with
  | 1 => Some "JAN" | 2 => Some "FEB" | 3 => Some "MAR" | 4 => Some "APR"
  | 5 => Some "MAY" | 6 => Some "JUN" | 7 => Some "JUL" | 8 => Some "AUG"
  | 9 => Some "SEP" | 10 => Some "OCT" | 11 => Some "NOV" | 12 => Some "DEC"
  | _ => None
  end%string.

Definition set_date (now : tm) (rla : WAVEFRONT) : Outcome WAVEFRONT :=
  LET rla <- on_chars DateCreated
    (fun dst => strftime dst (char_size pvt DateCreated) (date_text now)) rla IN
  match month_name (atoi (until_nul (chars rla DateCreated))) with
  | Some m => on_chars DateCreated (fun dst => memcpy dst (bytes m)) rla
  | None => Ok rla
  end.

(** *** The header of an image ([open], "prepare and write the RLA header") *)

Definition build_header (name : string) (spec : ImageSpec) (now : tm)
  : Outcome WAVEFRONT :=
  let rla := zeroed pvt in
  (* frame and window coordinates *)
  let rla := set_int WindowLeft (full_x spec) rla in
  let rla := set_int WindowRight (full_x spec + full_width spec - 1) rla in
  let rla := set_int WindowBottom (- full_y spec) rla in
  let rla := set_int WindowTop (full_height spec - full_y spec - 1) rla in
  let rla := set_int ActiveLeft (x spec) rla in
  let rla := set_int ActiveRight (x spec + width spec - 1) rla in
  let rla := set_int ActiveBottom (- y spec) rla in
  let rla := set_int ActiveTop (height spec - y spec - 1) rla in
  let rla := set_int FrameNumber (get_int_attribute spec "rla:FrameNumber" 0) rla in
  LET rla <- classify pvt (nchannels spec) (format spec) (channelformats spec) rla IN
  let rla := set_int Revision 65534 rla in
  LET rla <- set_gamma spec rla IN
  LET rla <- chromaticity spec "rla:RedChroma" RedChroma "0.67 0.08" rla IN
  LET rla <- chromaticity spec "rla:GreenChroma" GreenChroma "0.21 0.71" rla IN
  LET rla <- chromaticity spec "rla:BlueChroma" BlueChroma "0.14 0.33" rla IN
  LET rla <- chromaticity spec "rla:WhitePoint" WhitePoint "0.31 0.316" rla IN
  let rla := set_int JobNumber (get_int_attribute spec "rla:JobNumber" 0) rla in
  LET rla <- on_chars FileName
    (fun dst => strncpy dst (c_str name) (char_size pvt FileName)) rla IN
  LET rla <- copy_attribute spec "ImageDescription" Description rla IN
  LET rla <- on_chars ProgramName
    (fun dst => strcpy dst (c_str (OIIO_INTRO_STRING P))) rla IN
  LET rla <- copy_attribute spec "rla:MachineName" MachineName rla IN
  LET rla <- copy_attribute spec "rla:UserName" UserName rla IN
  LET rla <- set_date now rla IN
  LET rla <- copy_attribute spec "rla:Aspect" Aspect rla IN
  LET rla <- on_chars AspectRatio
    (fun dst => snprintf dst (char_size pvt AspectRatio)
       (printf_f P 10 (int_div_float P (width spec) (height spec)))) rla IN
  LET rla <- on_chars ColorChannel
    (fun dst => strcpy dst (c_str (get_string_attribute spec "rla:ColorChannel" "rgb")))
    rla IN
  let rla := set_int FieldRendered (get_int_attribute spec "rla:FieldRendered" 0) rla in
  LET rla <- copy_attribute spec "rla:Time" Time rla IN
  LET rla <- copy_attribute spec "rla:Filter" Filter rla IN
  copy_attribute spec "rla:AuxData" AuxData rla.

(** *** Byte order and the field serializer *)

(** The [w] low bytes of a two's complement integer, least significant
    first, and the unsigned value of such a sequence. *)
Fixpoint to_le (w : nat) (v : Z) : list byte :=
  match w with
  | O => []
  | S w' => byte_of_Z (v mod 256) :: to_le w' (v / 256)
  end.

Fixpoint of_le (l : list byte) : Z :=
  match l with
  | [] => 0
  | b :: l' => Z_of_byte b + 256 * of_le l'
  end.

(** The bytes, in memory order, of an integer object of [w] bytes that
    holds [v], on a host that is little-endian ([le]) or not; and the value
    an object with the given bytes holds. *)
Definition object_bytes (le : bool) (w : nat) (v : Z) : list byte :=
  if le then to_le w v else rev (to_le w v).

Definition object_value (le : bool) (w : nat) (l : list byte) : Z :=
  wrap (8 * Z.of_nat w) (of_le (if le then l else rev l)).

(** Modelled from the spec: [swap_endian] and [littleendian] are declared
    in [fmath.h], outside the sources.  [swap_endian (&v)] reverses the
    bytes of the object in place. *)
Definition swap_endian (le : bool) (w : nat) (v : Z) : Z :=
  object_value le w (rev (object_bytes le w v)).

Definition swap_member (le : bool) (rla : WAVEFRONT) (f : IntField) : WAVEFRONT :=
  set_int f (swap_endian le (int_width f) (get_int rla f)) rla.

(** The members swapped under [if (littleendian ())], in source order. *)
Definition swapped_members : list IntField :=
  [ WindowLeft; WindowRight; WindowBottom; WindowTop;
    ActiveLeft; ActiveRight; ActiveBottom; ActiveTop;
    FrameNumber; ColorChannelType;
    NumOfColorChannels; NumOfMatteChannels; NumOfAuxChannels;
    Revision; JobNumber; FieldRendered;
    NumOfChannelBits; MatteChannelType; NumOfMatteBits;
    AuxChannelType; NumOfAuxBits; NextOffset ].

Definition to_file_order (le : bool) (rla : WAVEFRONT) : WAVEFRONT :=
  if le then foldl (swap_member le) rla swapped_members else rla.

Inductive Member : Type :=
  | IntMember (f : IntField)
  | CharMember (f : CharField).

(** The members written by the [WH] lines, in source order. *)
Definition written_members : list Member :=
  [ IntMember WindowLeft; IntMember WindowRight; IntMember WindowBottom;
    IntMember WindowTop; IntMember ActiveLeft; IntMember ActiveRight;
    IntMember ActiveBottom; IntMember ActiveTop; IntMember FrameNumber;
    IntMember ColorChannelType; IntMember NumOfColorChannels;
    IntMember NumOfMatteChannels; IntMember NumOfAuxChannels;
    IntMember Revision; CharMember Gamma; CharMember RedChroma;
    CharMember GreenChroma; CharMember BlueChroma; CharMember WhitePoint;
    IntMember JobNumber; CharMember FileName; CharMember Description;
    CharMember ProgramName; CharMember MachineName; CharMember UserName;
    CharMember DateCreated; CharMember Aspect; CharMember AspectRatio;
    CharMember ColorChannel; IntMember FieldRendered; CharMember Time;
    CharMember Filter; IntMember NumOfChannelBits; IntMember MatteChannelType;
    IntMember NumOfMatteBits; IntMember AuxChannelType; IntMember NumOfAuxBits;
    CharMember AuxData; CharMember Reserved; IntMember NextOffset ].

(** The bytes of [fwrite (&rla.memb, sizeof (rla.memb), 1, m_file)]. *)
Definition member_bytes (le : bool) (rla : WAVEFRONT) (m : Member) : list byte :=
  match m with
  | IntMember f => object_bytes le (int_width f) (get_int rla f)
  | CharMember f => chars rla f
  end.

(** *** The output object *)

Record RLAOutput : Type := mkRLAOutput {
  fs : gmap string (list byte);   (* the files of the host, by name *)
  m_file : option string;         (* open image handle: the file it writes *)
  m_spec : ImageSpec;
  m_scratch : list byte;
  m_errmessage : string
}.

Definition with_fs (v : gmap string (list byte)) (st : RLAOutput) : RLAOutput :=
  mkRLAOutput v (m_file st) (m_spec st) (m_scratch st) (m_errmessage st).
Definition with_file (v : option string) (st : RLAOutput) : RLAOutput :=
  mkRLAOutput (fs st) v (m_spec st) (m_scratch st) (m_errmessage st).
Definition with_spec (v : ImageSpec) (st : RLAOutput) : RLAOutput :=
  mkRLAOutput (fs st) (m_file st) v (m_scratch st) (m_errmessage st).
Definition with_scratch (v : list byte) (st : RLAOutput) : RLAOutput :=
  mkRLAOutput (fs st) (m_file st) (m_spec st) v (m_errmessage st).

(** [error (...)] *)
Definition error (msg : string) (st : RLAOutput) : RLAOutput :=
  mkRLAOutput (fs st) (m_file st) (m_spec st) (m_scratch st) msg.

Definition format_name : string := "rla".

Definition supports (feature : string) : bool := false.

(** [m_file = fopen (name, "wb")] on a host that can create the file;
    [name] is the C string that [fopen] receives. *)
Definition fopen_wb (name : string) (st : RLAOutput) : RLAOutput :=
  with_file (Some name) (with_fs (<[name := []]> (fs st)) st).

(** [fwrite] to [m_file]. *)
Definition fwrite (data : list byte) (st : RLAOutput) : RLAOutput :=
  match m_file st with
  | Some name => with_fs (alter (fun old => old ++ data) name (fs st)) st
  | None => st
  end.

(** [RLAOutput::close] *)
Definition close (st : RLAOutput) : bool * RLAOutput :=
  (true, with_file None st).

Definition quote : string := String (ascii_of_nat 34) EmptyString.

Definition write_members (le : bool) (rla : WAVEFRONT) (st : RLAOutput)
  : RLAOutput :=
  foldl (fun st m => fwrite (member_bytes le rla m) st) st written_members.

(** [for (int i = 0; i < m_spec.height; ++i) fwrite (&temp, sizeof (temp), 1, m_file);] *)
Definition write_offsets (le : bool) (rows : Z) (st : RLAOutput) : RLAOutput :=
  Nat.iter (Z.to_nat rows) (fwrite (object_bytes le 4 0)) st.

Section Open.
Variable host : Host.

(** [open] from "prepare and write the RLA header" to [return true]. *)
Definition write_image (name : string) (st : RLAOutput)
  : Outcome (bool * RLAOutput) :=
  LET rla <- build_header name (m_spec st) (localtime host) IN
  let rla := to_file_order (littleendian host) rla in
  let st := write_members (littleendian host) rla st in
  let st := write_offsets (littleendian host) (height (m_spec st)) st in
  Ok (true, st).

(** [RLAOutput::open].  The file is opened, and named in the message, by
    [name.c_str ()]; the header receives [name] itself. *)
Definition open (name : string) (userspec : ImageSpec) (mode : OpenMode)
    (st : RLAOutput) : Outcome (bool * RLAOutput) :=
  if decide (mode <> Create) then
    Ok (false, error (format_name +:+ " does not support subimages or MIP levels") st)
  else
    let st := snd (close st) in
    let st := with_spec userspec st in
    if negb (can_create host (c_name name)) then
      Ok (false,
          error ("Could not open file " +:+ quote +:+ c_name name +:+ quote) st)
    else
      let st := fopen_wb (c_name name) st in
      if (width (m_spec st) <? 1) || (height (m_spec st) <? 1) then
        Ok (false,
            error ("Image resolution must be at least 1x1, you asked for "
                   +:+ decimal (width (m_spec st)) +:+ " x "
                   +:+ decimal (height (m_spec st))) st)
      else if depth (m_spec st) <? 1 then
        write_image name (with_spec (set_depth 1 (m_spec st)) st)
      else if 1 <? depth (m_spec st) then
        Ok (false,
            error (format_name +:+ " does not support volume images (depth > 1)") st)
      else write_image name st.
End Open.

(** *** Scanlines *)

(** Modelled from the spec: the conversion helpers of [ImageOutput] and
    [ImageSpec] are outside the sources.  [to_native_scanline] returns the
    converted pixels when it had to convert them into the scratch space,
    and nothing when the caller's data are native already.  [data] stands
    for the caller's memory at the pointer. *)
Variable auto_stride : ImageSpec -> Z -> TypeDesc -> Z -> Z.
Variable to_native_scanline :
  ImageSpec -> TypeDesc -> list byte -> Z -> option (list byte).
Variable scanline_bytes : ImageSpec -> nat.

(** [RLAOutput::write_scanline].  When the data are native already,
    [m_scratch.assign] reads [scanline_bytes ()] bytes at [data], past the
    end of a shorter buffer, and [&m_scratch[0]] subscripts the vector,
    out of range when the scanline is empty. *)
Definition write_scanline (y z : Z) (format : TypeDesc) (data : list byte)
    (xstride : Z) (st : RLAOutput) : Outcome (bool * RLAOutput) :=
  let xstride := auto_stride (m_spec st) xstride format (nchannels (m_spec st)) in
  match to_native_scanline (m_spec st) format data xstride with
  | Some native => Ok (true, with_scratch native st)
  | None =>
      let n := scanline_bytes (m_spec st) in
      if decide (length data < n)%nat then Undefined (ShortBuffer (length data))
      else
        let st := with_scratch (take n data) st in
        if decide (m_scratch st = []) then Undefined EmptyScratch
        else Ok (true, st)
  end.

End Output.

Arguments mkParam {P} pname ptype pdata.
Arguments pname {P} _.
Arguments ptype {P} _.
Arguments pdata {P} _.
Arguments IntData {P} v.
Arguments FloatData {P} v.
Arguments StringData {P} v.
Arguments mkImageSpec {P}.
Arguments x {P} _.
Arguments y {P} _.
Arguments width {P} _.
Arguments height {P} _.
Arguments depth {P} _.
Arguments full_x {P} _.
Arguments full_y {P} _.
Arguments full_width {P} _.
Arguments full_height {P} _.
Arguments nchannels {P} _.
Arguments format {P} _.
Arguments channelformats {P} _.
Arguments extra_attribs {P} _.
Arguments mkRLAOutput {P}.
Arguments fs {P} _.
Arguments m_file {P} _.
Arguments m_spec {P} _.
Arguments m_scratch {P} _.
Arguments m_errmessage {P} _.
Arguments find_attribute {P} spec name.
Arguments get_int_attribute {P} spec name val.
Arguments get_float_attribute {P} spec name val.
Arguments get_string_attribute {P} spec name val.
Arguments set_chromaticity {P} p dst field_size default_val.
Arguments build_header {P} pvt name spec now.
Arguments write_image {P} pvt host name st.
Arguments open {P} pvt host name userspec mode st.
Arguments close {P} st.
Arguments fwrite {P} data st.
Arguments fopen_wb {P} name st.
Arguments write_members {P} le rla st.
Arguments write_offsets {P} le rows st.
Arguments write_scanline {P} auto_stride to_native_scanline scanline_bytes
  y z format data xstride st.
Arguments error {P} msg st.
Arguments with_fs {P} v st.
Arguments with_file {P} v st.
Arguments with_spec {P} v st.
Arguments with_scratch {P} v st.
Arguments set_depth {P} d spec.
Arguments copy_attribute {P} pvt spec name f rla.
Arguments set_gamma {P} pvt spec rla.
Arguments chromaticity {P} pvt spec name f default_val rla.
Arguments float_at {P} p i.

(** The whole header as one byte sequence, in the order of the [WH] lines. *)
Definition header_bytes (le : bool) (rla : WAVEFRONT) : list byte :=
  flat_map (member_bytes le rla) written_members.

(** The header as the format wants it: every integer member most
    significant byte first, whatever the host. *)
Definition big_endian_member (rla : WAVEFRONT) (m : Member) : list byte :=
  match m with
  | IntMember f => rev (to_le (int_width f) (get_int rla f))
  | CharMember f => chars rla f
  end.

Definition big_endian_header (rla : WAVEFRONT) : list byte :=
  flat_map (big_endian_member rla) written_members.

(** A stand-in for the C library on exact fractions: [(a, b)] is [a / b],
    printed by truncation.  It instantiates the parameters where a
    concrete run is wanted. *)
Definition print_fraction (n : nat) (q : Z * Z) : list byte :=
  let '(a, b) := q in
  let scaled := (a * 10 ^ Z.of_nat n) / b in
  let frac := bytes (decimal (scaled mod 10 ^ Z.of_nat n)) in
  bytes (decimal (scaled / 10 ^ Z.of_nat n)) ++ bytes "."
  ++ replicate (n - length frac) "0"%byte ++ frac.

Definition exact_platform : Platform :=
  mkPlatform (Z * Z) (1, 1) (fun a b => (a, b)) print_fraction
    "OpenImageIO http://www.openimageio.org".

Definition test_host (le : bool) : Host :=
  mkHost le (mk_tm 30 12 15 2 111) (fun _ => true).

Definition empty_output (P : Platform) : RLAOutput P :=
  mkRLAOutput (P := P) (∅ : gmap string (list byte)) None
    (mkImageSpec 0 0 0 0 0 0 0 0 0 0 (scalar UNKNOWN) [] []) [] "".

(** An image of 4 x 2 pixels with 3 float channels and no attributes. *)
Definition small_image (P : Platform) : ImageSpec P :=
  mkImageSpec 0 0 4 2 1 0 0 4 2 3 (scalar FLOAT) [] [].

(** ** Definitions for the statements *)

(** The group sizes of the classified header add up to the channel count. *)
Definition sizes_sum_to (pvt : rla_pvt) (C : Z) (format : TypeDesc)
    (channelformats : list TypeDesc) : Prop :=
  exists rla,
    classify pvt C format channelformats (zeroed pvt) = Ok rla /\
    sizes_sum rla = C.

(** Four channels of alternating types [float, uint8, float, uint8]. *)
Definition alternating : list TypeDesc :=
  [scalar FLOAT; scalar UINT8; scalar FLOAT; scalar UINT8].

Definition alternating_header : WAVEFRONT :=
  match classify wavefront_pvt 4 (scalar FLOAT) alternating (zeroed wavefront_pvt) with
  | Ok rla => rla
  | Undefined _ => zeroed wavefront_pvt
  end.

(** Every character array of the header has its declared size. *)
Definition well_sized (pvt : rla_pvt) (rla : WAVEFRONT) : Prop :=
  forall f, length (chars rla f) = char_size pvt f.

(** A color channel label of 32 characters and the 32 bytes of the array. *)
Definition long_label : string := "rgbrgbrgbrgbrgbrgbrgbrgbrgbrgbrg".

Definition labelled_image (P : Platform) : ImageSpec P :=
  mkImageSpec 0 0 4 2 1 0 0 4 2 3 (scalar FLOAT) []
    [mkParam "rla:ColorChannel" (scalar STRING) (StringData [long_label])].

(** A single float as the red chromaticity. *)
Definition scalar_red (P : Platform) (v : Float P) : ImageIOParameter P :=
  mkParam "rla:RedChroma" (scalar FLOAT) (FloatData [v]).

(** The image description that [open] keeps: a depth below 1 becomes 1. *)
Definition opened_spec {P : Platform} (spec : ImageSpec P) : ImageSpec P :=
  if depth spec <? 1 then set_depth 1 spec else spec.

(** The arguments of one call of [write_scanline]. *)
Record Scanline : Type := mkScanline {
  sl_y : Z; sl_z : Z; sl_format : TypeDesc; sl_data : list byte; sl_xstride : Z
}.

Section ScanlineCalls.
Variable P : Platform.
Variable auto_stride : ImageSpec P -> Z -> TypeDesc -> Z -> Z.
Variable to_native_scanline :
  ImageSpec P -> TypeDesc -> list byte -> Z -> option (list byte).
Variable scanline_bytes : ImageSpec P -> nat.

Definition write_one (c : Scanline) (st : RLAOutput P)
  : Outcome (bool * RLAOutput P) :=
  write_scanline auto_stride to_native_scanline scanline_bytes
    (sl_y c) (sl_z c) (sl_format c) (sl_data c) (sl_xstride c) st.

(** A sequence of calls: the values returned and the final state. *)
Fixpoint write_scanlines (calls : list Scanline) (st : RLAOutput P)
  : Outcome (list bool * RLAOutput P) :=
  match calls with
  | [] => Ok ([], st)
  | c :: calls' =>
      LET (b, st1) <- write_one c st IN
      LET (bs, st2) <- write_scanlines calls' st1 IN
      Ok (b :: bs, st2)
  end.

(** The call [c] is one that [write_scanline] can serve in the state [st]:
    the library converts the data, or they hold a scanline, which is not
    empty. *)
Definition holds_scanline (c : Scanline) (st : RLAOutput P) : Prop :=
  match to_native_scanline (m_spec st) (sl_format c) (sl_data c)
          (auto_stride (m_spec st) (sl_xstride c) (sl_format c)
             (nchannels (m_spec st))) with
  | Some _ => True
  | None =>
      (0 < scanline_bytes (m_spec st) <= length (sl_data c))%nat
  end.

End ScanlineCalls.

Arguments write_one {P} auto_stride to_native_scanline scanline_bytes c st.
Arguments write_scanlines {P} auto_stride to_native_scanline scanline_bytes calls st.
Arguments holds_scanline {P} auto_stride to_native_scanline scanline_bytes c st.

(** Two calls, for the rows 0 and 1 of the 4 x 2 image with 3 float
    channels: 48 bytes each. *)
Definition two_rows : list Scanline :=
  [mkScanline 0 0 (scalar FLOAT) (replicate 48 x00) 0;
   mkScanline 1 0 (scalar FLOAT) (replicate 48 x01) 0].

(** A library whose pixels are native already, for concrete runs. *)
Definition plain_stride (spec : ImageSpec exact_platform) (xstride : Z)
    (format : TypeDesc) (nchannels : Z) : Z := xstride.

Definition no_conversion (spec : ImageSpec exact_platform) (format : TypeDesc)
    (data : list byte) (xstride : Z) : option (list byte) := None.

Definition plain_scanline_bytes (spec : ImageSpec exact_platform) : nat :=
  Z.to_nat (width spec * nchannels spec * size (format spec)).

Definition opened_small_image : RLAOutput exact_platform :=
  match open wavefront_pvt (test_host true) "a.rla" (small_image exact_platform)
          Create (empty_output exact_platform) with
  | Ok (_, st) => st
  | Undefined _ => empty_output exact_platform
  end.

(** The 4 x 2 image without channels, and the state after its [open]. *)
Definition no_channels_image : ImageSpec exact_platform :=
  mkImageSpec 0 0 4 2 1 0 0 4 2 0 (scalar FLOAT) [] [].

Definition opened_no_channels : RLAOutput exact_platform :=
  match open wavefront_pvt (test_host true) "a.rla" no_channels_image
          Create (empty_output exact_platform) with
  | Ok (_, st) => st
  | Undefined _ => empty_output exact_platform
  end.

(** A file name with an embedded NUL. *)
Definition nul_name : string := String "a" (String (ascii_of_nat 0) "b").

(** An image description of width 0. *)
Definition flat_image : ImageSpec exact_platform :=
  mkImageSpec 0 0 0 2 1 0 0 4 2 3 (scalar FLOAT) [] [].

(** The content of a file after a successful [open], and a character array
    of a header that could be built. *)
Definition written_file {P : Platform} (o : Outcome (bool * RLAOutput P))
    (name : string) : option (list byte) :=
  match o with
  | Ok (true, st) => fs st !! name
  | _ => None
  end.

Definition built_chars (o : Outcome WAVEFRONT) (f : CharField)
  : option (list byte) :=
  match o with
  | Ok rla => Some (chars rla f)
  | Undefined _ => None
  end.

(** The 4 x 2 image with a display window that starts at 0x0102. *)
Definition shifted_image : ImageSpec exact_platform :=
  mkImageSpec 0 0 4 2 1 258 0 4 2 3 (scalar FLOAT) [] [].

Definition opened_shifted_image : RLAOutput exact_platform :=
  match open wavefront_pvt (test_host true) "a.rla" shifted_image
          Create (empty_output exact_platform) with
  | Ok (_, st) => st
  | Undefined _ => empty_output exact_platform
  end.

(** The 4 x 2 image with a single float as [rla:RedChroma]. *)
Definition red_image : ImageSpec exact_platform :=
  mkImageSpec 0 0 4 2 1 0 0 4 2 3 (scalar FLOAT) []
    [scalar_red exact_platform (64, 100)].

(** ** The header field by field

    [build_header] runs its steps one after the other on the whole header.
    The definitions below name, for each character array, the one operation
    that writes it, and the integer members that are set around the
    classifier; the theorem [header_fields] compares them with
    [build_header]. *)

(** A character array as [memset] leaves it. *)
Definition zeros (pvt : rla_pvt) (f : CharField) : list byte :=
  replicate (char_size pvt f) x00.

Section Fields.
Variable P : Platform.
Variable pvt : rla_pvt.
Variable name : string.
Variable spec : ImageSpec P.
Variable now : tm.

(** The operation of [copy_attribute] on its array. *)
Definition copy_op (attr : string) (f : CharField) (dst : list byte)
  : Outcome (list byte) :=
  let s := get_string_attribute spec attr "" in
  if decide (String.length s <> 0%nat)
  then strncpy dst (c_str s) (char_size pvt f)
  else Ok dst.

(** The operation of [set_gamma] on [Gamma]. *)
Definition gamma_op (dst : list byte) : Outcome (list byte) :=
  let s := get_string_attribute spec "oiio:ColorSpace" "Unknown" in
  if iequals s "Linear" then strcpy dst (bytes "1.0")
  else if iequals s "GammaCorrected" then
    snprintf dst (char_size pvt Gamma)
      (printf_f P 10 (get_float_attribute spec "oiio:Gamma" (float_one P)))
  else Ok dst.

(** The operation of [chromaticity] on its array. *)
Definition chroma_op (attr : string) (f : CharField) (default_val : string)
    (dst : list byte) : Outcome (list byte) :=
  set_chromaticity (find_attribute spec attr) dst (char_size pvt f) default_val.

(** The operation of [set_date] on [DateCreated]: [strftime], then the
    month name over the first three bytes. *)
Definition date_op (dst : list byte) : Outcome (list byte) :=
  LET d <- strftime dst (char_size pvt DateCreated) (date_text now) IN
  match month_name (atoi (until_nul d)) with
  | Some m => memcpy d (bytes m)
  | None => Ok d
  end.

Definition field_op (f : CharField) : list byte -> Outcome (list byte) :=
  match f with
  | Gamma => gamma_op
  | RedChroma => chroma_op "rla:RedChroma" RedChroma "0.67 0.08"
  | GreenChroma => chroma_op "rla:GreenChroma" GreenChroma "0.21 0.71"
  | BlueChroma => chroma_op "rla:BlueChroma" BlueChroma "0.14 0.33"
  | WhitePoint => chroma_op "rla:WhitePoint" WhitePoint "0.31 0.316"
  | FileName => fun dst => strncpy dst (c_str name) (char_size pvt FileName)
  | Description => copy_op "ImageDescription" Description
  | ProgramName => fun dst => strcpy dst (c_str (OIIO_INTRO_STRING P))
  | MachineName => copy_op "rla:MachineName" MachineName
  | UserName => copy_op "rla:UserName" UserName
  | DateCreated => date_op
  | Aspect => copy_op "rla:Aspect" Aspect
  | AspectRatio =>
      fun dst => snprintf dst (char_size pvt AspectRatio)
                   (printf_f P 10 (int_div_float P (width spec) (height spec)))
  | ColorChannel =>
      fun dst =>
        strcpy dst (c_str (get_string_attribute spec "rla:ColorChannel" "rgb"))
  | Time => copy_op "rla:Time" Time
  | Filter => copy_op "rla:Filter" Filter
  | AuxData => copy_op "rla:AuxData" AuxData
  | Reserved => fun dst => Ok dst
  end.

(** The header as the classifier receives it: the windows and the frame
    number set on the cleared header. *)
Definition windowed : WAVEFRONT :=
  set_int FrameNumber (get_int_attribute spec "rla:FrameNumber" 0)
    (set_int ActiveTop (height spec - y spec - 1)
       (set_int ActiveBottom (- y spec)
          (set_int ActiveRight (x spec + width spec - 1)
             (set_int ActiveLeft (x spec)
                (set_int WindowTop (full_height spec - full_y spec - 1)
                   (set_int WindowBottom (- full_y spec)
                      (set_int WindowRight (full_x spec + full_width spec - 1)
                         (set_int WindowLeft (full_x spec) (zeroed pvt))))))))).

(** The integer members set after the classifier. *)
Definition numbered (rla : WAVEFRONT) : WAVEFRONT :=
  set_int FieldRendered (get_int_attribute spec "rla:FieldRendered" 0)
    (set_int JobNumber (get_int_attribute spec "rla:JobNumber" 0)
       (set_int Revision 65534 rla)).
End Fields.

Arguments copy_op {P} pvt spec attr f dst.
Arguments gamma_op {P} pvt spec dst.
Arguments chroma_op {P} pvt spec attr f default_val dst.
Arguments field_op {P} pvt name spec now f.
Arguments windowed {P} pvt spec.
Arguments numbered {P} spec rla.

(** A step of [build_header] that works on the array [f] alone, with the
    operation [op]: the integer members and the other arrays stay, and the
    step is undefined exactly when [op] is. *)
Definition char_step (f : CharField) (op : list byte -> Outcome (list byte))
    (step : WAVEFRONT -> Outcome WAVEFRONT) : Prop :=
  forall r,
    match step r with
    | Ok r' =>
        (forall g, ints r' g = ints r g) /\
        (forall g, g <> f -> chars r' g = chars r g) /\
        op (chars r f) = Ok (chars r' f)
    | Undefined u => op (chars r f) = Undefined u
    end.

(** The header [r] after the steps for the arrays [done]: its integer
    members are those of [X], the arrays of [done] hold the result of their
    operation on the cleared array, the others are still clear. *)
Definition stage (pvt : rla_pvt)
    (ops : CharField -> list byte -> Outcome (list byte))
    (done : list CharField) (X r : WAVEFRONT) : Prop :=
  (forall g, ints r g = ints X g) /\
  (forall f, f ∈ done -> ops f (zeros pvt f) = Ok (chars r f)) /\
  (forall f, f ∉ done -> chars r f = zeros pvt f).

(** The integer members that the classifier assigns. *)
Definition channel_member (g : IntField) : bool :=
  match g with
  | ColorChannelType | NumOfColorChannels | NumOfMatteChannels
  | NumOfAuxChannels | NumOfChannelBits | MatteChannelType | NumOfMatteBits
  | AuxChannelType | NumOfAuxBits => true
  | _ => false
  end.

(** A text in an array of [n] bytes that were zero before. *)
Definition padded (text : list byte) (n : nat) : list byte :=
  text ++ replicate (n - length text) x00.

(** The attributes that [open] copies with [strncpy], and their arrays. *)
Definition copied_attributes : list (string * CharField) :=
  [ ("ImageDescription", Description); ("rla:MachineName", MachineName);
    ("rla:UserName", UserName); ("rla:Aspect", Aspect); ("rla:Time", Time);
    ("rla:Filter", Filter); ("rla:AuxData", AuxData) ]%string.

(** The chromaticity attributes, their arrays and their defaults. *)
Definition chromaticities : list (string * CharField * string) :=
  [ ("rla:RedChroma", RedChroma, "0.67 0.08");
    ("rla:GreenChroma", GreenChroma, "0.21 0.71");
    ("rla:BlueChroma", BlueChroma, "0.14 0.33");
    ("rla:WhitePoint", WhitePoint, "0.31 0.316") ]%string.



(** ** The layout of the file *)

#[global] Instance Member_eq_dec : EqDecision Member.
Proof. solve_decision. Defined.

(** [sizeof (rla.memb)] *)
Definition member_size (pvt : rla_pvt) (m : Member) : nat :=
  match m with
  | IntMember f => int_width f
  | CharMember f => char_size pvt f
  end.

(** The number of bytes that the [WH] lines write. *)
Definition header_size (pvt : rla_pvt) : nat :=
  sum_list (member_size pvt <$> written_members).

(** The number of bytes written before the member [m] by the members of
    [l], and the position of a member in the file. *)
Fixpoint offset_in (pvt : rla_pvt) (m : Member) (l : list Member) : nat :=
  match l with
  | [] => 0
  | m' :: l' =>
      if decide (m' = m) then 0%nat
      else (member_size pvt m' + offset_in pvt m l')%nat
  end.

Definition member_offset (pvt : rla_pvt) (m : Member) : nat :=
  offset_in pvt m written_members.

(** The bytes of a file at the place of a member. *)
Definition bytes_at (pvt : rla_pvt) (m : Member) (data : list byte) : list byte :=
  take (member_size pvt m) (drop (member_offset pvt m) data).

(** Every integer member holds a value of its type. *)
Definition in_range (rla : WAVEFRONT) : Prop :=
  forall g, wrap (8 * Z.of_nat (int_width g)) (get_int rla g) = get_int rla g.

(** ** Inputs of concrete runs *)

(** The header of [small_image], and of the same image under a file name
    of 130 characters. *)
Definition small_header : WAVEFRONT :=
  match build_header wavefront_pvt "a.rla" (small_image exact_platform)
          (localtime (test_host true)) with
  | Ok rla => rla
  | Undefined _ => zeroed wavefront_pvt
  end.

Definition long_name : string := string_of_list_ascii (List.repeat "a"%char 130).

Definition long_name_header : WAVEFRONT :=
  match build_header wavefront_pvt long_name (small_image exact_platform)
          (localtime (test_host true)) with
  | Ok rla => rla
  | Undefined _ => zeroed wavefront_pvt
  end.

(** A state with an image open on [old.rla] and a second file. *)
Definition busy_output : RLAOutput exact_platform :=
  mkRLAOutput
    (<["old.rla"%string := bytes "old"]>
       (<["b.rla"%string := bytes "other"]> (∅ : gmap string (list byte))))
    (Some "old.rla"%string) (small_image exact_platform) [] "".

(** The 4 x 2 image declared with depth 2. *)
Definition deep_image : ImageSpec exact_platform :=
  mkImageSpec 0 0 4 2 2 0 0 4 2 3 (scalar FLOAT) [] [].


(** The 4 x 2 image with a time of 19 characters and a linear color space,
    and with a gamma-corrected one of gamma 2.2. *)
Definition timed_image : ImageSpec exact_platform :=
  mkImageSpec 0 0 4 2 1 0 0 4 2 3 (scalar FLOAT) []
    [ mkParam "rla:Time" (scalar STRING) (StringData ["12:30:45.123 +01:00"]);
      mkParam "oiio:ColorSpace" (scalar STRING) (StringData ["LINEAR"]) ]%string.

Definition timed_header : WAVEFRONT :=
  match build_header wavefront_pvt "a.rla" timed_image
          (localtime (test_host true)) with
  | Ok rla => rla
  | Undefined _ => zeroed wavefront_pvt
  end.

Definition corrected_image : ImageSpec exact_platform :=
  mkImageSpec 0 0 4 2 1 0 0 4 2 3 (scalar FLOAT) []
    [ mkParam "oiio:ColorSpace" (scalar STRING) (StringData ["GammaCorrected"%string]);
      mkParam "oiio:Gamma" (scalar FLOAT)
        (FloatData (P := exact_platform) [(22, 10)]) ].

Definition corrected_header : WAVEFRONT :=
  match build_header wavefront_pvt "a.rla" corrected_image
          (localtime (test_host true)) with
  | Ok rla => rla
  | Undefined _ => zeroed wavefront_pvt
  end.

(** The 4 x 2 image with two floats as [rla:RedChroma]. *)
Definition red_pair : ImageIOParameter exact_platform :=
  mkParam "rla:RedChroma" (mkTypeDesc FLOAT VEC2 0)
    (FloatData (P := exact_platform) [(64, 100); (33, 100)]).

Definition vec2_image : ImageSpec exact_platform :=
  mkImageSpec 0 0 4 2 1 0 0 4 2 3 (scalar FLOAT) [] [red_pair].

Definition vec2_header : WAVEFRONT :=
  match build_header wavefront_pvt "a.rla" vec2_image
          (localtime (test_host true)) with
  | Ok rla => rla
  | Undefined _ => zeroed wavefront_pvt
  end.

(** * Properties *)

(** ** Integers and header members *)

Lemma wrap_small (w x : Z) :
  0 < w -> - 2 ^ (w - 1) <= x < 2 ^ (w - 1) -> wrap w x = x.
Proof.
  intros Hw Hx. unfold wrap.
  replace (2 ^ w) with (2 * 2 ^ (w - 1)).
  - rewrite Z.mod_small; lia.
  - rewrite <- Z.pow_succ_r by lia. f_equal. lia.
Qed.

Lemma wrap16_small (x : Z) : -32768 <= x <= 32767 -> wrap 16 x = x.
Proof. intros. apply wrap_small; [lia | change (2 ^ (16 - 1)) with 32768; lia]. Qed.

Lemma get_set_eq (f : IntField) (v : Z) (rla : WAVEFRONT) :
  get_int (set_int f v rla) f = wrap (8 * Z.of_nat (int_width f)) v.
Proof. unfold get_int, set_int. simpl. rewrite decide_True; done. Qed.

Lemma get_set_ne (f g : IntField) (v : Z) (rla : WAVEFRONT) :
  g <> f -> get_int (set_int f v rla) g = get_int rla g.
Proof. intros. unfold get_int, set_int. simpl. rewrite decide_False; done. Qed.

Lemma get_zeroed (pvt : rla_pvt) (f : IntField) : get_int (zeroed pvt) f = 0.
Proof. reflexivity. Qed.

Ltac members :=
  repeat first
    [ rewrite get_set_eq
    | rewrite get_set_ne by discriminate
    | rewrite get_zeroed ].

Arguments differs : simpl never.

Lemma differs_same (t : TypeDesc) : differs t t = false.
Proof. unfold differs. rewrite bool_decide_false; [done | intros H; by apply H]. Qed.

(** ** The global-type path *)

Lemma classify_no_formats pvt C format rla :
  classify pvt C format [] rla = Ok (classify_global pvt format C rla).
Proof. reflexivity. Qed.

Lemma global_sizes pvt format C :
  1 <= C <= 32771 ->
  group_sizes (classify_global pvt format C (zeroed pvt))
  = ((if 3 <=? C then 3 else 1),
     (if 0 <? C - (if 3 <=? C then 3 else 1) then 1 else 0),
     (if 0 <? C - (if 3 <=? C then 3 else 1) - 1
      then C - (if 3 <=? C then 3 else 1) - 1 else 0)).
Proof.
  intros HC. unfold group_sizes, classify_global, global_color, global_matte,
    global_aux, global_types.
  destruct (3 <=? C) eqn:H3.
  - apply Z.leb_le in H3.
    destruct (0 <? C - 3) eqn:Hm; [apply Z.ltb_lt in Hm | apply Z.ltb_ge in Hm].
    + destruct (0 <? C - 3 - 1) eqn:Ha;
        [apply Z.ltb_lt in Ha | apply Z.ltb_ge in Ha]; members;
        change (8 * Z.of_nat (int_width _)) with 16;
        rewrite ?wrap16_small by lia; reflexivity.
    + assert (C = 3) by lia; subst C. reflexivity.
  - apply Z.leb_gt in H3.
    assert (C = 1 \/ C = 2) as [-> | ->] by lia; reflexivity.
Qed.

(** C4 (amended).  Under the global-type path, for every channel count
    [1 <= C <= 32771]: the color group gets 3 channels if [C >= 3] and 1
    otherwise, and [remaining] is decremented by that number (by 1 when
    [C < 3]); the matte group gets 1 channel if a channel remains, and
    [remaining] is decremented once more; the channels that still remain all
    go to the auxiliary group. *)
Theorem global_path_groups (pvt : rla_pvt) (format : TypeDesc) (C : Z) :
  1 <= C <= 32771 ->
  let color := if 3 <=? C then 3 else 1 in
  let typed := global_types pvt format (zeroed pvt) in
  exists rla,
    classify pvt C format [] (zeroed pvt) = Ok rla /\
    get_int rla NumOfColorChannels = color /\
    snd (global_color C typed) = C - color /\
    get_int rla NumOfMatteChannels = (if 0 <? C - color then 1 else 0) /\
    snd (global_matte (C - color) (fst (global_color C typed))) = C - color - 1 /\
    get_int rla NumOfAuxChannels
    = (if 0 <? C - color - 1 then C - color - 1 else 0).
Proof.
  intros HC color typed. eexists. split; [apply classify_no_formats |].
  pose proof (global_sizes pvt format C HC) as Hs.
  unfold group_sizes in Hs. fold color in Hs.
  injection Hs as Hc Hm Ha.
  repeat split; try assumption.
  - unfold global_color, color. destruct (3 <=? C); reflexivity.
  - unfold global_matte. destruct (0 <? C - color); reflexivity.
Qed.

Lemma global_path_groups_witness :
  1 <= 5 <= 32771 /\
  exists rla,
    classify wavefront_pvt 5 (scalar FLOAT) [] (zeroed wavefront_pvt) = Ok rla /\
    get_int rla NumOfColorChannels = 3 /\
    get_int rla NumOfMatteChannels = 1 /\
    get_int rla NumOfAuxChannels = 1.
Proof.
  assert (H5 : 1 <= 5 <= 32771) by lia.
  split; [exact H5 |].
  destruct (global_path_groups wavefront_pvt (scalar FLOAT) 5 H5)
    as (rla & H & Hc & _ & Hm & _ & Ha).
  exists rla. split; [exact H | split; [exact Hc | split; [exact Hm | exact Ha]]].
Defined.

(** C4, as stated, fails where the 16-bit member cannot hold the count: with
    32772 channels, 32768 channels remain for the auxiliary group and the
    member [NumOfAuxChannels] holds -32768. *)
Lemma global_path_aux_wraps :
  let typed := global_types wavefront_pvt (scalar FLOAT) (zeroed wavefront_pvt) in
  let '(colored, remaining) := global_color 32772 typed in
  let '(matted, remaining) := global_matte remaining colored in
  remaining = 32768 /\
  classify wavefront_pvt 32772 (scalar FLOAT) [] (zeroed wavefront_pvt)
  = Ok (global_aux remaining matted) /\
  get_int (global_aux remaining matted) NumOfAuxChannels = -32768.
Proof. repeat split. Qed.

(** ** Sum of the group sizes *)

(** C2 (amended).  Under the global-type path, for every channel count
    [1 <= C <= 32771], the three group sizes sum to exactly [C]. *)
Theorem global_path_sizes_sum (pvt : rla_pvt) (format : TypeDesc) (C : Z) :
  1 <= C <= 32771 -> sizes_sum_to pvt C format [].
Proof.
  intros HC. eexists. split; [apply classify_no_formats |].
  pose proof (global_sizes pvt format C HC) as Hs.
  unfold group_sizes in Hs. injection Hs as Hc Hm Ha.
  unfold sizes_sum. rewrite Hc, Hm, Ha.
  destruct (3 <=? C) eqn:H3; [apply Z.leb_le in H3 | apply Z.leb_gt in H3].
  - destruct (0 <? C - 3) eqn:H1; [apply Z.ltb_lt in H1 | apply Z.ltb_ge in H1];
    destruct (0 <? C - 3 - 1) eqn:H2;
      [apply Z.ltb_lt in H2 | apply Z.ltb_ge in H2 | apply Z.ltb_lt in H2
      | apply Z.ltb_ge in H2]; lia.
  - destruct (0 <? C - 1) eqn:H1; [apply Z.ltb_lt in H1 | apply Z.ltb_ge in H1];
    destruct (0 <? C - 1 - 1) eqn:H2;
      [apply Z.ltb_lt in H2 | apply Z.ltb_ge in H2 | apply Z.ltb_lt in H2
      | apply Z.ltb_ge in H2]; lia.
Qed.

Lemma global_path_sizes_sum_witness :
  1 <= 6 <= 32771 /\ sizes_sum_to wavefront_pvt 6 (scalar UINT8) [].
Proof.
  assert (H6 : 1 <= 6 <= 32771) by lia.
  split; [exact H6 |].
  exact (global_path_sizes_sum wavefront_pvt (scalar UINT8) 6 H6).
Defined.

Lemma sizes_sum_value pvt C format cf rla s :
  classify pvt C format cf (zeroed pvt) = Ok rla -> sizes_sum rla = s ->
  s <> C -> ~ sizes_sum_to pvt C format cf.
Proof.
  intros H Hs Hne (rla' & H' & Hs'). rewrite H in H'.
  injection H' as <-. congruence.
Qed.

(** C2, as stated, fails on both paths: with no channels the global-type
    path still counts one color channel; four channels of alternating types
    are classified as three groups of one channel; and 32772 channels do not
    fit the 16-bit member. *)
Lemma sizes_sum_differs :
  ~ sizes_sum_to wavefront_pvt 0 (scalar FLOAT) [] /\
  ~ sizes_sum_to wavefront_pvt 4 (scalar FLOAT)
      [scalar FLOAT; scalar UINT8; scalar FLOAT; scalar UINT8] /\
  ~ sizes_sum_to wavefront_pvt 32772 (scalar FLOAT) [].
Proof.
  repeat split.
  - eapply (sizes_sum_value _ _ _ _ _ 1); [reflexivity | reflexivity | lia].
  - eapply (sizes_sum_value _ _ _ _ _ 3); [reflexivity | reflexivity | lia].
  - eapply (sizes_sum_value _ _ _ _ _ (-32764)); [reflexivity | reflexivity | lia].
Qed.

(** ** The explicit-type path *)

Lemma at_index_inside (cf : list TypeDesc) (t : TypeDesc) (i : Z) :
  0 <= i -> cf !! Z.to_nat i = Some t -> at_index cf i = Ok t.
Proof.
  intros Hi H. unfold at_index.
  destruct (i <? 0) eqn:E; [apply Z.ltb_lt in E; lia |]. by rewrite H.
Qed.

Lemma at_index_outside (cf : list TypeDesc) (i : Z) :
  Z.of_nat (length cf) <= i -> at_index cf i = Undefined (OutOfBounds i).
Proof.
  intros Hi. unfold at_index.
  destruct (i <? 0); [done |].
  rewrite lookup_ge_None_2; [done | lia].
Qed.

Lemma at_index_replicate (n : nat) (t : TypeDesc) (i : Z) :
  0 <= i < Z.of_nat n -> at_index (replicate n t) i = Ok t.
Proof.
  intros Hi. apply at_index_inside; [lia |].
  apply lookup_replicate_2. lia.
Qed.

(** A loop over channels of one type runs past the end of the list when
    [remaining] exceeds the channels left and the cap is not reached. *)
Lemma streak_loop_overruns (L : nat) (t : TypeDesc) (cap : option Z) (base : Z) :
  0 <= base < Z.of_nat L ->
  forall (k n : nat) (s : Z),
    base + s + Z.of_nat k = Z.of_nat L -> 0 <= s -> (k < n)%nat ->
    match cap with Some c => s + Z.of_nat k < c | None => True end ->
    streak_loop (at_index (replicate L t)) cap base s n
    = Undefined (OutOfBounds (Z.of_nat L)).
Proof.
  intros Hb k. induction k as [| k IH]; intros n s Hk Hs Hn Hcap;
    (destruct n as [| n]; [lia |]); simpl.
  - replace (match cap with Some c => s <? c | None => true end) with true
      by (destruct cap; [symmetry; apply Z.ltb_lt; lia | done]).
    rewrite (at_index_outside _ (base + s)) by (rewrite length_replicate; lia).
    simpl. do 2 f_equal. lia.
  - replace (match cap with Some c => s <? c | None => true end) with true
      by (destruct cap; [symmetry; apply Z.ltb_lt; lia | done]).
    rewrite !at_index_replicate by lia. simpl.
    rewrite differs_same. apply IH; try lia.
    destruct cap; [lia | done].
Qed.

(** Three channels of one type fill the color group: the loop stops at its
    cap with [remaining] two less. *)
Lemma color_loop_uniform (rd : Z -> Outcome TypeDesc) (t : TypeDesc) (m : nat) :
  rd 0 = Ok t -> rd 1 = Ok t -> rd 2 = Ok t ->
  streak_loop rd (Some 3) 0 1 (S (S m)) = Ok (3, m).
Proof.
  intros H0 H1 H2. cbn [streak_loop].
  change (1 <? 3) with true. cbv iota.
  change (0 + 1) with 1. rewrite H1. cbn [bind]. rewrite H0. cbn [bind].
  rewrite differs_same.
  change (1 + 1 <? 3) with true. cbv iota.
  change (0 + (1 + 1)) with 2. rewrite H2. cbn [bind].
  rewrite differs_same.
  change (1 + 1 + 1) with 3. destruct m; reflexivity.
Qed.

(** C3.  Channels of one type, whatever their number [C >= 1], make the
    classifier read [channelformats] at or past index [C], the end of the
    list. *)
Theorem uniform_list_read_past_end (pvt : rla_pvt) (format t : TypeDesc) (C : Z) :
  1 <= C ->
  exists i,
    C <= i /\
    classify pvt C format (replicate (Z.to_nat C) t) (zeroed pvt)
    = Undefined (OutOfBounds i).
Proof.
  intros HC.
  set (L := Z.to_nat C). assert (HL : Z.of_nat L = C) by lia.
  exists (if decide (C = 3) then 4 else C).
  split; [destruct (decide (C = 3)); lia |].
  unfold classify. rewrite decide_True by (destruct L eqn:E; [lia | discriminate]).
  unfold classify_explicit, explicit_color, explicit_matte, streak_for.
  destruct (0 <? C) eqn:E0; [| apply Z.ltb_ge in E0; lia].
  fold L.
  destruct (decide (C <= 2)) as [H2 | H2].
  - rewrite (streak_loop_overruns L t (Some 3) 0 ltac:(lia) (L - 1) L 1)
      by (simpl; lia).
    rewrite decide_False by lia. cbn [bind]. by rewrite HL.
  - assert (exists m, L = S (S (S m))) as [m Hm] by (exists (L - 3)%nat; lia).
    assert (Hr : forall i, 0 <= i < 3 -> at_index (replicate L t) i = Ok t)
      by (intros i Hi; apply at_index_replicate; lia).
    rewrite Hm at 2.
    rewrite (color_loop_uniform _ t (S m)) by (apply Hr; lia).
    cbn [bind]. rewrite (Hr 0) by lia. cbn [bind].
    rewrite decide_True by lia.
    members. change (wrap (8 * Z.of_nat (int_width NumOfColorChannels)) 3) with 3.
    destruct (0 <? Z.of_nat (S m)) eqn:E1; [| apply Z.ltb_ge in E1; lia].
    rewrite Nat2Z.id.
    destruct (decide (C = 3)) as [H3 | H3].
    + cbn [streak_loop]. change (3 + 1) with 4.
      rewrite (at_index_outside _ 4) by (rewrite length_replicate; lia).
      reflexivity.
    + rewrite (streak_loop_overruns L t None 3 ltac:(lia) (m - 1) (S m) 1)
        by (simpl; lia).
      cbn [bind]. by rewrite HL.
Qed.

Lemma uniform_list_read_past_end_witness :
  1 <= 3 /\
  exists i,
    3 <= i /\
    classify wavefront_pvt 3 (scalar FLOAT)
      (replicate (Z.to_nat 3) (scalar FLOAT)) (zeroed wavefront_pvt)
    = Undefined (OutOfBounds i).
Proof.
  split; [lia |].
  apply (uniform_list_read_past_end wavefront_pvt (scalar FLOAT) (scalar FLOAT) 3).
  lia.
Defined.

(** A single channel: the first comparison of the color loop reads
    [channelformats[1]]. *)
Example single_channel_read_past_end :
  classify wavefront_pvt 1 (scalar FLOAT) [scalar FLOAT] (zeroed wavefront_pvt)
  = Undefined (OutOfBounds 1).
Proof. reflexivity. Qed.

(** Three float channels: the color group takes them all, one channel is
    still counted as remaining, and the matte loop reads
    [channelformats[4]]. *)
Example three_floats_read_past_end :
  classify wavefront_pvt 3 (scalar FLOAT)
    [scalar FLOAT; scalar FLOAT; scalar FLOAT] (zeroed wavefront_pvt)
  = Undefined (OutOfBounds 4).
Proof. reflexivity. Qed.

(** *** What each step of the explicit path leaves alone *)

Lemma streak_loop_bounds (rd : Z -> Outcome TypeDesc) (cap : option Z) (base : Z) :
  forall (n : nat) (s s' : Z) (n' : nat),
    streak_loop rd cap base s n = Ok (s', n') ->
    s' - s = Z.of_nat n - Z.of_nat n' /\ (n' <= n)%nat.
Proof.
  induction n as [| n IH]; intros s s' n' H; simpl in H.
  - injection H as <- <-. lia.
  - destruct (match cap with Some c => s <? c | None => true end).
    + destruct (rd (base + s)) as [a |]; [| discriminate].
      destruct (rd base) as [b |]; [| discriminate]. cbn [bind] in H.
      destruct (differs a b).
      * injection H as <- <-. lia.
      * apply IH in H. lia.
    + injection H as <- <-. lia.
Qed.

Lemma streak_for_bounds (rd : Z -> Outcome TypeDesc) (cap : option Z)
    (base remaining s r : Z) :
  streak_for rd cap base remaining = Ok (s, r) ->
  1 <= s /\ s + r = 1 + remaining /\ (0 < remaining -> 0 <= r).
Proof.
  unfold streak_for. destruct (0 <? remaining) eqn:E.
  - apply Z.ltb_lt in E.
    destruct (streak_loop rd cap base 1 (Z.to_nat remaining)) as [[s1 n1] |] eqn:El;
      [| discriminate].
    cbn [bind]. intros H. injection H as <- <-.
    apply streak_loop_bounds in El. lia.
  - apply Z.ltb_ge in E. intros H. injection H as <- <-. lia.
Qed.

Section Steps.
Variable pvt : rla_pvt.
Variable rd : Z -> Outcome TypeDesc.

Lemma explicit_color_keeps remaining rla rla' r' f :
  explicit_color pvt rd remaining rla = Ok (rla', r') ->
  f <> ColorChannelType -> f <> NumOfChannelBits -> f <> NumOfColorChannels ->
  get_int rla' f = get_int rla f.
Proof.
  unfold explicit_color. intros H H1 H2 H3.
  destruct (streak_for rd (Some 3) 0 remaining) as [[s r] |]; [| discriminate].
  cbn [bind] in H. destruct (rd 0); [| discriminate]. cbn [bind] in H.
  injection H as <- <-. by rewrite !get_set_ne.
Qed.

Lemma explicit_matte_keeps remaining rla rla' r' f :
  explicit_matte pvt rd remaining rla = Ok (rla', r') ->
  f <> MatteChannelType -> f <> NumOfMatteBits -> f <> NumOfMatteChannels ->
  get_int rla' f = get_int rla f.
Proof.
  unfold explicit_matte. intros H H1 H2 H3.
  destruct (decide (remaining <> 0)); [| by injection H as <- <-].
  destruct (streak_for rd None _ remaining) as [[s r] |]; [| discriminate].
  cbn [bind] in H. destruct (rd _); [| discriminate]. cbn [bind] in H.
  injection H as <- <-. by rewrite !get_set_ne.
Qed.

Lemma explicit_aux_keeps remaining rla rla' f :
  explicit_aux pvt rd remaining rla = Ok rla' ->
  f <> MatteChannelType -> f <> NumOfAuxBits -> f <> NumOfAuxChannels ->
  get_int rla' f = get_int rla f.
Proof.
  unfold explicit_aux. intros H H1 H2 H3.
  destruct (decide (remaining <> 0)); [| by injection H as <-].
  destruct (streak_for rd None _ remaining) as [[s r] |]; [| discriminate].
  cbn [bind] in H. destruct (rd _); [| discriminate]. cbn [bind] in H.
  injection H as <-. by rewrite !get_set_ne.
Qed.

(** A matte step entered with channels remaining counts at least one matte
    channel. *)
Lemma explicit_matte_count remaining rla rla' r' :
  explicit_matte pvt rd remaining rla = Ok (rla', r') ->
  0 < remaining <= 32766 ->
  1 <= get_int rla' NumOfMatteChannels.
Proof.
  unfold explicit_matte. intros H Hr.
  rewrite decide_True in H by lia.
  destruct (streak_for rd None _ remaining) as [[s r] |] eqn:Es; [| discriminate].
  cbn [bind] in H. destruct (rd _); [| discriminate]. cbn [bind] in H.
  injection H as <- <-. apply streak_for_bounds in Es.
  rewrite get_set_eq. change (8 * Z.of_nat (int_width NumOfMatteChannels)) with 16.
  rewrite wrap16_small; lia.
Qed.

(** The color step on channels of one type: either the color count is not
    [min C 3], or a channel is still counted as remaining. *)
Lemma explicit_color_uniform (C : Z) (t : TypeDesc) rla rla' r' :
  1 <= C ->
  (forall i, 0 <= i < C -> rd i = Ok t) ->
  explicit_color pvt rd C rla = Ok (rla', r') ->
  get_int rla' NumOfColorChannels = Z.min C 3 -> 1 <= r' <= C.
Proof.
  intros HC Hrd. unfold explicit_color, streak_for.
  destruct (0 <? C) eqn:E0; [| apply Z.ltb_ge in E0; lia].
  assert (C = 1 \/ C = 2 \/ 3 <= C) as [-> | [-> | H3]] by lia.
  - change (Z.to_nat 1) with 1%nat. cbn [streak_loop].
    change (1 <? 3) with true. cbv iota. change (0 + 1) with 1.
    rewrite (Hrd 0) by lia.
    destruct (rd 1) as [a |]; [| discriminate]. cbn [bind].
    destruct (differs a t); cbn [bind]; intros H; injection H as <- <-;
      rewrite get_set_eq; [lia | discriminate].
  - change (Z.to_nat 2) with 2%nat. cbn [streak_loop].
    change (1 <? 3) with true. cbv iota. change (0 + 1) with 1.
    rewrite (Hrd 0), (Hrd 1) by lia. cbn [bind]. rewrite differs_same.
    change (1 + 1 <? 3) with true. cbv iota. change (0 + (1 + 1)) with 2.
    destruct (rd 2) as [a |]; [| discriminate]. cbn [bind].
    destruct (differs a t); cbn [bind]; intros H; injection H as <- <-;
      rewrite get_set_eq; [lia | discriminate].
  - assert (exists m, Z.to_nat C = S (S (S m))) as [m Hm]
      by (exists (Z.to_nat C - 3)%nat; lia).
    rewrite Hm, (color_loop_uniform rd t (S m)) by (apply Hrd; lia).
    cbn [bind]. rewrite (Hrd 0) by lia. cbn [bind].
    intros H. injection H as <- <-. lia.
Qed.
End Steps.

Lemma uniform_reader_not_color_only (pvt : rla_pvt) (C : Z) (t : TypeDesc)
    (rd : Z -> Outcome TypeDesc) :
  1 <= C <= 8 ->
  (forall i, 0 <= i < C -> rd i = Ok t) ->
  ~ exists rla,
      classify_explicit pvt rd C (zeroed pvt) = Ok rla /\
      group_sizes rla = (Z.min C 3, 0, 0).
Proof.
  intros HC Hrd (rla & H & Hs). unfold classify_explicit in H.
  destruct (explicit_color pvt rd C (zeroed pvt)) as [[rla1 r1] |] eqn:Ec;
    [| discriminate].
  cbn [bind] in H.
  destruct (explicit_matte pvt rd r1 rla1) as [[rla2 r2] |] eqn:Em;
    [| discriminate].
  cbn [bind] in H.
  unfold group_sizes in Hs. injection Hs as Hc Hm _.
  rewrite (explicit_aux_keeps _ _ _ _ _ _ H) in Hc by discriminate.
  rewrite (explicit_aux_keeps _ _ _ _ _ _ H) in Hm by discriminate.
  rewrite (explicit_matte_keeps _ _ _ _ _ _ _ Em) in Hc by discriminate.
  pose proof (explicit_color_uniform pvt rd C t _ _ _ ltac:(lia) Hrd Ec Hc) as Hr.
  pose proof (explicit_matte_count pvt rd _ _ _ _ Em ltac:(lia)). lia.
Qed.

(** C1.  For [C] channels of one type [t], [C] in 1..8, the classifier does
    not end with a color group of [min C 3] channels and empty matte and
    auxiliary groups: not on the list of [C] types as [open] reads it, and
    not however the reads past the end of the list behave. *)
Theorem uniform_types_not_color_only (pvt : rla_pvt) (C : Z) (t format : TypeDesc) :
  1 <= C <= 8 ->
  (~ exists rla,
       classify pvt C format (replicate (Z.to_nat C) t) (zeroed pvt) = Ok rla /\
       group_sizes rla = (Z.min C 3, 0, 0)) /\
  (forall rd : Z -> Outcome TypeDesc,
     (forall i, 0 <= i < C -> rd i = Ok t) ->
     ~ exists rla,
         classify_explicit pvt rd C (zeroed pvt) = Ok rla /\
         group_sizes rla = (Z.min C 3, 0, 0)).
Proof.
  intros HC. split.
  - unfold classify.
    rewrite decide_True by (destruct (Z.to_nat C) eqn:E; [lia | discriminate]).
    apply (uniform_reader_not_color_only pvt C t); [done |].
    intros i Hi. apply at_index_replicate. lia.
  - intros rd Hrd. by apply (uniform_reader_not_color_only pvt C t).
Qed.

Lemma uniform_types_not_color_only_witness :
  1 <= 3 <= 8 /\
  ~ exists rla,
      classify wavefront_pvt 3 (scalar FLOAT)
        (replicate (Z.to_nat 3) (scalar FLOAT)) (zeroed wavefront_pvt) = Ok rla /\
      group_sizes rla = (Z.min 3 3, 0, 0).
Proof.
  assert (H : 1 <= 3 <= 8) by lia.
  split; [exact H |].
  exact (proj1 (uniform_types_not_color_only wavefront_pvt 3 (scalar FLOAT)
                  (scalar FLOAT) H)).
Defined.

(** C5.  The explicit-type path never assigns [AuxChannelType]: whatever the
    channel types, the member keeps the zero of the cleared header, also
    when the auxiliary group starts with a float channel. *)
Theorem explicit_path_leaves_aux_type (pvt : rla_pvt) (nchannels : Z)
    (format : TypeDesc) (channelformats : list TypeDesc) (rla : WAVEFRONT) :
  channelformats <> [] ->
  classify pvt nchannels format channelformats (zeroed pvt) = Ok rla ->
  get_int rla AuxChannelType = 0.
Proof.
  intros Hne H. unfold classify in H. rewrite decide_True in H by done.
  unfold classify_explicit in H.
  destruct (explicit_color _ _ _ _) as [[rla1 r1] |] eqn:Ec; [| discriminate].
  cbn [bind] in H.
  destruct (explicit_matte _ _ _ _) as [[rla2 r2] |] eqn:Em; [| discriminate].
  cbn [bind] in H.
  rewrite (explicit_aux_keeps _ _ _ _ _ _ H) by discriminate.
  rewrite (explicit_matte_keeps _ _ _ _ _ _ _ Em) by discriminate.
  by rewrite (explicit_color_keeps _ _ _ _ _ _ _ Ec) by discriminate.
Qed.

Lemma explicit_path_leaves_aux_type_witness :
  alternating <> [] /\
  classify wavefront_pvt 4 (scalar FLOAT) alternating (zeroed wavefront_pvt)
  = Ok alternating_header /\
  get_int alternating_header AuxChannelType = 0.
Proof.
  assert (Hne : alternating <> []) by discriminate.
  assert (Hok : classify wavefront_pvt 4 (scalar FLOAT) alternating
                  (zeroed wavefront_pvt) = Ok alternating_header) by reflexivity.
  split; [exact Hne | split; [exact Hok |]].
  exact (explicit_path_leaves_aux_type wavefront_pvt 4 (scalar FLOAT) alternating
           alternating_header Hne Hok).
Defined.

(** On [float, uint8, float, uint8] every group has one channel.  The matte
    group starts with a [uint8] channel and the auxiliary group with a float
    channel; the header ends with the float code in [MatteChannelType] and
    with [AuxChannelType] still zero, the byte code. *)
Example alternating_types :
  group_sizes alternating_header = (1, 1, 1) /\
  get_int alternating_header ColorChannelType = CT_FLOAT wavefront_pvt /\
  get_int alternating_header MatteChannelType = CT_FLOAT wavefront_pvt /\
  get_int alternating_header AuxChannelType = CT_BYTE wavefront_pvt /\
  get_int alternating_header NumOfChannelBits = 32 /\
  get_int alternating_header NumOfMatteBits = 8 /\
  get_int alternating_header NumOfAuxBits = 32.
Proof. repeat split. Qed.

(** *** The explicit path on a list of [nchannels] types *)

Lemma at_index_ok (cf : list TypeDesc) (i : Z) (t : TypeDesc) :
  at_index cf i = Ok t -> 0 <= i < Z.of_nat (length cf).
Proof.
  unfold at_index. destruct (i <? 0) eqn:E; [done |]. apply Z.ltb_ge in E.
  destruct (cf !! Z.to_nat i) eqn:El; [| done].
  intros _. apply lookup_lt_Some in El. lia.
Qed.

(** Where a loop that stayed inside the list has stopped: with nothing
    remaining it has read up to [base + streak - 1]; with channels
    remaining it has read [base + streak], or reached its cap. *)
Lemma streak_loop_reads (cf : list TypeDesc) (cap : option Z) (base : Z) :
  forall (n : nat) (s s' : Z) (n' : nat),
    streak_loop (at_index cf) cap base s n = Ok (s', n') ->
    (n' = 0%nat -> n <> 0%nat -> base + s' - 1 < Z.of_nat (length cf)) /\
    (n' <> 0%nat ->
     base + s' < Z.of_nat (length cf) \/ exists c, cap = Some c /\ c <= s').
Proof.
  induction n as [| n IH]; intros s s' n' H; cbn [streak_loop] in H.
  - injection H as <- <-. done.
  - destruct (match cap with Some c => s <? c | None => true end) eqn:Ecap.
    + destruct (at_index cf (base + s)) as [a |] eqn:Ea; [| done].
      destruct (at_index cf base) as [b |]; [| done]. cbn [bind] in H.
      apply at_index_ok in Ea.
      destruct (differs a b).
      * injection H as <- <-. split; [done | intros _; left; lia].
      * pose proof (streak_loop_bounds _ _ _ _ _ _ _ H) as Hb.
        apply IH in H as [H0 H1]. split; [| exact H1].
        intros Hn' _. destruct n as [| n]; [| apply H0; done].
        assert (s' = s + 1) by lia. lia.
    + injection H as <- <-. split; [done |]. intros _. right.
      destruct cap as [c |]; [| done]. exists c. split; [done |].
      by apply Z.ltb_ge in Ecap.
Qed.

Lemma streak_for_reads (cf : list TypeDesc) (cap : option Z)
    (base remaining s r : Z) :
  0 < remaining ->
  streak_for (at_index cf) cap base remaining = Ok (s, r) ->
  1 <= s /\ s + r = 1 + remaining /\ 0 <= r /\
  (r = 0 -> base + s - 1 < Z.of_nat (length cf)) /\
  (r <> 0 ->
   base + s < Z.of_nat (length cf) \/ exists c, cap = Some c /\ c <= s).
Proof.
  intros Hr H. pose proof (streak_for_bounds _ _ _ _ _ _ H) as (H1 & H2 & H3).
  unfold streak_for in H. rewrite (proj2 (Z.ltb_lt 0 remaining) Hr) in H.
  destruct (streak_loop _ _ _ _ _) as [[s1 n1] |] eqn:El; [| done].
  cbn [bind] in H. injection H as <- <-.
  apply streak_loop_reads in El as [E0 E1].
  repeat split; [done | done | lia | |].
  - intros Hn. apply E0; lia.
  - intros Hn. apply E1. lia.
Qed.

(** When the list has as many types as there are channels and the
    classifier stays inside it, the three groups hold fewer channels than
    the image has: each loop was left by a type change, with at least one
    channel that was never counted. *)
Lemma explicit_path_sum_short (pvt : rla_pvt) (format : TypeDesc)
    (cf : list TypeDesc) (rla : WAVEFRONT) :
  cf <> [] -> Z.of_nat (length cf) <= 32767 ->
  classify pvt (Z.of_nat (length cf)) format cf (zeroed pvt) = Ok rla ->
  sizes_sum rla < Z.of_nat (length cf).
Proof.
  intros Hne Hlen. set (C := Z.of_nat (length cf)) in *.
  assert (HC : 1 <= C) by (destruct cf; [done | cbn in C; lia]).
  unfold classify. rewrite decide_True by done.
  unfold classify_explicit, explicit_color, explicit_matte, explicit_aux.
  destruct (streak_for (at_index cf) (Some 3) 0 C) as [[s1 r1] |] eqn:E1; [| done].
  cbn [bind]. destruct (at_index cf 0) as [t0 |]; [| done]. cbn [bind].
  pose proof (streak_for_reads cf (Some 3) 0 C s1 r1 ltac:(lia) E1)
    as (A1 & A2 & A3 & A4 & A5).
  fold C in A4, A5.
  assert (Hs1 : s1 <= 3).
  { unfold streak_for in E1. rewrite (proj2 (Z.ltb_lt 0 C)) in E1 by lia.
    destruct (streak_loop _ _ _ _ _) as [[s n] |] eqn:El; [| done].
    cbn [bind] in E1. injection E1 as <- <-.
    clear -El. revert El. generalize (Z.to_nat C). intros n0.
    assert (Hgen : forall n s s' n', s <= 3 ->
              streak_loop (at_index cf) (Some 3) 0 s n = Ok (s', n') -> s' <= 3).
    { clear. induction n as [| n IH]; intros s s' n' Hs H; cbn [streak_loop] in H.
      - by injection H as <- <-.
      - destruct (s <? 3) eqn:E; [apply Z.ltb_lt in E | by injection H as <- <-].
        destruct (at_index cf (0 + s)); [| done].
        destruct (at_index cf 0); [| done]. cbn [bind] in H.
        destruct (differs _ _); [by injection H as <- <- |].
        apply IH in H; lia. }
    apply Hgen. lia. }
  assert (Hr1 : 0 < r1) by lia.
  rewrite decide_True by lia. members.
  change (8 * Z.of_nat (int_width NumOfColorChannels)) with 16.
  rewrite (wrap16_small s1) by lia.
  destruct (streak_for (at_index cf) None s1 r1) as [[s2 r2] |] eqn:E2; [| done].
  cbn [bind]. destruct (at_index cf s1) as [t1 |]; [| done]. cbn [bind].
  pose proof (streak_for_reads cf None s1 r1 s2 r2 Hr1 E2)
    as (B1 & B2 & B3 & B4 & B5).
  fold C in B4, B5.
  assert (Hr2 : 0 < r2) by lia.
  assert (Hs2 : s1 + s2 < C).
  { destruct (B5 ltac:(lia)) as [? | (c & Hc & _)]; [lia | done]. }
  rewrite decide_True by lia. members.
  change (8 * Z.of_nat (int_width NumOfColorChannels)) with 16.
  change (8 * Z.of_nat (int_width NumOfMatteChannels)) with 16.
  rewrite (wrap16_small s1), (wrap16_small s2) by lia.
  destruct (streak_for (at_index cf) None (s1 + s2) r2) as [[s3 r3] |] eqn:E3;
    [| done].
  cbn [bind]. destruct (at_index cf (s1 + s2)) as [t2 |]; [| done]. cbn [bind].
  pose proof (streak_for_reads cf None (s1 + s2) r2 s3 r3 Hr2 E3)
    as (D1 & D2 & D3 & D4 & D5).
  fold C in D4, D5.
  assert (Hr3 : 0 < r3) by lia.
  assert (Hs3 : s1 + s2 + s3 < C).
  { destruct (D5 ltac:(lia)) as [? | (c & Hc & _)]; [lia | done]. }
  intros H. injection H as <-. unfold sizes_sum. members.
  change (8 * Z.of_nat (int_width NumOfColorChannels)) with 16.
  change (8 * Z.of_nat (int_width NumOfMatteChannels)) with 16.
  change (8 * Z.of_nat (int_width NumOfAuxChannels)) with 16.
  rewrite (wrap16_small s1), (wrap16_small s2), (wrap16_small s3) by lia. lia.
Qed.

(** ** Byte order *)

Lemma Z_of_byte_range (b : byte) : 0 <= Z_of_byte b < 256.
Proof.
  unfold Z_of_byte. pose proof (Byte.to_N_bounded b). lia.
Qed.

Lemma byte_of_Z_of_byte (b : byte) : byte_of_Z (Z_of_byte b) = b.
Proof.
  unfold byte_of_Z. pose proof (Z_of_byte_range b).
  rewrite Z.mod_small by lia. unfold Z_of_byte.
  by rewrite N2Z.id, Byte.of_to_N.
Qed.

Lemma length_to_le (w : nat) : forall v, length (to_le w v) = w.
Proof. induction w as [| w IH]; intros v; simpl; [done | by rewrite IH]. Qed.

(** The low [w] bytes do not see a multiple of [256 ^ w]. *)
Lemma to_le_add_multiple (w : nat) :
  forall v k, to_le w (v + k * 256 ^ Z.of_nat w) = to_le w v.
Proof.
  induction w as [| w IH]; intros v k; [done |].
  cbn [to_le].
  replace (256 ^ Z.of_nat (S w)) with (256 ^ Z.of_nat w * 256)
    by (rewrite Nat2Z.inj_succ, Z.pow_succ_r; lia).
  f_equal.
  - f_equal. rewrite Z.mul_assoc. apply Z_mod_plus_full.
  - rewrite Z.mul_assoc, Z_div_plus_full by lia. apply IH.
Qed.

Lemma to_le_wrap (w : nat) (v : Z) :
  to_le w (wrap (8 * Z.of_nat w) v) = to_le w v.
Proof.
  destruct w as [| w]; [done |].
  unfold wrap.
  set (W := 8 * Z.of_nat (S w)).
  assert (HW : 2 ^ W = 256 ^ Z.of_nat (S w)).
  { unfold W. rewrite Z.pow_mul_r by lia. reflexivity. }
  assert (Hpos : 0 < 2 ^ W) by (apply Z.pow_pos_nonneg; lia).
  rewrite (Z.mod_eq (v + 2 ^ (W - 1)) (2 ^ W)) by lia.
  set (q := (v + 2 ^ (W - 1)) / 2 ^ W).
  replace (v + 2 ^ (W - 1) - 2 ^ W * q - 2 ^ (W - 1))
    with (v + (- q) * 256 ^ Z.of_nat (S w)) by (rewrite <- HW; lia).
  apply to_le_add_multiple.
Qed.

Lemma to_le_of_le (l : list byte) : to_le (length l) (of_le l) = l.
Proof.
  induction l as [| b l IH]; [done |].
  cbn [length to_le of_le]. pose proof (Z_of_byte_range b).
  f_equal.
  - rewrite Z.mul_comm, Z_mod_plus_full, Z.mod_small by lia.
    apply byte_of_Z_of_byte.
  - rewrite Z.mul_comm, Z_div_plus_full, Z.div_small by lia. exact IH.
Qed.

(** [swap_endian] reverses the bytes of the object, on either host. *)
Lemma object_bytes_swap (le : bool) (w : nat) (v : Z) :
  object_bytes le w (swap_endian le w v) = rev (object_bytes le w v).
Proof.
  unfold swap_endian, object_value, object_bytes.
  destruct le.
  - rewrite to_le_wrap.
    rewrite <- (length_to_le w v) at 1. rewrite <- length_rev.
    apply to_le_of_le.
  - rewrite !rev_involutive, to_le_wrap.
    rewrite <- (length_to_le w v) at 1. rewrite <- length_rev.
    by rewrite to_le_of_le, rev_involutive.
Qed.

Lemma get_swap_member_eq (le : bool) (rla : WAVEFRONT) (g : IntField) :
  get_int (swap_member le rla g) g
  = wrap (8 * Z.of_nat (int_width g)) (swap_endian le (int_width g) (get_int rla g)).
Proof. apply get_set_eq. Qed.

Lemma get_swap_member_ne (le : bool) (rla : WAVEFRONT) (f g : IntField) :
  f <> g -> get_int (swap_member le rla g) f = get_int rla f.
Proof. apply get_set_ne. Qed.

Lemma swap_members_get (le : bool) (l : list IntField) :
  NoDup l ->
  forall (rla : WAVEFRONT) (f : IntField),
    get_int (foldl (swap_member le) rla l) f
    = if decide (f ∈ l)
      then wrap (8 * Z.of_nat (int_width f))
             (swap_endian le (int_width f) (get_int rla f))
      else get_int rla f.
Proof.
  induction 1 as [| g l Hg Hl IH]; intros rla f; cbn [foldl].
  - rewrite decide_False; [done | apply not_elem_of_nil].
  - rewrite IH.
    destruct (decide (f = g)) as [-> | Hne].
    + rewrite decide_False by done.
      rewrite decide_True by apply list_elem_of_here.
      apply get_swap_member_eq.
    + rewrite !get_swap_member_ne by done.
      destruct (decide (f ∈ l)) as [Hin | Hnin].
      * rewrite decide_True; [done | by apply list_elem_of_further].
      * rewrite decide_False; [done |].
        intros [-> | Hin]%elem_of_cons; done.
Qed.

Lemma swap_members_chars (le : bool) (l : list IntField) :
  forall rla, chars (foldl (swap_member le) rla l) = chars rla.
Proof. induction l as [| g l IH]; intros rla; cbn [foldl]; [done | by rewrite IH]. Qed.

Lemma swapped_members_NoDup : NoDup swapped_members.
Proof. apply (bool_decide_unpack _). vm_compute. exact I. Qed.

Lemma swapped_members_all (f : IntField) : f ∈ swapped_members.
Proof. unfold swapped_members. destruct f; repeat constructor. Qed.

(** After the swaps of a little-endian host every integer member holds
    its byte-swapped value. *)
Lemma to_file_order_member (rla : WAVEFRONT) (f : IntField) :
  get_int (to_file_order true rla) f
  = wrap (8 * Z.of_nat (int_width f)) (swap_endian true (int_width f) (get_int rla f)).
Proof.
  unfold to_file_order.
  rewrite (swap_members_get true _ swapped_members_NoDup).
  rewrite decide_True; [done | apply swapped_members_all].
Qed.

Lemma to_file_order_chars (le : bool) (rla : WAVEFRONT) (f : CharField) :
  chars (to_file_order le rla) f = chars rla f.
Proof. destruct le; [| done]. unfold to_file_order. by rewrite swap_members_chars. Qed.

(** Whatever the host, a member reaches the file most significant byte first. *)
Lemma member_big_endian (le : bool) (rla : WAVEFRONT) (m : Member) :
  member_bytes le (to_file_order le rla) m = big_endian_member rla m.
Proof.
  destruct m as [f | f]; cbn [member_bytes big_endian_member].
  - destruct le.
    + rewrite to_file_order_member. unfold object_bytes at 1.
      rewrite to_le_wrap.
      exact (object_bytes_swap true (int_width f) (get_int rla f)).
    + reflexivity.
  - apply to_file_order_chars.
Qed.

Lemma header_big_endian (le : bool) (rla : WAVEFRONT) :
  header_bytes le (to_file_order le rla) = big_endian_header rla.
Proof.
  unfold header_bytes, big_endian_header.
  apply flat_map_ext. intros m. apply member_big_endian.
Qed.

(** The swap and the member writes together: the integer members are
    swapped exactly on a little-endian host, every one of them is among the
    members written, and the bytes of the members are the big-endian image
    of the header on either host. *)
Lemma to_file_order_big_endian (le : bool) (rla : WAVEFRONT) :
  to_file_order false rla = rla /\
  (forall f, get_int (to_file_order true rla) f
             = wrap (8 * Z.of_nat (int_width f))
                 (swap_endian true (int_width f) (get_int rla f))) /\
  (forall f, In (IntMember f) written_members) /\
  header_bytes le (to_file_order le rla) = big_endian_header rla /\
  header_bytes true (to_file_order true rla)
  = header_bytes false (to_file_order false rla) /\
  take 2 (header_bytes le (to_file_order le (set_int WindowLeft 258 rla)))
  = [x01; x02].
Proof.
  split; [reflexivity |].
  split; [apply to_file_order_member |].
  split; [intros f; destruct f; unfold written_members; simpl; tauto |].
  split; [apply header_big_endian |].
  split; [by rewrite !header_big_endian |].
  rewrite header_big_endian. reflexivity.
Qed.

(** ** The character arrays *)

Lemma strncpy_length (dst src d : list byte) (n : nat) :
  strncpy dst src n = Ok d -> length d = length dst.
Proof.
  unfold strncpy. destruct (decide (n <= length dst)%nat) as [Hn |]; [| done].
  intros H. injection H as <-.
  rewrite length_app, length_take, length_drop, length_app, length_replicate. lia.
Qed.

(** [strncpy] with the size of the array stays inside it: the string is cut
    at that size and the rest of the array is zero. *)
Lemma strncpy_sizeof (dst src : list byte) :
  strncpy dst src (length dst)
  = Ok (take (length dst) src ++ replicate (length dst - length src) x00).
Proof.
  unfold strncpy. rewrite decide_True by lia.
  rewrite drop_all, app_nil_r, take_app, take_replicate. do 3 f_equal. lia.
Qed.

Lemma strcpy_length (dst src d : list byte) :
  strcpy dst src = Ok d -> length d = length dst.
Proof.
  unfold strcpy. destruct (decide (S (length src) <= length dst)%nat); [| done].
  intros H. injection H as <-.
  rewrite length_app. cbn [length]. rewrite length_drop. lia.
Qed.

(** [strcpy] writes the whole string and its NUL: a string as long as the
    array does not fit. *)
Lemma strcpy_overflows (dst src : list byte) :
  (length dst <= length src)%nat ->
  strcpy dst src = Undefined (BufferOverflow (S (length src))).
Proof. intros H. unfold strcpy. by rewrite decide_False by lia. Qed.

Lemma snprintf_length (dst text d : list byte) (n : nat) :
  snprintf dst n text = Ok d -> length d = length dst.
Proof.
  unfold snprintf. destruct n as [| m]; [by intros H; injection H as <- |].
  destruct (decide _) as [Hn |]; [| done].
  intros H. injection H as <-.
  rewrite length_app, length_drop. lia.
Qed.

Lemma memcpy_length (dst src d : list byte) :
  memcpy dst src = Ok d -> length d = length dst.
Proof.
  unfold memcpy. destruct (decide _); [| done].
  intros H. injection H as <-. rewrite length_app, length_drop. lia.
Qed.

Lemma strftime_length (dst text d : list byte) (n : nat) :
  strftime dst n text = Ok d -> length d = length dst.
Proof.
  unfold strftime. destruct (decide _); [apply strcpy_length | done].
Qed.

Lemma zeroed_well_sized (pvt : rla_pvt) : well_sized pvt (zeroed pvt).
Proof. intros f. apply length_replicate. Qed.

Lemma set_int_well_sized pvt f v rla :
  well_sized pvt rla -> well_sized pvt (set_int f v rla).
Proof. intros H g. apply H. Qed.

Lemma on_chars_well_sized pvt f op rla rla' :
  (forall d, op (chars rla f) = Ok d -> length d = length (chars rla f)) ->
  well_sized pvt rla -> on_chars f op rla = Ok rla' -> well_sized pvt rla'.
Proof.
  intros Hop Hs. unfold on_chars.
  destruct (op (chars rla f)) as [d |] eqn:E; [| done]. cbn [bind].
  intros H. injection H as <-. intros g. unfold set_chars. cbn [chars].
  destruct (decide (g = f)) as [-> |]; [| apply Hs].
  by rewrite (Hop d eq_refl).
Qed.

Section HeaderSteps.
Variable P : Platform.
Variable pvt : rla_pvt.

Lemma classify_chars nchannels format cf rla rla' :
  classify pvt nchannels format cf rla = Ok rla' -> chars rla' = chars rla.
Proof.
  unfold classify. destruct (decide (cf <> [])).
  - unfold classify_explicit, explicit_color, explicit_matte, explicit_aux.
    destruct (streak_for _ _ _ _) as [[s1 r1] |]; [| done]. cbn [bind].
    destruct (at_index cf 0); [| done]. cbn [bind].
    destruct (decide (r1 <> 0)).
    + destruct (streak_for _ _ _ _) as [[s2 r2] |]; [| done]. cbn [bind].
      destruct (at_index cf _); [| done]. cbn [bind].
      destruct (decide (r2 <> 0)); [| by intros H; injection H as <-].
      destruct (streak_for _ _ _ _) as [[s3 r3] |]; [| done]. cbn [bind].
      destruct (at_index cf _); [| done]. cbn [bind].
      by intros H; injection H as <-.
    + cbn [bind]. destruct (decide (r1 <> 0)); [done |].
      by intros H; injection H as <-.
  - intros H. injection H as <-.
    unfold classify_global, global_types, global_color, global_matte, global_aux.
    destruct (3 <=? nchannels); destruct (0 <? _); destruct (0 <? _); reflexivity.
Qed.

Lemma classify_well_sized nchannels format cf rla rla' :
  well_sized pvt rla -> classify pvt nchannels format cf rla = Ok rla' ->
  well_sized pvt rla'.
Proof. intros Hs H f. rewrite (classify_chars _ _ _ _ _ H). apply Hs. Qed.

Lemma copy_attribute_well_sized (spec : ImageSpec P) name f rla rla' :
  well_sized pvt rla -> copy_attribute pvt spec name f rla = Ok rla' ->
  well_sized pvt rla'.
Proof.
  intros Hs. unfold copy_attribute.
  destruct (decide _); [| by intros H; injection H as <-].
  apply on_chars_well_sized; [| done]. intros d. apply strncpy_length.
Qed.

Lemma set_gamma_well_sized (spec : ImageSpec P) rla rla' :
  well_sized pvt rla -> set_gamma pvt spec rla = Ok rla' -> well_sized pvt rla'.
Proof.
  intros Hs. unfold set_gamma.
  destruct (iequals _ "Linear").
  - apply on_chars_well_sized; [| done]. intros d. apply strcpy_length.
  - destruct (iequals _ "GammaCorrected"); [| by intros H; injection H as <-].
    apply on_chars_well_sized; [| done]. intros d. apply snprintf_length.
Qed.

Lemma set_chromaticity_length (p : option (ImageIOParameter P)) dst n dflt d :
  set_chromaticity p dst n dflt = Ok d -> length d = length dst.
Proof.
  unfold set_chromaticity. destruct p as [p |]; [| apply strcpy_length].
  destruct (bool_decide _); [| apply strcpy_length].
  destruct (aggregate (ptype p)); try (by intros H; injection H as <-).
  - destruct (float_at p 0); [| done]. destruct (float_at p 1); [| done].
    cbn [bind]. apply snprintf_length.
  - destruct (float_at p 0); [| done]. destruct (float_at p 1); [| done].
    destruct (float_at p 2); [| done]. cbn [bind]. apply snprintf_length.
Qed.

Lemma chromaticity_well_sized (spec : ImageSpec P) name f dflt rla rla' :
  well_sized pvt rla -> chromaticity pvt spec name f dflt rla = Ok rla' ->
  well_sized pvt rla'.
Proof.
  intros Hs. apply on_chars_well_sized; [| done].
  intros d. apply set_chromaticity_length.
Qed.

Lemma set_date_well_sized now rla rla' :
  well_sized pvt rla -> set_date pvt now rla = Ok rla' -> well_sized pvt rla'.
Proof.
  intros Hs. unfold set_date.
  destruct (on_chars DateCreated _ rla) as [rla1 |] eqn:E; [| done]. cbn [bind].
  assert (Hs1 : well_sized pvt rla1).
  { eapply on_chars_well_sized; [| exact Hs | exact E].
    intros d. apply strftime_length. }
  destruct (month_name _); [| by intros H; injection H as <-].
  apply on_chars_well_sized; [| done]. intros d. apply memcpy_length.
Qed.
End HeaderSteps.

Ltac next_step r e :=
  match goal with
  | |- context [bind ?m _] => destruct m as [r |] eqn:e; cbn [bind]
  end.

Ltac keeps_size E H :=
  first
    [ eapply classify_well_sized in E; [| exact H]
    | eapply copy_attribute_well_sized in E; [| exact H]
    | eapply set_gamma_well_sized in E; [| exact H]
    | eapply chromaticity_well_sized in E; [| exact H]
    | eapply set_date_well_sized in E; [| exact H]
    | eapply on_chars_well_sized in E;
      [| intros ?;
         first [apply strncpy_length | apply strcpy_length | apply snprintf_length]
       | exact H] ].

Ltac header_step r e h := next_step r e; [keeps_size e h |].

(** A header that [open] builds has every character array at its declared
    size. *)
Lemma build_header_well_sized (P : Platform) (pvt : rla_pvt) (name : string)
    (spec : ImageSpec P) (now : tm) (rla : WAVEFRONT) :
  build_header pvt name spec now = Ok rla -> well_sized pvt rla.
Proof.
  unfold build_header. pose proof (zeroed_well_sized pvt) as H0.
  header_step rla1 E1 H0; [| done].
  header_step rla2 E2 E1; [| done].
  header_step rla3 E3 E2; [| done].
  header_step rla4 E4 E3; [| done].
  header_step rla5 E5 E4; [| done].
  header_step rla6 E6 E5; [| done].
  header_step rla7 E7 E6; [| done].
  header_step rla8 E8 E7; [| done].
  header_step rla9 E9 E8; [| done].
  header_step rla10 E10 E9; [| done].
  header_step rla11 E11 E10; [| done].
  header_step rla12 E12 E11; [| done].
  header_step rla13 E13 E12; [| done].
  header_step rla14 E14 E13; [| done].
  header_step rla15 E15 E14; [| done].
  header_step rla16 E16 E15; [| done].
  header_step rla17 E17 E16; [| done].
  intros E18. keeps_size E18 E17. exact E18.
Qed.

(** C7.  When the text of the [rla:ColorChannel] attribute is as long as
    the [ColorChannel] array or longer, building the header is undefined:
    [strcpy] writes the text and its NUL past the end of the array. *)
Theorem long_color_channel_overflows (P : Platform) (pvt : rla_pvt)
    (name : string) (spec : ImageSpec P) (now : tm) :
  (char_size pvt ColorChannel
   <= length (c_str (get_string_attribute spec "rla:ColorChannel" "rgb")))%nat ->
  exists u, build_header pvt name spec now = Undefined u.
Proof.
  intros Hlong.
  unfold build_header. pose proof (zeroed_well_sized pvt) as H0.
  header_step rla1 E1 H0; [| by eexists].
  header_step rla2 E2 E1; [| by eexists].
  header_step rla3 E3 E2; [| by eexists].
  header_step rla4 E4 E3; [| by eexists].
  header_step rla5 E5 E4; [| by eexists].
  header_step rla6 E6 E5; [| by eexists].
  header_step rla7 E7 E6; [| by eexists].
  header_step rla8 E8 E7; [| by eexists].
  header_step rla9 E9 E8; [| by eexists].
  header_step rla10 E10 E9; [| by eexists].
  header_step rla11 E11 E10; [| by eexists].
  header_step rla12 E12 E11; [| by eexists].
  header_step rla13 E13 E12; [| by eexists].
  header_step rla14 E14 E13; [| by eexists].
  unfold on_chars at 1.
  rewrite strcpy_overflows by (rewrite (E14 ColorChannel); exact Hlong).
  cbn [bind]. by eexists.
Qed.

Lemma long_color_channel_overflows_witness :
  (char_size wavefront_pvt ColorChannel
   <= length (c_str (get_string_attribute (labelled_image exact_platform)
                       "rla:ColorChannel" "rgb")))%nat /\
  exists u,
    build_header wavefront_pvt "a.rla" (labelled_image exact_platform)
      (localtime (test_host true)) = Undefined u.
Proof.
  assert (H : (char_size wavefront_pvt ColorChannel
               <= length (c_str (get_string_attribute (labelled_image exact_platform)
                                   "rla:ColorChannel" "rgb")))%nat)
    by (vm_compute; lia).
  split; [exact H |].
  exact (long_color_channel_overflows exact_platform wavefront_pvt "a.rla"
           (labelled_image exact_platform) (localtime (test_host true)) H).
Defined.

(** The label of 32 characters makes [strcpy] write 33 bytes into the 32
    bytes of [ColorChannel]; the same text as [rla:Filter], copied with
    [strncpy], stays inside its array. *)
Example long_label_overflow :
  build_header wavefront_pvt "a.rla" (labelled_image exact_platform)
    (localtime (test_host true)) = Undefined (BufferOverflow 33)
  /\ strncpy (replicate 32 x00) (c_str long_label) 32 = Ok (c_str long_label).
Proof. split; vm_compute; reflexivity. Qed.

(** ** Chromaticities *)

(** C8.  An attribute of float base type whose aggregate is neither [VEC2]
    nor [VEC3] leaves the chromaticity array as it was, all zero in [open],
    instead of the default. *)
Theorem float_chromaticity_unset (P : Platform) (p : ImageIOParameter P)
    (dst : list byte) (field_size : nat) (default_val : string) :
  basetype (ptype p) = FLOAT ->
  aggregate (ptype p) <> VEC2 -> aggregate (ptype p) <> VEC3 ->
  set_chromaticity (Some p) dst field_size default_val = Ok dst.
Proof.
  intros Hb H2 H3. unfold set_chromaticity.
  rewrite bool_decide_true by done.
  destruct (aggregate (ptype p)); done.
Qed.

Lemma float_chromaticity_unset_witness :
  basetype (ptype (scalar_red exact_platform (64, 100))) = FLOAT /\
  aggregate (ptype (scalar_red exact_platform (64, 100))) <> VEC2 /\
  aggregate (ptype (scalar_red exact_platform (64, 100))) <> VEC3 /\
  set_chromaticity (Some (scalar_red exact_platform (64, 100)))
    (replicate 24 x00) 24 "0.67 0.08" = Ok (replicate 24 x00).
Proof.
  assert (Hb : basetype (ptype (scalar_red exact_platform (64, 100))) = FLOAT)
    by reflexivity.
  assert (H2 : aggregate (ptype (scalar_red exact_platform (64, 100))) <> VEC2)
    by discriminate.
  assert (H3 : aggregate (ptype (scalar_red exact_platform (64, 100))) <> VEC3)
    by discriminate.
  split; [exact Hb | split; [exact H2 | split; [exact H3 |]]].
  exact (float_chromaticity_unset exact_platform _ (replicate 24 x00) 24
           "0.67 0.08" Hb H2 H3).
Defined.

(** The cases that the source handles: no attribute, or one that is not of
    float base type, gives the default; two or three floats are printed with
    four decimals, cut to the size of the array. *)
Lemma chromaticity_default (P : Platform) (dst : list byte) (n : nat)
    (default_val : string) :
  set_chromaticity (P := P) None dst n default_val = strcpy dst (bytes default_val).
Proof. reflexivity. Qed.

Lemma chromaticity_not_float (P : Platform) (p : ImageIOParameter P)
    (dst : list byte) (n : nat) (default_val : string) :
  basetype (ptype p) <> FLOAT ->
  set_chromaticity (Some p) dst n default_val = strcpy dst (bytes default_val).
Proof. intros H. unfold set_chromaticity. by rewrite bool_decide_false. Qed.

Lemma chromaticity_vec2 (P : Platform) (name : string) (len : Z) (a b : Float P)
    (rest : list (Float P)) (dst : list byte) (n : nat) (default_val : string) :
  set_chromaticity (Some (mkParam name (mkTypeDesc FLOAT VEC2 len)
                            (FloatData (a :: b :: rest)))) dst n default_val
  = snprintf dst n (printf_f P 4 a ++ space ++ printf_f P 4 b).
Proof. reflexivity. Qed.

Lemma chromaticity_vec3 (P : Platform) (name : string) (len : Z) (a b c : Float P)
    (rest : list (Float P)) (dst : list byte) (n : nat) (default_val : string) :
  set_chromaticity (Some (mkParam name (mkTypeDesc FLOAT VEC3 len)
                            (FloatData (a :: b :: c :: rest)))) dst n default_val
  = snprintf dst n
      (printf_f P 4 a ++ space ++ printf_f P 4 b ++ space ++ printf_f P 4 c).
Proof. reflexivity. Qed.

(** ** The output file *)

Section File.
Variable P : Platform.

Lemma fwrite_appends (name : string) (old data : list byte) (st : RLAOutput P) :
  m_file st = Some name -> fs st !! name = Some old ->
  m_file (fwrite data st) = Some name /\
  m_spec (fwrite data st) = m_spec st /\
  fs (fwrite data st) !! name = Some (old ++ data).
Proof.
  intros Hf Hc. unfold fwrite. rewrite Hf. cbn.
  repeat split; [done |]. by rewrite lookup_alter_eq, Hc.
Qed.

Lemma write_list_appends (le : bool) (rla : WAVEFRONT) (name : string)
    (l : list Member) :
  forall (old : list byte) (st : RLAOutput P),
    m_file st = Some name -> fs st !! name = Some old ->
    let st' := foldl (fun st m => fwrite (member_bytes le rla m) st) st l in
    m_file st' = Some name /\ m_spec st' = m_spec st /\
    fs st' !! name = Some (old ++ flat_map (member_bytes le rla) l).
Proof.
  induction l as [| m l IH]; intros old st Hf Hc; cbn [foldl flat_map].
  - by rewrite app_nil_r.
  - destruct (fwrite_appends name old (member_bytes le rla m) st Hf Hc)
      as (Hf1 & Hs1 & Hc1).
    destruct (IH _ _ Hf1 Hc1) as (Hf2 & Hs2 & Hc2).
    cbn zeta in Hf2, Hs2, Hc2 |- *.
    rewrite Hf2, Hs2, Hc2, Hs1, <- app_assoc. done.
Qed.

Lemma write_members_appends (le : bool) (rla : WAVEFRONT) (name : string)
    (old : list byte) (st : RLAOutput P) :
  m_file st = Some name -> fs st !! name = Some old ->
  m_file (write_members le rla st) = Some name /\
  m_spec (write_members le rla st) = m_spec st /\
  fs (write_members le rla st) !! name = Some (old ++ header_bytes le rla).
Proof. apply write_list_appends. Qed.

Lemma write_offsets_appends (le : bool) (rows : Z) (name : string) :
  forall (old : list byte) (st : RLAOutput P),
    m_file st = Some name -> fs st !! name = Some old ->
    m_file (write_offsets le rows st) = Some name /\
    m_spec (write_offsets le rows st) = m_spec st /\
    fs (write_offsets le rows st) !! name
    = Some (old ++ replicate (4 * Z.to_nat rows) x00).
Proof.
  unfold write_offsets. induction (Z.to_nat rows) as [| n IH]; intros old st Hf Hc.
  - cbn. by rewrite app_nil_r.
  - rewrite Nat.iter_succ. destruct (IH old st Hf Hc) as (Hf1 & Hs1 & Hc1).
    destruct (fwrite_appends name _ (object_bytes le 4 0) _ Hf1 Hc1)
      as (Hf2 & Hs2 & Hc2).
    rewrite Hf2, Hs2, Hc2, Hs1. repeat split.
    rewrite <- app_assoc. do 2 f_equal.
    replace (4 * S n)%nat with (4 * n + 4)%nat by lia.
    rewrite replicate_add. f_equal. by destruct le.
Qed.
End File.

(** ** [open] *)

Section OpenProperties.
Variable P : Platform.
Variable pvt : rla_pvt.
Variable host : Host.

(** The step that writes the image never reports failure. *)
Lemma write_image_returns_true (name : string) (st st' : RLAOutput P) (b : bool) :
  write_image pvt host name st = Ok (b, st') -> b = true.
Proof.
  unfold write_image. destruct (build_header _ _ _ _); [| done]. cbn [bind].
  set (final := write_offsets _ _ _). intros H. by injection H as <- _.
Qed.

(** What a successful header step leaves in the file [key] that is open. *)
Lemma write_image_file (name key : string) (st st' : RLAOutput P) (b : bool) :
  m_file st = Some key -> fs st !! key = Some [] ->
  write_image pvt host name st = Ok (b, st') ->
  exists rla,
    build_header pvt name (m_spec st) (localtime host) = Ok rla /\
    m_spec st' = m_spec st /\
    m_file st' = Some key /\
    fs st' !! key
    = Some (big_endian_header rla
            ++ replicate (4 * Z.to_nat (height (m_spec st))) x00).
Proof.
  intros Hf Hc. unfold write_image.
  destruct (build_header _ _ _ _) as [rla |]; [| done]. cbn [bind].
  set (final := write_offsets _ _ _). intros H. injection H as _ <-.
  subst final. exists rla. split; [done |].
  destruct (write_members_appends P (littleendian host)
              (to_file_order (littleendian host) rla) key [] st Hf Hc)
    as (Hf1 & Hs1 & Hc1).
  rewrite Hs1.
  destruct (write_offsets_appends P (littleendian host) (height (m_spec st))
              key _ _ Hf1 Hc1) as (Hf2 & Hs2 & Hc2).
  rewrite Hf2, Hs2, Hc2, Hs1. repeat split.
  by rewrite header_big_endian.
Qed.

(** The header step returns as soon as the header is built. *)
Lemma write_image_defined (name : string) (st : RLAOutput P) :
  match build_header pvt name (m_spec st) (localtime host) with
  | Ok _ => exists st', write_image pvt host name st = Ok (true, st')
  | Undefined u => write_image pvt host name st = Undefined u
  end.
Proof.
  unfold write_image. destruct (build_header _ _ _ _); cbn [bind]; [| done].
  by eexists.
Qed.

(** Past its checks, [open] is the header step on the file just created. *)
Lemma open_past_checks (name : string) (spec : ImageSpec P) (st : RLAOutput P) :
  can_create host (c_name name) = true ->
  1 <= width spec -> 1 <= height spec -> depth spec <= 1 ->
  open pvt host name spec Create st
  = write_image pvt host name
      (with_spec (opened_spec spec)
         (fopen_wb (c_name name) (with_spec spec (with_file None st)))).
Proof.
  intros Hc Hw Hh Hd. unfold open, opened_spec. cbn [close snd].
  rewrite decide_False by (by intros []). rewrite Hc. cbn [negb].
  change (m_spec (fopen_wb _ _)) with spec.
  rewrite (proj2 (Z.ltb_ge (width spec) 1)) by done.
  rewrite (proj2 (Z.ltb_ge (height spec) 1)) by done. cbn [orb].
  destruct (depth spec <? 1); [done |].
  by rewrite (proj2 (Z.ltb_ge 1 (depth spec))) by done.
Qed.

(** What [open] has checked when it returns [true]. *)
Lemma open_true_checks (name : string) (spec : ImageSpec P) (mode : OpenMode)
    (st0 st : RLAOutput P) :
  open pvt host name spec mode st0 = Ok (true, st) ->
  mode = Create /\ can_create host (c_name name) = true /\
  1 <= width spec /\ 1 <= height spec /\ depth spec <= 1.
Proof.
  unfold open. cbn [close snd].
  destruct (decide (mode <> Create)) as [| Hm]; [done |].
  destruct (can_create host (c_name name)); [| done]. cbn [negb].
  change (m_spec (fopen_wb _ _)) with spec.
  destruct (width spec <? 1) eqn:Hw; [done |].
  destruct (height spec <? 1) eqn:Hh; [done |]. cbn [orb].
  apply Z.ltb_ge in Hw, Hh.
  destruct (depth spec <? 1) eqn:Hd1.
  - apply Z.ltb_lt in Hd1. intros _. repeat split; [| lia..].
    by destruct (decide (mode = Create)).
  - destruct (1 <? depth spec) eqn:Hd; [done |]. apply Z.ltb_ge in Hd.
    intros _. repeat split; [| lia..].
    by destruct (decide (mode = Create)).
Qed.

(** A successful [open] leaves the header and the offset table in the file
    that [fopen] created. *)
Lemma open_file (name : string) (spec : ImageSpec P) (mode : OpenMode)
    (st0 st : RLAOutput P) :
  open pvt host name spec mode st0 = Ok (true, st) ->
  exists rla,
    build_header pvt name (m_spec st) (localtime host) = Ok rla /\
    m_spec st = opened_spec spec /\
    m_file st = Some (c_name name) /\
    fs st !! c_name name
    = Some (big_endian_header rla ++ replicate (4 * Z.to_nat (height spec)) x00).
Proof.
  intros H. destruct (open_true_checks _ _ _ _ _ H) as (-> & Hc & Hw & Hh & Hd).
  rewrite (open_past_checks name spec st0 Hc Hw Hh Hd) in H.
  apply (write_image_file name (c_name name)) in H
    as (rla & Hb & Hs & Hf' & Hc'); [| done | cbn; apply lookup_insert_eq].
  exists rla. rewrite Hs. repeat split; [done | done |].
  rewrite Hc'. do 3 f_equal. cbn. unfold opened_spec.
  by destruct (depth spec <? 1).
Qed.
End OpenProperties.

(** ** Scanlines *)

Section Scanlines.
Variable P : Platform.
Variable pvt : rla_pvt.
Variable host : Host.
Variable auto_stride : ImageSpec P -> Z -> TypeDesc -> Z -> Z.
Variable to_native_scanline :
  ImageSpec P -> TypeDesc -> list byte -> Z -> option (list byte).
Variable scanline_bytes : ImageSpec P -> nat.

Local Abbreviation run :=
  (write_scanlines auto_stride to_native_scanline scanline_bytes).
Local Abbreviation holds :=
  (holds_scanline auto_stride to_native_scanline scanline_bytes).

(** A call that returns has returned [true] and changed the scratch space
    only. *)
Lemma write_scanline_effect (y z : Z) (format : TypeDesc) (data : list byte)
    (xstride : Z) (st st' : RLAOutput P) (b : bool) :
  write_scanline auto_stride to_native_scanline scanline_bytes
    y z format data xstride st = Ok (b, st') ->
  b = true /\ fs st' = fs st /\ m_file st' = m_file st /\ m_spec st' = m_spec st.
Proof.
  unfold write_scanline. destruct (to_native_scanline _ _ _ _).
  - by intros [= <- <-].
  - destruct (decide _); [done |]. destruct (decide _); [done |].
    by intros [= <- <-].
Qed.

(** A call that the library converts, or whose data hold a scanline that is
    not empty, returns. *)
Lemma write_one_defined (c : Scanline) (st : RLAOutput P) :
  holds c st ->
  exists st',
    write_one auto_stride to_native_scanline scanline_bytes c st = Ok (true, st').
Proof.
  unfold holds_scanline, write_one, write_scanline.
  destruct (to_native_scanline _ _ _ _); [by eexists |].
  intros [Hpos Hlen]. rewrite decide_False by lia.
  rewrite decide_False; [by eexists |].
  cbn [m_scratch with_scratch]. intros E. apply (f_equal length) in E.
  rewrite length_take in E. cbn [length] in E. lia.
Qed.

Lemma holds_scanline_spec (c : Scanline) (st st' : RLAOutput P) :
  m_spec st' = m_spec st -> holds c st -> holds c st'.
Proof. unfold holds_scanline. by intros ->. Qed.

Lemma write_scanlines_frame (calls : list Scanline) :
  forall (st st' : RLAOutput P) (bs : list bool),
    run calls st = Ok (bs, st') ->
    bs = replicate (length calls) true /\ fs st' = fs st /\
    m_file st' = m_file st /\ m_spec st' = m_spec st.
Proof.
  induction calls as [| c calls IH]; intros st st' bs; cbn [write_scanlines].
  - by intros [= <- <-].
  - unfold write_one at 1.
    destruct (write_scanline _ _ _ _ _ _ _ _ st) as [[b st1] |] eqn:E1; [| done].
    cbn [bind]. apply write_scanline_effect in E1 as (-> & Hfs & Hf & Hs).
    destruct (run calls st1) as [[bs' st2] |] eqn:E2; [| done]. cbn [bind].
    intros [= <- <-]. apply IH in E2 as (-> & -> & -> & ->).
    by rewrite Hfs, Hf, Hs.
Qed.

Lemma write_scanlines_defined (calls : list Scanline) :
  forall st : RLAOutput P,
    Forall (fun c => holds c st) calls ->
    exists st', run calls st = Ok (replicate (length calls) true, st').
Proof.
  induction calls as [| c calls IH]; intros st Hall; cbn [write_scanlines].
  - by eexists.
  - apply Forall_cons in Hall as [Hc Hall].
    destruct (write_one_defined c st Hc) as [st1 E1]. rewrite E1. cbn [bind].
    assert (Hs : m_spec st1 = m_spec st).
    { unfold write_one in E1. by apply write_scanline_effect in E1 as (_ & _ & _ & ?). }
    destruct (IH st1) as [st2 E2].
    { eapply Forall_impl; [exact Hall |]. intros c'. by apply holds_scanline_spec. }
    rewrite E2. cbn [bind length replicate]. by eexists.
Qed.

(** C10.  After a successful [open]: a call of [write_scanline] that
    returns has returned [true] and changed no file; a sequence of calls
    that returns leaves in the file the big-endian header followed by
    [height] zero 32-bit offsets, also after [close]; and a sequence
    returns, with [true] for every call, when each call is converted by the
    library or brings a scanline that is not empty. *)
Theorem scanlines_leave_file (name : string) (spec : ImageSpec P)
    (mode : OpenMode) (st0 st : RLAOutput P) (calls : list Scanline) :
  open pvt host name spec mode st0 = Ok (true, st) ->
  exists rla,
    build_header pvt name (m_spec st) (localtime host) = Ok rla /\
    (forall y z format data xstride s b s',
       write_scanline auto_stride to_native_scanline scanline_bytes
         y z format data xstride s = Ok (b, s') ->
       b = true /\ fs s' = fs s) /\
    (forall bs st',
       run calls st = Ok (bs, st') ->
       bs = replicate (length calls) true /\ fs st' = fs st /\
       fs (snd (close st')) !! c_name name
       = Some (big_endian_header rla
               ++ replicate (4 * Z.to_nat (height spec)) x00)) /\
    (Forall (fun c => holds c st) calls ->
     exists st', run calls st = Ok (replicate (length calls) true, st')).
Proof.
  intros H. apply open_file in H as (rla & Hb & _ & Hf & Hc).
  exists rla. split; [exact Hb |]. split; [| split].
  - intros y z format data xstride s b s' E.
    by apply write_scanline_effect in E as (? & ? & _).
  - intros bs st' E. apply write_scanlines_frame in E as (-> & Hfs & _).
    repeat split; [done |]. cbn [close snd with_file fs]. by rewrite Hfs.
  - apply write_scanlines_defined.
Qed.
End Scanlines.

Lemma opened_small_image_open :
  open wavefront_pvt (test_host true) "a.rla" (small_image exact_platform) Create
    (empty_output exact_platform) = Ok (true, opened_small_image).
Proof. vm_compute. reflexivity. Qed.

Lemma two_rows_hold :
  Forall (fun c => holds_scanline plain_stride no_conversion plain_scanline_bytes
                     c opened_small_image) two_rows.
Proof.
  constructor; [vm_compute; lia |]. constructor; [vm_compute; lia |]. constructor.
Qed.

Lemma scanlines_leave_file_witness :
  open wavefront_pvt (test_host true) "a.rla" (small_image exact_platform) Create
    (empty_output exact_platform) = Ok (true, opened_small_image) /\
  exists rla,
    build_header wavefront_pvt "a.rla" (m_spec opened_small_image)
      (localtime (test_host true)) = Ok rla /\
    (forall y z format data xstride s b s',
       write_scanline plain_stride no_conversion plain_scanline_bytes
         y z format data xstride s = Ok (b, s') ->
       b = true /\ fs s' = fs s) /\
    (forall bs st',
       write_scanlines plain_stride no_conversion plain_scanline_bytes
         two_rows opened_small_image = Ok (bs, st') ->
       bs = replicate (length two_rows) true /\ fs st' = fs opened_small_image /\
       fs (snd (close st')) !! "a.rla"%string
       = Some (big_endian_header rla
               ++ replicate (4 * Z.to_nat (height (small_image exact_platform)))
                    x00)) /\
    (Forall (fun c => holds_scanline plain_stride no_conversion
                        plain_scanline_bytes c opened_small_image) two_rows ->
     exists st',
       write_scanlines plain_stride no_conversion plain_scanline_bytes
         two_rows opened_small_image
       = Ok (replicate (length two_rows) true, st')).
Proof.
  split; [exact opened_small_image_open |].
  exact (scanlines_leave_file exact_platform wavefront_pvt (test_host true)
           plain_stride no_conversion plain_scanline_bytes "a.rla"
           (small_image exact_platform) Create (empty_output exact_platform)
           opened_small_image two_rows opened_small_image_open).
Defined.

(** The two rows of the 4 x 2 image are written and leave the file as
    [open] left it. *)
Example two_rows_written :
  exists st',
    write_scanlines plain_stride no_conversion plain_scanline_bytes
      two_rows opened_small_image = Ok ([true; true], st') /\
    fs st' = fs opened_small_image /\
    m_scratch st' = replicate 48 x01.
Proof. eexists. split; [vm_compute; reflexivity |]. by split. Qed.

(** After a successful [open] of an image without channels the scanline is
    empty and every call subscripts the empty scratch vector; on the 4 x 2
    image a call whose data are shorter than a scanline reads past them.
    Neither call returns [true]. *)
Lemma scanline_call_undefined :
  open wavefront_pvt (test_host true) "a.rla" no_channels_image Create
    (empty_output exact_platform) = Ok (true, opened_no_channels) /\
  (forall y z data xstride,
     write_scanline plain_stride no_conversion plain_scanline_bytes
       y z (scalar FLOAT) data xstride opened_no_channels
     = Undefined EmptyScratch) /\
  write_scanline plain_stride no_conversion plain_scanline_bytes
    0 0 (scalar FLOAT) (replicate 47 x00) 0 opened_small_image
  = Undefined (ShortBuffer 47).
Proof.
  split; [vm_compute; reflexivity |]. split; [| vm_compute; reflexivity].
  intros y z data xstride. unfold write_scanline, no_conversion.
  change (plain_scanline_bytes (m_spec opened_no_channels)) with 0%nat.
  rewrite decide_False by lia. rewrite take_0. reflexivity.
Qed.

(** ** Runs on concrete images *)

(** The file of the 4 x 2 float image starts with the window
    [0, 3, 0, 1], the active window, frame 0, the float code, 3 color
    channels, no matte or auxiliary channels and the revision FF FE, on
    either host; it is 750 bytes of header and 8 bytes of offsets long. *)
Example small_image_file (le : bool) :
  let file :=
    written_file
      (open wavefront_pvt (test_host le) "a.rla" (small_image exact_platform)
         Create (empty_output exact_platform)) "a.rla" in
  take 28 <$> file
  = Some [x00; x00; x00; x03; x00; x00; x00; x01;
          x00; x00; x00; x03; x00; x00; x00; x01;
          x00; x00; x00; x04; x00; x03; x00; x00; x00; x00; xff; xfe] /\
  length <$> file = Some 758%nat.
Proof. destruct le; split; vm_compute; reflexivity. Qed.

(** A display window whose left edge is 0x0102 is written as 01 02 on a
    little-endian and on a big-endian host. *)
Example window_left_bytes (le : bool) :
  take 2 <$> written_file
               (open wavefront_pvt (test_host le) "a.rla" shifted_image Create
                  (empty_output exact_platform)) "a.rla"
  = Some [x01; x02].
Proof. destruct le; vm_compute; reflexivity. Qed.

(** With a single float as [rla:RedChroma] the header keeps 24 zero bytes
    in [RedChroma]; without the attribute it holds the default. *)
Example scalar_red_header :
  built_chars (build_header wavefront_pvt "a.rla" red_image
                 (localtime (test_host true))) RedChroma
  = Some (replicate 24 x00) /\
  built_chars (build_header wavefront_pvt "a.rla" (small_image exact_platform)
                 (localtime (test_host true))) RedChroma
  = Some (bytes "0.67 0.08" ++ replicate 15 x00).
Proof. split; vm_compute; reflexivity. Qed.

(** * Further properties of the classifier *)

Lemma wrap_wrap (w x : Z) : 0 < w -> wrap w (wrap w x) = wrap w x.
Proof.
  intros Hw. apply wrap_small; [done |]. unfold wrap.
  assert (Hp : 0 < 2 ^ (w - 1)) by (apply Z.pow_pos_nonneg; lia).
  assert (H2 : 2 ^ w = 2 * 2 ^ (w - 1)).
  { rewrite <- Z.pow_succ_r by lia. f_equal. lia. }
  pose proof (Z.mod_pos_bound (x + 2 ^ (w - 1)) (2 ^ w) ltac:(lia)). lia.
Qed.

Lemma at_index_app_l (l1 l2 : list TypeDesc) (i : Z) :
  0 <= i < Z.of_nat (length l1) -> at_index (l1 ++ l2) i = at_index l1 i.
Proof.
  intros Hi. unfold at_index. destruct (i <? 0); [done |].
  by rewrite lookup_app_l by lia.
Qed.

Lemma at_index_app_r (l1 l2 : list TypeDesc) (i : Z) (t : TypeDesc) :
  Z.of_nat (length l1) <= i ->
  at_index l2 (i - Z.of_nat (length l1)) = Ok t ->
  at_index (l1 ++ l2) i = Ok t.
Proof.
  intros Hi. unfold at_index.
  destruct (i <? 0) eqn:E; [apply Z.ltb_lt in E; lia |].
  destruct (i - Z.of_nat (length l1) <? 0) eqn:E'; [done |].
  rewrite lookup_app_r by lia.
  replace (Z.to_nat (i - Z.of_nat (length l1)))
    with (Z.to_nat i - length l1)%nat by lia.
  by destruct (l2 !! _).
Qed.

(** A run of [n] channels of type [t] after the channels [pre]. *)
Lemma at_index_run (pre post : list TypeDesc) (n : nat) (t : TypeDesc) (i : Z) :
  Z.of_nat (length pre) <= i < Z.of_nat (length pre) + Z.of_nat n ->
  at_index (pre ++ replicate n t ++ post) i = Ok t.
Proof.
  intros Hi. apply at_index_app_r; [lia |].
  rewrite at_index_app_l by (rewrite length_replicate; lia).
  apply at_index_replicate. lia.
Qed.

Lemma at_index_after (pre post : list TypeDesc) (t : TypeDesc) :
  at_index (pre ++ t :: post) (Z.of_nat (length pre)) = Ok t.
Proof.
  apply at_index_app_r; [lia |]. by rewrite Z.sub_diag.
Qed.

Lemma differs_true (a b : TypeDesc) : a <> b -> differs a b = true.
Proof. intros H. unfold differs. by rewrite bool_decide_true. Qed.

(** A loop that meets a channel of another type at [base + b], before its
    cap and with channels remaining, stops there with [streak = b]. *)
Lemma streak_loop_run (rd : Z -> Outcome TypeDesc) (cap : option Z) (base : Z)
    (t t' : TypeDesc) (b : Z) :
  rd base = Ok t -> rd (base + b) = Ok t' -> t' <> t ->
  match cap with Some c => b < c | None => True end ->
  forall (k n : nat) (s : Z),
    b - s = Z.of_nat k -> (forall i, s <= i < b -> rd (base + i) = Ok t) ->
    (k < n)%nat ->
    streak_loop rd cap base s n = Ok (b, (n - k)%nat).
Proof.
  intros Hb Hend Hne Hcap k.
  induction k as [| k IH]; intros n s Hk Hrun Hn;
    (destruct n as [| n]; [lia |]); cbn [streak_loop].
  - assert (s = b) as -> by lia.
    replace (match cap with Some c => b <? c | None => true end) with true
      by (destruct cap; [symmetry; apply Z.ltb_lt; lia | done]).
    rewrite Hend. cbn [bind]. rewrite Hb. cbn [bind].
    by rewrite differs_true.
  - replace (match cap with Some c => s <? c | None => true end) with true
      by (destruct cap; [symmetry; apply Z.ltb_lt; lia | done]).
    rewrite (Hrun s) by lia. cbn [bind]. rewrite Hb. cbn [bind].
    rewrite differs_same. rewrite (IH n (s + 1)); [done | lia | | lia].
    intros i Hi. apply Hrun. lia.
Qed.

Lemma streak_for_run (rd : Z -> Outcome TypeDesc) (cap : option Z) (base : Z)
    (t t' : TypeDesc) (b remaining : Z) :
  rd base = Ok t -> rd (base + b) = Ok t' -> t' <> t ->
  match cap with Some c => b < c | None => True end ->
  (forall i, 1 <= i < b -> rd (base + i) = Ok t) ->
  1 <= b <= remaining ->
  streak_for rd cap base remaining = Ok (b, remaining - (b - 1)).
Proof.
  intros Hb Hend Hne Hcap Hrun Hr. unfold streak_for.
  rewrite (proj2 (Z.ltb_lt 0 remaining)) by lia.
  rewrite (streak_loop_run rd cap base t t' b Hb Hend Hne Hcap
             (Z.to_nat (b - 1)) (Z.to_nat remaining) 1) by (done || lia).
  cbn [bind]. do 2 f_equal. lia.
Qed.

(** The color loop never counts more than three channels. *)
Lemma color_loop_cap (rd : Z -> Outcome TypeDesc) :
  forall (n : nat) (s s' : Z) (n' : nat),
    s <= 3 -> streak_loop rd (Some 3) 0 s n = Ok (s', n') -> s <= s' <= 3.
Proof.
  induction n as [| n IH]; intros s s' n' Hs H; cbn [streak_loop] in H.
  - injection H as <- <-. lia.
  - destruct (s <? 3) eqn:E; [apply Z.ltb_lt in E | injection H as <- <-; lia].
    destruct (rd (0 + s)); [| done]. destruct (rd 0); [| done].
    cbn [bind] in H. destruct (differs _ _); [injection H as <- <-; lia |].
    apply IH in H; lia.
Qed.

(** X1.  Three runs of types of [a <= 3], [b] and [c] channels, followed by
    at least one more channel of another type, are classified as the groups
    [(a, b, c)]: each loop is stopped by the type change that follows its
    run.  (A first run of three needs no type change after it: the cap stops
    the color loop.) *)
Theorem runs_recovered (pvt : rla_pvt) (format : TypeDesc) (a b c : nat)
    (t0 t1 t2 t3 : TypeDesc) (rest : list TypeDesc) :
  let cf := replicate a t0 ++ replicate b t1 ++ replicate c t2 ++ t3 :: rest in
  (1 <= a <= 3)%nat -> (1 <= b)%nat -> (1 <= c)%nat ->
  a = 3%nat \/ t1 <> t0 -> t2 <> t1 -> t3 <> t2 ->
  Z.of_nat (length cf) <= 32767 ->
  exists rla,
    classify pvt (Z.of_nat (length cf)) format cf (zeroed pvt) = Ok rla /\
    group_sizes rla = (Z.of_nat a, Z.of_nat b, Z.of_nat c).
Proof.
  intros cf Ha Hb Hc H01 H12 H23 Hlen.
  set (C := Z.of_nat (length cf)) in *.
  assert (HC : C = Z.of_nat a + Z.of_nat b + Z.of_nat c + 1 + Z.of_nat (length rest)).
  { unfold C, cf. rewrite !length_app, !length_replicate. cbn [length]. lia. }
  assert (R0 : forall i, 0 <= i < Z.of_nat a -> at_index cf i = Ok t0).
  { intros i Hi. apply (at_index_run [] _ a t0 i). cbn [length]. lia. }
  assert (R1 : forall i, Z.of_nat a <= i < Z.of_nat a + Z.of_nat b ->
                         at_index cf i = Ok t1).
  { intros i Hi. apply (at_index_run (replicate a t0) _ b t1 i).
    rewrite length_replicate. lia. }
  assert (R2 : forall i, Z.of_nat a + Z.of_nat b <= i
                         < Z.of_nat a + Z.of_nat b + Z.of_nat c ->
                         at_index cf i = Ok t2).
  { intros i Hi. unfold cf. rewrite app_assoc.
    apply (at_index_run (replicate a t0 ++ replicate b t1) _ c t2 i).
    rewrite length_app, !length_replicate. lia. }
  assert (R3 : at_index cf (Z.of_nat a + Z.of_nat b + Z.of_nat c) = Ok t3).
  { assert (Hcf : cf = (replicate a t0 ++ replicate b t1 ++ replicate c t2)
                      ++ t3 :: rest)
      by (unfold cf; by rewrite <- !app_assoc).
    rewrite Hcf.
    replace (Z.of_nat a + Z.of_nat b + Z.of_nat c)
      with (Z.of_nat (length (replicate a t0
                              ++ replicate b t1 ++ replicate c t2)))
      by (rewrite !length_app, !length_replicate; lia).
    apply at_index_after. }
  assert (Hcolor : streak_for (at_index cf) (Some 3) 0 C
                   = Ok (Z.of_nat a, C - (Z.of_nat a - 1))).
  { destruct (decide (a = 3%nat)) as [-> | Ha3].
    - unfold streak_for. rewrite (proj2 (Z.ltb_lt 0 C)) by lia.
      assert (exists m, Z.to_nat C = S (S m)) as [m Hm]
        by (exists (Z.to_nat C - 2)%nat; lia).
      rewrite Hm, (color_loop_uniform _ t0 m) by (apply R0; lia).
      cbn [bind]. do 2 f_equal. lia.
    - destruct H01 as [? | H01]; [done |].
      apply (streak_for_run _ _ 0 t0 t1); try done.
      + apply R0. lia.
      + apply R1. lia.
      + cbn. lia.
      + intros i Hi. apply R0. lia.
      + lia. }
  unfold classify.
  rewrite decide_True by (unfold cf; destruct a; [lia | discriminate]).
  unfold classify_explicit, explicit_color, explicit_matte, explicit_aux.
  rewrite Hcolor. cbn [bind]. rewrite (R0 0) by lia. cbn [bind].
  rewrite decide_True by lia. members.
  change (8 * Z.of_nat (int_width NumOfColorChannels)) with 16.
  rewrite (wrap16_small (Z.of_nat a)) by lia.
  rewrite (streak_for_run _ None (Z.of_nat a) t1 t2 (Z.of_nat b));
    [| apply R1; lia | apply R2; lia | done | done
     | intros i Hi; apply R1; lia | lia].
  cbn [bind]. rewrite (R1 (Z.of_nat a)) by lia. cbn [bind].
  rewrite decide_True by lia. members.
  change (8 * Z.of_nat (int_width NumOfColorChannels)) with 16.
  change (8 * Z.of_nat (int_width NumOfMatteChannels)) with 16.
  rewrite (wrap16_small (Z.of_nat a)), (wrap16_small (Z.of_nat b)) by lia.
  rewrite (streak_for_run _ None (Z.of_nat a + Z.of_nat b) t2 t3 (Z.of_nat c));
    [| apply R2; lia | exact R3 | done | done
     | intros i Hi; apply R2; lia | lia].
  cbn [bind]. rewrite (R2 (Z.of_nat a + Z.of_nat b)) by lia. cbn [bind].
  eexists. split; [reflexivity |].
  unfold group_sizes. members.
  change (8 * Z.of_nat (int_width NumOfColorChannels)) with 16.
  change (8 * Z.of_nat (int_width NumOfMatteChannels)) with 16.
  change (8 * Z.of_nat (int_width NumOfAuxChannels)) with 16.
  by rewrite !wrap16_small by lia.
Qed.

Lemma runs_recovered_witness :
  (1 <= 2 <= 3)%nat /\ (1 <= 1)%nat /\ (1 <= 2)%nat /\
  (2%nat = 3%nat \/ scalar UINT8 <> scalar FLOAT) /\
  scalar HALF <> scalar UINT8 /\ scalar FLOAT <> scalar HALF /\
  Z.of_nat (length (replicate 2 (scalar FLOAT) ++ replicate 1 (scalar UINT8)
                    ++ replicate 2 (scalar HALF) ++ [scalar FLOAT])) <= 32767 /\
  exists rla,
    classify wavefront_pvt
      (Z.of_nat (length (replicate 2 (scalar FLOAT) ++ replicate 1 (scalar UINT8)
                         ++ replicate 2 (scalar HALF) ++ [scalar FLOAT])))
      (scalar FLOAT)
      (replicate 2 (scalar FLOAT) ++ replicate 1 (scalar UINT8)
       ++ replicate 2 (scalar HALF) ++ [scalar FLOAT])
      (zeroed wavefront_pvt) = Ok rla /\
    group_sizes rla = (Z.of_nat 2, Z.of_nat 1, Z.of_nat 2).
Proof.
  assert (Ha : (1 <= 2 <= 3)%nat) by lia.
  assert (Hb : (1 <= 1)%nat) by lia.
  assert (Hc : (1 <= 2)%nat) by lia.
  assert (H01 : 2%nat = 3%nat \/ scalar UINT8 <> scalar FLOAT)
    by (right; discriminate).
  assert (H12 : scalar HALF <> scalar UINT8) by discriminate.
  assert (H23 : scalar FLOAT <> scalar HALF) by discriminate.
  assert (Hlen : Z.of_nat (length (replicate 2 (scalar FLOAT)
                   ++ replicate 1 (scalar UINT8)
                   ++ replicate 2 (scalar HALF) ++ [scalar FLOAT])) <= 32767)
    by (cbn; lia).
  split; [exact Ha |]. split; [exact Hb |]. split; [exact Hc |].
  split; [exact H01 |]. split; [exact H12 |]. split; [exact H23 |].
  split; [exact Hlen |].
  exact (runs_recovered wavefront_pvt (scalar FLOAT) 2 1 2 (scalar FLOAT)
           (scalar UINT8) (scalar HALF) (scalar FLOAT) [] Ha Hb Hc H01 H12 H23 Hlen).
Defined.

(** X2.  On the explicit-type path the color group has between one and
    three channels, and its type code and bit depth are those of the first
    channel, whatever follows. *)
Theorem explicit_color_group (pvt : rla_pvt) (nchannels : Z) (format t0 : TypeDesc)
    (others : list TypeDesc) (rla : WAVEFRONT) :
  classify pvt nchannels format (t0 :: others) (zeroed pvt) = Ok rla ->
  1 <= get_int rla NumOfColorChannels <= 3 /\
  get_int rla ColorChannelType = wrap 16 (type_code pvt t0) /\
  get_int rla NumOfChannelBits = wrap 16 (size t0 * 8).
Proof.
  intros H. unfold classify in H. rewrite decide_True in H by done.
  unfold classify_explicit in H.
  destruct (explicit_color _ _ _ _) as [[rla1 r1] |] eqn:Ec; [| done].
  cbn [bind] in H.
  destruct (explicit_matte _ _ _ _) as [[rla2 r2] |] eqn:Em; [| done].
  cbn [bind] in H.
  rewrite !(explicit_aux_keeps _ _ _ _ _ _ H) by discriminate.
  rewrite !(explicit_matte_keeps _ _ _ _ _ _ _ Em) by discriminate.
  unfold explicit_color in Ec.
  destruct (streak_for _ _ _ _) as [[s r] |] eqn:Es; [| done].
  cbn [bind] in Ec. change (at_index (t0 :: others) 0) with (Ok t0) in Ec.
  cbn [bind] in Ec. injection Ec as <- <-. members.
  assert (Hs : 1 <= s <= 3).
  { unfold streak_for in Es. destruct (0 <? nchannels).
    - destruct (streak_loop _ _ _ _ _) as [[s1 n1] |] eqn:El; [| done].
      cbn [bind] in Es. injection Es as <- <-.
      apply color_loop_cap in El; lia.
    - injection Es as <- <-. lia. }
  change (8 * Z.of_nat (int_width _)) with 16.
  rewrite (wrap16_small s) by lia. done.
Qed.

Lemma explicit_color_group_witness :
  classify wavefront_pvt 4 (scalar FLOAT)
    (scalar FLOAT :: [scalar UINT8; scalar FLOAT; scalar UINT8])
    (zeroed wavefront_pvt) = Ok alternating_header /\
  1 <= get_int alternating_header NumOfColorChannels <= 3 /\
  get_int alternating_header ColorChannelType
  = wrap 16 (type_code wavefront_pvt (scalar FLOAT)) /\
  get_int alternating_header NumOfChannelBits = wrap 16 (size (scalar FLOAT) * 8).
Proof.
  assert (Hok : classify wavefront_pvt 4 (scalar FLOAT)
                  (scalar FLOAT :: [scalar UINT8; scalar FLOAT; scalar UINT8])
                  (zeroed wavefront_pvt) = Ok alternating_header) by reflexivity.
  split; [exact Hok |].
  exact (explicit_color_group wavefront_pvt 4 (scalar FLOAT) (scalar FLOAT)
           [scalar UINT8; scalar FLOAT; scalar UINT8] alternating_header Hok).
Defined.

(** X3.  On the global-type path the three groups share one type code and
    one bit depth, those of the global pixel type, whatever the number of
    channels. *)
Theorem global_path_types (pvt : rla_pvt) (format : TypeDesc) (C : Z) :
  let rla := classify_global pvt format C (zeroed pvt) in
  get_int rla ColorChannelType = wrap 16 (type_code pvt format) /\
  get_int rla MatteChannelType = wrap 16 (type_code pvt format) /\
  get_int rla AuxChannelType = wrap 16 (type_code pvt format) /\
  get_int rla NumOfChannelBits = wrap 16 (size format * 8) /\
  get_int rla NumOfMatteBits = wrap 16 (size format * 8) /\
  get_int rla NumOfAuxBits = wrap 16 (size format * 8).
Proof.
  unfold classify_global, global_types, global_color, global_matte, global_aux.
  destruct (3 <=? C); destruct (0 <? _); destruct (0 <? _); members;
    change (8 * Z.of_nat (int_width _)) with 16;
    rewrite ?wrap_wrap by lia; done.
Qed.

(** X4.  On the global-type path a channel count of one or less, also zero
    or a negative one down to [INT_MIN + 2] (below it the decrements of
    [remaining] overflow), gives one color channel and no other: the
    luminosity branch counts its channel without asking whether there is
    one. *)
Theorem global_path_no_channels (pvt : rla_pvt) (format : TypeDesc) (C : Z) :
  INT_MIN + 2 <= C <= 1 ->
  group_sizes (classify_global pvt format C (zeroed pvt)) = (1, 0, 0).
Proof.
  intros [_ HC].
  unfold group_sizes, classify_global, global_types, global_color, global_matte,
    global_aux.
  rewrite (proj2 (Z.leb_gt 3 C)) by lia.
  rewrite (proj2 (Z.ltb_ge 0 (C - 1))) by lia.
  rewrite (proj2 (Z.ltb_ge 0 (C - 1 - 1))) by lia.
  members. reflexivity.
Qed.

Lemma global_path_no_channels_witness :
  INT_MIN + 2 <= -1 <= 1 /\
  group_sizes (classify_global wavefront_pvt (scalar FLOAT) (-1)
                 (zeroed wavefront_pvt)) = (1, 0, 0).
Proof.
  assert (H : INT_MIN + 2 <= -1 <= 1) by (unfold INT_MIN; lia).
  split; [exact H |].
  exact (global_path_no_channels wavefront_pvt (scalar FLOAT) (-1) H).
Defined.

(** * The header field by field *)

Lemma on_chars_step (f : CharField) (op : list byte -> Outcome (list byte)) :
  char_step f op (on_chars f op).
Proof.
  intros r. unfold on_chars. destruct (op (chars r f)) as [d |]; cbn [bind];
    [| done].
  repeat split; [| cbn; by rewrite decide_True].
  intros g Hg. cbn. by rewrite decide_False.
Qed.

Section FieldSteps.
Variable P : Platform.
Variable pvt : rla_pvt.
Variable name : string.
Variable spec : ImageSpec P.
Variable now : tm.

Lemma copy_attribute_step (attr : string) (f : CharField) :
  char_step f (copy_op pvt spec attr f) (copy_attribute pvt spec attr f).
Proof.
  intros r. unfold copy_attribute, copy_op.
  destruct (decide _); [| done].
  apply (on_chars_step f (fun dst => strncpy dst _ _) r).
Qed.

Lemma set_gamma_step : char_step Gamma (gamma_op pvt spec) (set_gamma pvt spec).
Proof.
  intros r. unfold set_gamma, gamma_op.
  destruct (iequals _ "Linear").
  - apply (on_chars_step Gamma (fun dst => strcpy dst _) r).
  - destruct (iequals _ "GammaCorrected"); [| done].
    apply (on_chars_step Gamma (fun dst => snprintf dst _ _) r).
Qed.

Lemma chromaticity_step (attr : string) (f : CharField) (dflt : string) :
  char_step f (chroma_op pvt spec attr f dflt) (chromaticity pvt spec attr f dflt).
Proof. intros r. apply (on_chars_step f _ r). Qed.

Lemma set_date_step : char_step DateCreated (date_op pvt now) (set_date pvt now).
Proof.
  intros r. unfold set_date, date_op.
  pose proof (on_chars_step DateCreated
                (fun dst => strftime dst (char_size pvt DateCreated) (date_text now))
                r) as H1.
  destruct (on_chars DateCreated _ r) as [r1 |]; cbn [bind];
    [| by cbv beta in H1; rewrite H1].
  destruct H1 as (Hi1 & Hc1 & Ho1). cbv beta in Ho1. rewrite Ho1. cbn [bind].
  destruct (month_name _) as [m |];
    [| by repeat split].
  pose proof (on_chars_step DateCreated (fun dst => memcpy dst (bytes m)) r1) as H2.
  destruct (on_chars DateCreated _ r1) as [r2 |]; [| done].
  destruct H2 as (Hi2 & Hc2 & Ho2). repeat split; [| | done].
  - intros g. by rewrite Hi2.
  - intros g Hg. by rewrite Hc2, Hc1.
Qed.
End FieldSteps.

Lemma stage_set_int (pvt : rla_pvt) ops done (X r : WAVEFRONT) g v :
  stage pvt ops done X r -> stage pvt ops done (set_int g v X) (set_int g v r).
Proof.
  intros (Hi & Hd & Hn). repeat split; [| done | done].
  intros h. cbn. by rewrite Hi.
Qed.

Lemma stage_step (pvt : rla_pvt) ops (f : CharField) step done (X r : WAVEFRONT) :
  char_step f (ops f) step -> f ∉ done -> stage pvt ops done X r ->
  match step r with
  | Ok r' => stage pvt ops (f :: done) X r'
  | Undefined u => ops f (zeros pvt f) = Undefined u
  end.
Proof.
  intros Hstep Hf (Hi & Hd & Hn). specialize (Hstep r).
  rewrite (Hn f Hf) in Hstep.
  destruct (step r) as [r' |]; [| done].
  destruct Hstep as (Hi' & Hc' & Ho'). repeat split.
  - intros g. by rewrite Hi'.
  - intros g [-> | Hg]%elem_of_cons; [done |].
    rewrite Hc'; [by apply Hd | by intros ->].
  - intros g Hg. apply not_elem_of_cons in Hg as [Hne Hg].
    rewrite Hc' by done. by apply Hn.
Qed.

Ltac not_in_list := apply (bool_decide_unpack _); vm_compute; exact I.

Ltac field_step f lem Hst :=
  match type of Hst with
  | stage ?pv ?ops _ _ _ =>
      apply (stage_step pv ops f _ _ _ _ lem) in Hst; [| not_in_list]
  end;
  match type of Hst with
  | match ?m with _ => _ end =>
      destruct m as [?r | ?u]; cbn [bind];
      [| right; exists f; exact Hst]
  end.

(** [build_header] treats the members of the header independently: the
    integer members are those the classifier left, with [Revision],
    [JobNumber] and [FieldRendered] set on top, and each character array
    holds the result of its own operation on the cleared array; a fault is
    the fault of the classifier or of the operation of one array. *)
Lemma build_header_stages (P : Platform) (pvt : rla_pvt) (name : string)
    (spec : ImageSpec P) (now : tm) :
  match build_header pvt name spec now with
  | Ok rla =>
      exists r1,
        classify pvt (nchannels spec) (format spec) (channelformats spec)
          (windowed pvt spec) = Ok r1 /\
        (forall g, get_int rla g = get_int (numbered spec r1) g) /\
        (forall f, field_op pvt name spec now f (zeros pvt f) = Ok (chars rla f))
  | Undefined u =>
      classify pvt (nchannels spec) (format spec) (channelformats spec)
        (windowed pvt spec) = Undefined u \/
      exists f, field_op pvt name spec now f (zeros pvt f) = Undefined u
  end.
Proof.
  unfold build_header. fold (windowed pvt spec).
  destruct (classify _ _ _ _ _) as [r1 |] eqn:E1; cbn [bind]; [| by left].
  assert (Hst : stage pvt (field_op pvt name spec now) [] r1 r1).
  { repeat split; [by intros f Hf%elem_of_nil |].
    intros f _. by rewrite (classify_chars _ _ _ _ _ _ E1). }
  apply (stage_set_int _ _ _ _ _ Revision 65534) in Hst.
  field_step Gamma (set_gamma_step P pvt spec) Hst.
  field_step RedChroma
    (chromaticity_step P pvt spec "rla:RedChroma" RedChroma "0.67 0.08") Hst.
  field_step GreenChroma
    (chromaticity_step P pvt spec "rla:GreenChroma" GreenChroma "0.21 0.71") Hst.
  field_step BlueChroma
    (chromaticity_step P pvt spec "rla:BlueChroma" BlueChroma "0.14 0.33") Hst.
  field_step WhitePoint
    (chromaticity_step P pvt spec "rla:WhitePoint" WhitePoint "0.31 0.316") Hst.
  apply (stage_set_int _ _ _ _ _ JobNumber
           (get_int_attribute spec "rla:JobNumber" 0)) in Hst.
  field_step FileName
    (on_chars_step FileName
       (fun dst => strncpy dst (c_str name) (char_size pvt FileName))) Hst.
  field_step Description
    (copy_attribute_step P pvt spec "ImageDescription" Description) Hst.
  field_step ProgramName
    (on_chars_step ProgramName
       (fun dst => strcpy dst (c_str (OIIO_INTRO_STRING P)))) Hst.
  field_step MachineName
    (copy_attribute_step P pvt spec "rla:MachineName" MachineName) Hst.
  field_step UserName
    (copy_attribute_step P pvt spec "rla:UserName" UserName) Hst.
  field_step DateCreated (set_date_step pvt now) Hst.
  field_step Aspect
    (copy_attribute_step P pvt spec "rla:Aspect" Aspect) Hst.
  field_step AspectRatio
    (on_chars_step AspectRatio
       (fun dst => snprintf dst (char_size pvt AspectRatio)
          (printf_f P 10 (int_div_float P (width spec) (height spec))))) Hst.
  field_step ColorChannel
    (on_chars_step ColorChannel
       (fun dst => strcpy dst
          (c_str (get_string_attribute spec "rla:ColorChannel" "rgb")))) Hst.
  apply (stage_set_int _ _ _ _ _ FieldRendered
           (get_int_attribute spec "rla:FieldRendered" 0)) in Hst.
  field_step Time
    (copy_attribute_step P pvt spec "rla:Time" Time) Hst.
  field_step Filter
    (copy_attribute_step P pvt spec "rla:Filter" Filter) Hst.
  field_step AuxData
    (copy_attribute_step P pvt spec "rla:AuxData" AuxData) Hst.
  destruct Hst as (Hi & Hd & Hn).
  exists r1. split; [done |]. split.
  - intros g. unfold get_int. apply Hi.
  - intros f.
    destruct f;
      first [ apply Hd; apply (bool_decide_unpack _); vm_compute; exact I
            | rewrite Hn by not_in_list; reflexivity ].
Qed.

(** ** The string functions on a cleared array *)

Lemma until_nul_no_nul (l : list byte) : x00 ∉ until_nul l.
Proof.
  induction l as [| b l IH]; cbn [until_nul]; [by apply not_elem_of_nil |].
  destruct (decide (b = x00)); [by apply not_elem_of_nil |].
  apply not_elem_of_cons. split; [congruence | done].
Qed.

Lemma take_pad (src : list byte) (n : nat) :
  take n (src ++ replicate n x00) = padded (take n src) n.
Proof.
  unfold padded. destruct (decide (n <= length src)%nat) as [Hl | Hl].
  - rewrite take_app_le by done. rewrite length_take.
    replace (n - n `min` length src)%nat with 0%nat by lia.
    by rewrite app_nil_r.
  - rewrite take_app_ge by lia. rewrite (take_ge src) by lia.
    rewrite take_replicate. do 2 f_equal. lia.
Qed.

Lemma strncpy_zeros (src : list byte) (n : nat) :
  strncpy (replicate n x00) src n = Ok (padded (take n src) n).
Proof.
  unfold strncpy. rewrite length_replicate, decide_True by done.
  rewrite drop_replicate, Nat.sub_diag, app_nil_r. by rewrite take_pad.
Qed.

Lemma strcpy_zeros (src : list byte) (n : nat) :
  strcpy (replicate n x00) src
  = if decide (length src < n)%nat then Ok (padded src n)
    else Undefined (BufferOverflow (S (length src))).
Proof.
  unfold strcpy, padded. rewrite length_replicate.
  destruct (decide (S (length src) <= n)%nat) as [Hl | Hl].
  - rewrite decide_True by lia. rewrite drop_replicate. do 2 f_equal.
    replace (n - length src)%nat with (S (n - S (length src))) by lia. done.
  - by rewrite decide_False by lia.
Qed.

Lemma snprintf_zeros (text : list byte) (n : nat) :
  snprintf (replicate n x00) n text = Ok (padded (take (n - 1) text) n).
Proof.
  unfold snprintf, padded. destruct n as [| m]; [done |].
  rewrite length_replicate, length_app, length_take. cbn [length].
  rewrite decide_True by lia. rewrite drop_replicate.
  replace (S m - 1)%nat with m by lia. rewrite length_take.
  rewrite <- app_assoc. do 2 f_equal. cbn [app].
  replace (S m - m `min` length text)%nat
    with (S (S m - (m `min` length text + 1))) by lia.
  done.
Qed.


(** ** The classifier and the other integer members *)

Lemma classify_keeps (pvt : rla_pvt) nchannels format cf rla rla' g :
  classify pvt nchannels format cf rla = Ok rla' ->
  channel_member g = false -> get_int rla' g = get_int rla g.
Proof.
  unfold classify. intros H Hg. destruct (decide (cf <> [])).
  - unfold classify_explicit in H.
    destruct (explicit_color _ _ _ _) as [[rla1 r1] |] eqn:Ec; [| done].
    cbn [bind] in H.
    destruct (explicit_matte _ _ _ _) as [[rla2 r2] |] eqn:Em; [| done].
    cbn [bind] in H.
    rewrite (explicit_aux_keeps _ _ _ _ _ _ H) by (by intros ->).
    rewrite (explicit_matte_keeps _ _ _ _ _ _ _ Em) by (by intros ->).
    by rewrite (explicit_color_keeps _ _ _ _ _ _ _ Ec) by (by intros ->).
  - injection H as <-.
    unfold classify_global, global_color, global_matte, global_aux, global_types.
    repeat match goal with |- context [if ?b then _ else _] => destruct b end;
      rewrite !get_set_ne by (by intros ->); done.
Qed.

(** * The header that [open] builds *)

Lemma small_header_built :
  build_header wavefront_pvt "a.rla" (small_image exact_platform)
    (localtime (test_host true)) = Ok small_header.
Proof. vm_compute. reflexivity. Qed.

Lemma long_name_header_built :
  build_header wavefront_pvt long_name (small_image exact_platform)
    (localtime (test_host true)) = Ok long_name_header.
Proof. vm_compute. reflexivity. Qed.

Section Header.
Variable P : Platform.
Variable pvt : rla_pvt.
Variable name : string.
Variable spec : ImageSpec P.
Variable now : tm.

Lemma build_header_chars (rla : WAVEFRONT) (f : CharField) :
  build_header pvt name spec now = Ok rla ->
  field_op pvt name spec now f (zeros pvt f) = Ok (chars rla f).
Proof.
  intros H. pose proof (build_header_stages P pvt name spec now) as S.
  rewrite H in S. destruct S as (r1 & _ & _ & Hf). apply Hf.
Qed.

Lemma build_header_other_members (rla : WAVEFRONT) (g : IntField) :
  build_header pvt name spec now = Ok rla -> channel_member g = false ->
  get_int rla g = get_int (numbered spec (windowed pvt spec)) g.
Proof.
  intros H Hg. pose proof (build_header_stages P pvt name spec now) as S.
  rewrite H in S. destruct S as (r1 & Hc & Hi & _). rewrite Hi.
  unfold numbered.
  destruct g; try discriminate Hg; members;
    first [ reflexivity | by apply (classify_keeps _ _ _ _ _ _ _ Hc) ].
Qed.


(** X6.  A header that [build_header] returns holds, in its integer
    members, what the classifier left with [Revision], [JobNumber] and
    [FieldRendered] set on top, and in each character array the result of
    that array's own operation on the cleared array: no step reads or
    disturbs what another step wrote. *)
Theorem header_field_contents (rla : WAVEFRONT) :
  build_header pvt name spec now = Ok rla ->
  (exists r1,
      classify pvt (nchannels spec) (format spec) (channelformats spec)
        (windowed pvt spec) = Ok r1 /\
      forall g, get_int rla g = get_int (numbered spec r1) g) /\
  (forall f, field_op pvt name spec now f (zeros pvt f) = Ok (chars rla f)).
Proof.
  intros H. pose proof (build_header_stages P pvt name spec now) as S.
  rewrite H in S. destruct S as (r1 & Hc & Hi & Hf).
  split; [by exists r1 | done].
Qed.

(** X7.  In a header that [build_header] returns, [Revision] holds 0xFFFE
    as a 16-bit value, [NextOffset] is 0, and the frame number, the job
    number and the field flag are the integer attributes, 0 when absent,
    narrowed to 16 bits: the classifier and the string steps do not touch
    them. *)
Theorem header_numbers (rla : WAVEFRONT) :
  build_header pvt name spec now = Ok rla ->
  get_int rla Revision = -2 /\
  get_int rla NextOffset = 0 /\
  get_int rla FrameNumber = wrap 16 (get_int_attribute spec "rla:FrameNumber" 0) /\
  get_int rla JobNumber = wrap 16 (get_int_attribute spec "rla:JobNumber" 0) /\
  get_int rla FieldRendered
  = wrap 16 (get_int_attribute spec "rla:FieldRendered" 0).
Proof.
  intros H.
  rewrite !(build_header_other_members rla _ H) by done.
  unfold numbered, windowed. members. done.
Qed.

(** X8.  When the display window and the pixel data window fit in 16 bits,
    the header holds them as inclusive ranges from which the sizes of the
    image are recovered: right - left + 1 is the width and
    top - bottom + 1 the height, with the vertical axis negated. *)
Theorem header_window_round_trip (rla : WAVEFRONT) :
  -32768 <= full_x spec -> full_x spec + full_width spec - 1 <= 32767 ->
  -32768 <= - full_y spec <= 32767 ->
  -32768 <= full_height spec - full_y spec - 1 <= 32767 ->
  -32768 <= x spec -> x spec + width spec - 1 <= 32767 ->
  -32768 <= - y spec <= 32767 ->
  -32768 <= height spec - y spec - 1 <= 32767 ->
  1 <= full_width spec -> 1 <= width spec ->
  build_header pvt name spec now = Ok rla ->
  get_int rla WindowLeft = full_x spec /\
  get_int rla WindowRight - get_int rla WindowLeft + 1 = full_width spec /\
  get_int rla WindowBottom = - full_y spec /\
  get_int rla WindowTop - get_int rla WindowBottom + 1 = full_height spec /\
  get_int rla ActiveLeft = x spec /\
  get_int rla ActiveRight - get_int rla ActiveLeft + 1 = width spec /\
  get_int rla ActiveBottom = - y spec /\
  get_int rla ActiveTop - get_int rla ActiveBottom + 1 = height spec.
Proof.
  intros H1 H2 H3 H4 H5 H6 H7 H8 H9 H10 H.
  rewrite !(build_header_other_members rla _ H) by done.
  unfold numbered, windowed. members.
  change (8 * Z.of_nat (int_width _)) with 16.
  rewrite !wrap16_small by lia. lia.
Qed.

(** X9.  A file name that is as long as the [FileName] array or longer is
    cut at the size of the array, and the array holds no NUL: [strncpy]
    does not terminate it. *)
Theorem long_file_name_unterminated (rla : WAVEFRONT) :
  (char_size pvt FileName <= length (c_str name))%nat ->
  build_header pvt name spec now = Ok rla ->
  chars rla FileName = take (char_size pvt FileName) (c_str name) /\
  x00 ∉ chars rla FileName.
Proof.
  intros Hl H. apply (build_header_chars rla FileName) in H.
  cbn [field_op] in H. unfold zeros in H. rewrite strncpy_zeros in H.
  injection H as <-. unfold padded. rewrite length_take.
  replace (_ - _)%nat with 0%nat by lia. rewrite app_nil_r. split; [done |].
  intros Hin. apply (until_nul_no_nul (bytes name)).
  fold (c_str name). by apply (subseteq_take (char_size pvt FileName)).
Qed.

(** X10.  Each array that [open] fills from a string attribute with
    [strncpy] holds the text of the attribute, up to its first NUL, cut at
    the size of the array and followed by zero bytes; without the attribute
    the array is all zero.  The test for an empty string changes nothing on
    the cleared header. *)
Theorem string_attribute_member (rla : WAVEFRONT) (attr : string) (f : CharField) :
  (attr, f) ∈ copied_attributes ->
  build_header pvt name spec now = Ok rla ->
  chars rla f
  = padded (take (char_size pvt f) (c_str (get_string_attribute spec attr "")))
      (char_size pvt f).
Proof.
  intros Hin H. apply (build_header_chars rla f) in H.
  assert (Hop : field_op pvt name spec now f = copy_op pvt spec attr f).
  { unfold copied_attributes in Hin.
    repeat (apply elem_of_cons in Hin as [Hin | Hin];
            [by injection Hin as -> -> |]).
    by apply elem_of_nil in Hin. }
  rewrite Hop in H. unfold copy_op, zeros in H.
  destruct (decide _) as [Hs | Hs].
  - rewrite strncpy_zeros in H. by injection H as <-.
  - injection H as <-.
    destruct (get_string_attribute spec attr "") as [| c s]; [| by destruct Hs].
    cbn. unfold padded. rewrite take_nil. cbn. f_equal. lia.
Qed.

(** X11.  The [Gamma] array of a built header: "1.0" for a linear color
    space, the value of [oiio:Gamma] (1 by default) printed with ten
    decimals and cut to the array for a gamma-corrected one, and all zero
    for any other color space or none, whatever [oiio:Gamma] holds. *)
Theorem gamma_member (rla : WAVEFRONT) :
  build_header pvt name spec now = Ok rla ->
  let s := get_string_attribute spec "oiio:ColorSpace" "Unknown" in
  chars rla Gamma
  = if iequals s "Linear" then padded (bytes "1.0") (char_size pvt Gamma)
    else if iequals s "GammaCorrected" then
      padded (take (char_size pvt Gamma - 1)
                (printf_f P 10
                   (get_float_attribute spec "oiio:Gamma" (float_one P))))
        (char_size pvt Gamma)
    else zeros pvt Gamma.
Proof.
  intros H s. apply (build_header_chars rla Gamma) in H.
  cbn [field_op] in H. unfold gamma_op, zeros in H. fold s in H.
  destruct (iequals s "Linear").
  - rewrite strcpy_zeros in H. destruct (decide _); [| done].
    by injection H as <-.
  - destruct (iequals s "GammaCorrected").
    + rewrite snprintf_zeros in H. by injection H as <-.
    + by injection H as <-.
Qed.

(** X12.  [open] copies the banner and the color channel label with
    [strcpy]: a header is built only when each text is shorter than its
    array, and then the array holds the text followed by zero bytes. *)
Theorem strcpy_members_fit (rla : WAVEFRONT) :
  build_header pvt name spec now = Ok rla ->
  let banner := c_str (OIIO_INTRO_STRING P) in
  let label := c_str (get_string_attribute spec "rla:ColorChannel" "rgb") in
  (length banner < char_size pvt ProgramName)%nat /\
  chars rla ProgramName = padded banner (char_size pvt ProgramName) /\
  (length label < char_size pvt ColorChannel)%nat /\
  chars rla ColorChannel = padded label (char_size pvt ColorChannel).
Proof.
  intros H banner label.
  pose proof (build_header_chars rla ProgramName H) as Hp.
  pose proof (build_header_chars rla ColorChannel H) as Hc.
  cbn [field_op] in Hp, Hc. unfold zeros in Hp, Hc.
  rewrite strcpy_zeros in Hp, Hc.
  fold banner in Hp. fold label in Hc.
  destruct (decide (length banner < _)%nat); [| done].
  destruct (decide (length label < _)%nat); [| done].
  injection Hp as <-. injection Hc as <-. done.
Qed.
End Header.

(** ** The date, the chromaticities and a header that is defined *)

Lemma atoi_month (k : Z) (rest : string) (tail : list byte) :
  1 <= k <= 12 ->
  atoi (until_nul (bytes (pad2 k +:+ "  " +:+ rest) ++ tail)) = k.
Proof.
  intros Hk.
  assert (Hc : k = 1 \/ k = 2 \/ k = 3 \/ k = 4 \/ k = 5 \/ k = 6 \/ k = 7
               \/ k = 8 \/ k = 9 \/ k = 10 \/ k = 11 \/ k = 12) by lia.
  repeat destruct Hc as [-> | Hc]; try subst k; vm_compute; reflexivity.
Qed.

Lemma month_name_length (k : Z) (m : string) :
  month_name k = Some m -> length (bytes m) = 3%nat.
Proof.
  unfold month_name.
  destruct k as [| p | p]; try done.
  do 4 (try destruct p as [p | p |]); try done; by intros [= <-].
Qed.

Lemma month_name_some (k : Z) : 1 <= k <= 12 -> exists m, month_name k = Some m.
Proof.
  intros Hk.
  assert (Hc : k = 1 \/ k = 2 \/ k = 3 \/ k = 4 \/ k = 5 \/ k = 6 \/ k = 7
               \/ k = 8 \/ k = 9 \/ k = 10 \/ k = 11 \/ k = 12) by lia.
  repeat destruct Hc as [-> | Hc]; try subst k; by eexists.
Qed.

Lemma chroma_field_op (P : Platform) (pvt : rla_pvt) (name : string)
    (spec : ImageSpec P) (now : tm) attr f dflt :
  (attr, f, dflt) ∈ chromaticities ->
  field_op pvt name spec now f = chroma_op pvt spec attr f dflt.
Proof.
  unfold chromaticities. intros Hin.
  repeat (apply elem_of_cons in Hin as [Hin | Hin];
          [by injection Hin as -> -> -> |]).
  by apply elem_of_nil in Hin.
Qed.


Section HeaderTexts.
Variable P : Platform.
Variable pvt : rla_pvt.
Variable name : string.
Variable spec : ImageSpec P.
Variable now : tm.

(** X13.  For a month in January..December, a built header holds in
    [DateCreated] the text of [strftime] with its first three bytes, the
    two digits of the month and a space, replaced by the three letters of
    the month; the text is shorter than the array. *)
Theorem date_member (rla : WAVEFRONT) :
  0 <= tm_mon now <= 11 ->
  build_header pvt name spec now = Ok rla ->
  exists m,
    month_name (tm_mon now + 1) = Some m /\
    (length (date_text now) < char_size pvt DateCreated)%nat /\
    chars rla DateCreated
    = bytes m ++ drop 3 (padded (date_text now) (char_size pvt DateCreated)).
Proof.
  intros Hmon H. apply (build_header_chars P pvt name spec now rla DateCreated) in H.
  cbn [field_op] in H. unfold date_op, strftime, zeros in H.
  destruct (decide (S (length (date_text now)) <= _)%nat) as [Hl |]; [| done].
  rewrite strcpy_zeros, decide_True in H by lia. cbn [bind] in H.
  unfold padded at 1 in H. unfold date_text at 1 in H.
  rewrite atoi_month in H by lia.
  destruct (month_name_some (tm_mon now + 1) ltac:(lia)) as [m Hm].
  rewrite Hm in H. unfold memcpy in H.
  rewrite (month_name_length _ _ Hm) in H.
  destruct (decide _); [| done]. injection H as <-.
  exists m. repeat split; [done | lia].
Qed.

(** X14.  Without a chromaticity attribute, or with one that does not hold
    floats, a built header holds the default text of that chromaticity
    followed by zero bytes, and the default fits in the array. *)
Theorem default_chromaticity (rla : WAVEFRONT) attr f dflt :
  (attr, f, dflt) ∈ chromaticities ->
  match find_attribute spec attr with
  | Some p => basetype (ptype p) <> FLOAT
  | None => True
  end ->
  build_header pvt name spec now = Ok rla ->
  (length (bytes dflt) < char_size pvt f)%nat /\
  chars rla f = padded (bytes dflt) (char_size pvt f).
Proof.
  intros Hin Hp H. apply (build_header_chars P pvt name spec now rla f) in H.
  rewrite (chroma_field_op P pvt name spec now attr f dflt Hin) in H.
  unfold chroma_op, set_chromaticity, zeros in H.
  assert (Hs : strcpy (replicate (char_size pvt f) x00) (bytes dflt)
               = Ok (chars rla f)).
  { destruct (find_attribute spec attr) as [p |]; [| done].
    by rewrite bool_decide_eq_false_2 in H. }
  rewrite strcpy_zeros in Hs. destruct (decide _); [| done].
  by injection Hs as <-.
Qed.

End HeaderTexts.

(** ** The header theorems on the 4 x 2 image *)

Lemma header_field_contents_witness :
  build_header wavefront_pvt "a.rla" (small_image exact_platform)
    (localtime (test_host true)) = Ok small_header /\
  (exists r1,
      classify wavefront_pvt 3 (scalar FLOAT) []
        (windowed wavefront_pvt (small_image exact_platform)) = Ok r1 /\
      forall g,
        get_int small_header g
        = get_int (numbered (small_image exact_platform) r1) g) /\
  (forall f,
      field_op wavefront_pvt "a.rla" (small_image exact_platform)
        (localtime (test_host true)) f (zeros wavefront_pvt f)
      = Ok (chars small_header f)).
Proof.
  split; [exact small_header_built |].
  exact (header_field_contents exact_platform wavefront_pvt "a.rla"
           (small_image exact_platform) (localtime (test_host true))
           small_header small_header_built).
Defined.

Lemma header_numbers_witness :
  build_header wavefront_pvt "a.rla" (small_image exact_platform)
    (localtime (test_host true)) = Ok small_header /\
  get_int small_header Revision = -2 /\
  get_int small_header NextOffset = 0 /\
  get_int small_header FrameNumber
  = wrap 16 (get_int_attribute (small_image exact_platform) "rla:FrameNumber" 0) /\
  get_int small_header JobNumber
  = wrap 16 (get_int_attribute (small_image exact_platform) "rla:JobNumber" 0) /\
  get_int small_header FieldRendered
  = wrap 16 (get_int_attribute (small_image exact_platform) "rla:FieldRendered" 0).
Proof.
  split; [exact small_header_built |].
  exact (header_numbers exact_platform wavefront_pvt "a.rla"
           (small_image exact_platform) (localtime (test_host true))
           small_header small_header_built).
Defined.

Lemma header_window_round_trip_witness :
  build_header wavefront_pvt "a.rla" (small_image exact_platform)
    (localtime (test_host true)) = Ok small_header /\
  get_int small_header WindowLeft = 0 /\
  get_int small_header WindowRight - get_int small_header WindowLeft + 1 = 4 /\
  get_int small_header WindowBottom = 0 /\
  get_int small_header WindowTop - get_int small_header WindowBottom + 1 = 2 /\
  get_int small_header ActiveLeft = 0 /\
  get_int small_header ActiveRight - get_int small_header ActiveLeft + 1 = 4 /\
  get_int small_header ActiveBottom = 0 /\
  get_int small_header ActiveTop - get_int small_header ActiveBottom + 1 = 2.
Proof.
  split; [exact small_header_built |].
  apply (header_window_round_trip exact_platform wavefront_pvt "a.rla"
           (small_image exact_platform) (localtime (test_host true))
           small_header);
    first [ exact small_header_built | cbn; lia ].
Defined.

Lemma long_file_name_unterminated_witness :
  (char_size wavefront_pvt FileName <= length (c_str long_name))%nat /\
  build_header wavefront_pvt long_name (small_image exact_platform)
    (localtime (test_host true)) = Ok long_name_header /\
  chars long_name_header FileName
  = take (char_size wavefront_pvt FileName) (c_str long_name) /\
  x00 ∉ chars long_name_header FileName.
Proof.
  assert (H : (char_size wavefront_pvt FileName <= length (c_str long_name))%nat)
    by (vm_compute; lia).
  split; [exact H |]. split; [exact long_name_header_built |].
  exact (long_file_name_unterminated exact_platform wavefront_pvt long_name
           (small_image exact_platform) (localtime (test_host true))
           long_name_header H long_name_header_built).
Defined.

Lemma timed_header_built :
  build_header wavefront_pvt "a.rla" timed_image (localtime (test_host true))
  = Ok timed_header.
Proof. vm_compute. reflexivity. Qed.

Lemma corrected_header_built :
  build_header wavefront_pvt "a.rla" corrected_image (localtime (test_host true))
  = Ok corrected_header.
Proof. vm_compute. reflexivity. Qed.

Lemma string_attribute_member_witness :
  ("rla:Time"%string, Time) ∈ copied_attributes /\
  build_header wavefront_pvt "a.rla" timed_image (localtime (test_host true))
  = Ok timed_header /\
  chars timed_header Time
  = padded (take (char_size wavefront_pvt Time) (c_str "12:30:45.123 +01:00"))
      (char_size wavefront_pvt Time).
Proof.
  assert (H : ("rla:Time"%string, Time) ∈ copied_attributes)
    by (unfold copied_attributes; repeat constructor).
  split; [exact H |]. split; [exact timed_header_built |].
  exact (string_attribute_member exact_platform wavefront_pvt "a.rla"
           timed_image (localtime (test_host true))
           timed_header "rla:Time" Time H timed_header_built).
Defined.

(** The time of 19 characters is cut to the 16 bytes of its array, with no
    NUL; the absent [rla:Filter] leaves 32 zero bytes. *)
Example timed_header_time :
  chars timed_header Time = bytes "12:30:45.123 +01" /\
  chars timed_header Filter = replicate 32 x00.
Proof. split; vm_compute; reflexivity. Qed.

Lemma gamma_member_witness :
  (build_header wavefront_pvt "a.rla" timed_image (localtime (test_host true))
   = Ok timed_header /\
   chars timed_header Gamma
   = padded (bytes "1.0") (char_size wavefront_pvt Gamma)) /\
  (build_header wavefront_pvt "a.rla" corrected_image
     (localtime (test_host true)) = Ok corrected_header /\
   chars corrected_header Gamma
   = padded (take (char_size wavefront_pvt Gamma - 1)
               (printf_f exact_platform 10 (22, 10)))
       (char_size wavefront_pvt Gamma)) /\
  (build_header wavefront_pvt "a.rla" (small_image exact_platform)
     (localtime (test_host true)) = Ok small_header /\
   chars small_header Gamma = zeros wavefront_pvt Gamma).
Proof.
  split; [| split].
  - split; [exact timed_header_built |].
    exact (gamma_member exact_platform wavefront_pvt "a.rla" timed_image
             (localtime (test_host true)) timed_header timed_header_built).
  - split; [exact corrected_header_built |].
    exact (gamma_member exact_platform wavefront_pvt "a.rla" corrected_image
             (localtime (test_host true)) corrected_header
             corrected_header_built).
  - split; [exact small_header_built |].
    exact (gamma_member exact_platform wavefront_pvt "a.rla"
             (small_image exact_platform) (localtime (test_host true))
             small_header small_header_built).
Defined.

(** The three cases of [Gamma] on the 16 bytes of the array. *)
Example gamma_arrays :
  chars timed_header Gamma = bytes "1.0" ++ replicate 13 x00 /\
  chars corrected_header Gamma = bytes "2.2000000000" ++ replicate 4 x00 /\
  chars small_header Gamma = replicate 16 x00.
Proof. repeat split; vm_compute; reflexivity. Qed.

Lemma strcpy_members_fit_witness :
  build_header wavefront_pvt "a.rla" (small_image exact_platform)
    (localtime (test_host true)) = Ok small_header /\
  (length (c_str (OIIO_INTRO_STRING exact_platform))
   < char_size wavefront_pvt ProgramName)%nat /\
  chars small_header ProgramName
  = padded (c_str (OIIO_INTRO_STRING exact_platform))
      (char_size wavefront_pvt ProgramName) /\
  (length (c_str "rgb") < char_size wavefront_pvt ColorChannel)%nat /\
  chars small_header ColorChannel
  = padded (c_str "rgb") (char_size wavefront_pvt ColorChannel).
Proof.
  split; [exact small_header_built |].
  exact (strcpy_members_fit exact_platform wavefront_pvt "a.rla"
           (small_image exact_platform) (localtime (test_host true))
           small_header small_header_built).
Defined.

Lemma date_member_witness :
  build_header wavefront_pvt "a.rla" (small_image exact_platform)
    (localtime (test_host true)) = Ok small_header /\
  exists m,
    month_name (tm_mon (localtime (test_host true)) + 1) = Some m /\
    (length (date_text (localtime (test_host true)))
     < char_size wavefront_pvt DateCreated)%nat /\
    chars small_header DateCreated
    = bytes m
      ++ drop 3 (padded (date_text (localtime (test_host true)))
                   (char_size wavefront_pvt DateCreated)).
Proof.
  split; [exact small_header_built |].
  apply (date_member exact_platform wavefront_pvt "a.rla"
           (small_image exact_platform) (localtime (test_host true))
           small_header);
    first [ exact small_header_built | cbn; lia ].
Defined.

Lemma default_chromaticity_witness :
  ("rla:RedChroma"%string, RedChroma, "0.67 0.08"%string) ∈ chromaticities /\
  build_header wavefront_pvt "a.rla" (small_image exact_platform)
    (localtime (test_host true)) = Ok small_header /\
  (length (bytes "0.67 0.08") < char_size wavefront_pvt RedChroma)%nat /\
  chars small_header RedChroma
  = padded (bytes "0.67 0.08") (char_size wavefront_pvt RedChroma).
Proof.
  assert (H : ("rla:RedChroma"%string, RedChroma, "0.67 0.08"%string)
              ∈ chromaticities)
    by (unfold chromaticities; repeat constructor).
  split; [exact H |]. split; [exact small_header_built |].
  exact (default_chromaticity exact_platform wavefront_pvt "a.rla"
           (small_image exact_platform) (localtime (test_host true))
           small_header "rla:RedChroma" RedChroma "0.67 0.08" H I
           small_header_built).
Defined.


(** * The files around [open] *)

Section OtherFiles.
Variable P : Platform.



End OtherFiles.

Lemma build_header_long_label (P : Platform) (pvt : rla_pvt) (name : string)
    (spec : ImageSpec P) (now : tm) :
  (char_size pvt ColorChannel
   <= length (c_str (get_string_attribute spec "rla:ColorChannel" "rgb")))%nat ->
  exists u, build_header pvt name spec now = Undefined u.
Proof.
  intros Hl. pose proof (build_header_stages P pvt name spec now) as S.
  destruct (build_header pvt name spec now) as [rla | u]; [| by exists u].
  destruct S as (r1 & _ & _ & Hf). specialize (Hf ColorChannel).
  cbn [field_op] in Hf. unfold zeros in Hf. rewrite strcpy_zeros in Hf.
  by rewrite decide_False in Hf by lia.
Qed.

Lemma opened_spec_string_attribute (P : Platform) (spec : ImageSpec P)
    (attr val : string) :
  get_string_attribute (opened_spec spec) attr val
  = get_string_attribute spec attr val.
Proof. unfold opened_spec. by destruct (depth spec <? 1). Qed.

Section OpenFiles.
Variable P : Platform.
Variable pvt : rla_pvt.
Variable host : Host.



(** X17.  An [open] that is refused for its mode or because the file cannot
    be created returns [false] and changes no file.  Refused for its mode,
    it leaves a previously open image open, with its description; after a
    failed [fopen] the previous image is closed and the description is the
    new one. *)
Theorem open_refused_keeps_files (name : string) (spec : ImageSpec P)
    (mode : OpenMode) (st : RLAOutput P) :
  mode <> Create \/ can_create host (c_name name) = false ->
  exists st',
    open pvt host name spec mode st = Ok (false, st') /\
    fs st' = fs st /\
    (mode <> Create -> m_file st' = m_file st /\ m_spec st' = m_spec st) /\
    (mode = Create -> m_file st' = None /\ m_spec st' = spec).
Proof.
  intros H. unfold open. cbn [close snd].
  destruct (decide (mode <> Create)) as [Hm | Hm].
  - eexists. split; [done |]. cbn. by repeat split.
  - destruct H as [H | H]; [done |]. rewrite H. cbn [negb].
    eexists. split; [done |]. cbn. by repeat split.
Qed.

(** X18.  When the file can be created but the image is refused for its
    resolution or its depth, [open] returns [false] after [fopen]: the file
    exists and is empty, whatever it held before, and its handle is left
    open. *)
Theorem failed_open_truncates (name : string) (spec : ImageSpec P)
    (st : RLAOutput P) :
  can_create host (c_name name) = true ->
  width spec < 1 \/ height spec < 1 \/ 1 < depth spec ->
  exists st',
    open pvt host name spec Create st = Ok (false, st') /\
    fs st' !! c_name name = Some [] /\
    m_file st' = Some (c_name name).
Proof.
  intros Hc Hbad. unfold open. cbn [close snd].
  rewrite decide_False by (by intros []). rewrite Hc. cbn [negb].
  set (pre := fopen_wb (c_name name) (with_spec spec (with_file None st))).
  assert (Hfs : fs pre !! c_name name = Some []) by (cbn; apply lookup_insert_eq).
  change (m_spec pre) with spec.
  destruct ((width spec <? 1) || (height spec <? 1)) eqn:E.
  - eexists. split; [done |]. by split.
  - apply orb_false_iff in E as [Ew Eh].
    apply Z.ltb_ge in Ew. apply Z.ltb_ge in Eh.
    assert (Hd : 1 < depth spec) by lia.
    rewrite (proj2 (Z.ltb_ge (depth spec) 1)) by lia.
    rewrite (proj2 (Z.ltb_lt 1 (depth spec))) by done.
    eexists. split; [done |]. by split.
Qed.

(** C9.  [open] returns [false] when the width or the height is below 1,
    when the depth exceeds 1, or when the file cannot be created, and the
    message names the check that refused the image: the mode, the file with
    its name, the resolution with the numbers asked for, the depth.  The
    header step has no failing return: [open] returns [false] for these
    causes only.  Past the checks [open] returns [true] exactly when the
    header is built; it does not return, but is undefined, when the color
    channel label is as long as its array or longer. *)
Theorem open_failures (name : string) (spec : ImageSpec P) (mode : OpenMode)
    (st : RLAOutput P) :
  (width spec < 1 \/ height spec < 1 \/ 1 < depth spec
   \/ can_create host (c_name name) = false ->
   exists st', open pvt host name spec mode st = Ok (false, st')) /\
  (mode <> Create ->
   exists st',
     open pvt host name spec mode st = Ok (false, st') /\
     m_errmessage st' = "rla does not support subimages or MIP levels"%string) /\
  (mode = Create -> can_create host (c_name name) = false ->
   exists st',
     open pvt host name spec mode st = Ok (false, st') /\
     m_errmessage st'
     = ("Could not open file " +:+ quote +:+ c_name name +:+ quote)%string) /\
  (mode = Create -> can_create host (c_name name) = true ->
   width spec < 1 \/ height spec < 1 ->
   exists st',
     open pvt host name spec mode st = Ok (false, st') /\
     m_errmessage st'
     = ("Image resolution must be at least 1x1, you asked for "
        +:+ decimal (width spec) +:+ " x " +:+ decimal (height spec))%string) /\
  (mode = Create -> can_create host (c_name name) = true ->
   1 <= width spec -> 1 <= height spec -> 1 < depth spec ->
   exists st',
     open pvt host name spec mode st = Ok (false, st') /\
     m_errmessage st' = "rla does not support volume images (depth > 1)"%string) /\
  (forall st',
     open pvt host name spec mode st = Ok (false, st') ->
     mode <> Create \/ can_create host (c_name name) = false
     \/ width spec < 1 \/ height spec < 1 \/ 1 < depth spec) /\
  (mode = Create -> can_create host (c_name name) = true ->
   1 <= width spec -> 1 <= height spec -> depth spec <= 1 ->
   match build_header pvt name (opened_spec spec) (localtime host) with
   | Ok _ => exists st', open pvt host name spec mode st = Ok (true, st')
   | Undefined u => open pvt host name spec mode st = Undefined u
   end) /\
  (mode = Create -> can_create host (c_name name) = true ->
   1 <= width spec -> 1 <= height spec -> depth spec <= 1 ->
   (char_size pvt ColorChannel
    <= length (c_str (get_string_attribute spec "rla:ColorChannel" "rgb")))%nat ->
   exists u, open pvt host name spec mode st = Undefined u).
Proof.
  assert (Hmode : mode <> Create ->
            exists st',
              open pvt host name spec mode st = Ok (false, st') /\
              m_errmessage st'
              = "rla does not support subimages or MIP levels"%string).
  { intros Hm. unfold open. rewrite decide_True by done. by eexists. }
  assert (Hfile : mode = Create -> can_create host (c_name name) = false ->
            exists st',
              open pvt host name spec mode st = Ok (false, st') /\
              m_errmessage st'
              = ("Could not open file " +:+ quote +:+ c_name name +:+ quote)%string).
  { intros -> Hc. unfold open. cbn [close snd].
    rewrite decide_False by (by intros []). rewrite Hc. cbn [negb]. by eexists. }
  assert (Hres : mode = Create -> can_create host (c_name name) = true ->
            width spec < 1 \/ height spec < 1 ->
            exists st',
              open pvt host name spec mode st = Ok (false, st') /\
              m_errmessage st'
              = ("Image resolution must be at least 1x1, you asked for "
                 +:+ decimal (width spec) +:+ " x "
                 +:+ decimal (height spec))%string).
  { intros -> Hc Hwh. unfold open. cbn [close snd].
    rewrite decide_False by (by intros []). rewrite Hc. cbn [negb].
    change (m_spec (fopen_wb _ _)) with spec.
    assert (E : (width spec <? 1) || (height spec <? 1) = true)
      by (apply orb_true_iff; rewrite !Z.ltb_lt; tauto).
    rewrite E. by eexists. }
  assert (Hvol : mode = Create -> can_create host (c_name name) = true ->
            1 <= width spec -> 1 <= height spec -> 1 < depth spec ->
            exists st',
              open pvt host name spec mode st = Ok (false, st') /\
              m_errmessage st'
              = "rla does not support volume images (depth > 1)"%string).
  { intros -> Hc Hw Hh Hd. unfold open. cbn [close snd].
    rewrite decide_False by (by intros []). rewrite Hc. cbn [negb].
    change (m_spec (fopen_wb _ _)) with spec.
    rewrite (proj2 (Z.ltb_ge (width spec) 1)) by done.
    rewrite (proj2 (Z.ltb_ge (height spec) 1)) by done. cbn [orb].
    rewrite (proj2 (Z.ltb_ge (depth spec) 1)) by lia.
    rewrite (proj2 (Z.ltb_lt 1 (depth spec))) by done. by eexists. }
  split; [| split; [exact Hmode | split; [exact Hfile | split; [exact Hres |
    split; [exact Hvol | split; [| split]]]]]].
  - intros Hbad.
    destruct (decide (mode = Create)) as [Hm | Hm];
      [| destruct (Hmode Hm) as (st' & H & _); by exists st'].
    destruct (can_create host (c_name name)) eqn:Hc;
      [| destruct (Hfile Hm eq_refl) as (st' & H & _); by exists st'].
    destruct (decide (width spec < 1 \/ height spec < 1)) as [Hwh | Hwh];
      [destruct (Hres Hm eq_refl Hwh) as (st' & H & _); by exists st' |].
    destruct (Hvol Hm eq_refl) as (st' & H & _); [lia | lia | | by exists st'].
    destruct Hbad as [? | [? | [? | ?]]]; [lia | lia | done | done].
  - intros st' H.
    destruct (decide (mode = Create)) as [-> | Hm]; [| by left].
    destruct (can_create host (c_name name)) eqn:Hc; [| tauto].
    destruct (decide (width spec < 1)); [tauto |].
    destruct (decide (height spec < 1)); [tauto |].
    destruct (decide (1 < depth spec)); [tauto |].
    rewrite (open_past_checks P pvt host name spec st Hc) in H by lia.
    by apply write_image_returns_true in H.
  - intros -> Hc Hw Hh Hd.
    rewrite (open_past_checks P pvt host name spec st Hc Hw Hh Hd).
    exact (write_image_defined P pvt host name _).
  - intros -> Hc Hw Hh Hd Hlong.
    rewrite (open_past_checks P pvt host name spec st Hc Hw Hh Hd).
    rewrite <- (opened_spec_string_attribute P spec) in Hlong.
    destruct (build_header_long_label P pvt name (opened_spec spec)
                (localtime host) Hlong) as [u Hu].
    pose proof (write_image_defined P pvt host name
                  (with_spec (opened_spec spec)
                     (fopen_wb (c_name name) (with_spec spec (with_file None st)))))
      as Hd'.
    cbn [m_spec with_spec] in Hd'. rewrite Hu in Hd'. by exists u.
Qed.
End OpenFiles.

Lemma open_failures_witness :
  (width flat_image < 1 /\
   exists st',
     open wavefront_pvt (test_host true) "a.rla" flat_image Create
       (empty_output exact_platform) = Ok (false, st') /\
     m_errmessage st'
     = "Image resolution must be at least 1x1, you asked for 0 x 2"%string) /\
  ((char_size wavefront_pvt ColorChannel
    <= length (c_str (get_string_attribute (labelled_image exact_platform)
                        "rla:ColorChannel" "rgb")))%nat /\
   exists u,
     open wavefront_pvt (test_host true) "a.rla" (labelled_image exact_platform)
       Create (empty_output exact_platform) = Undefined u).
Proof.
  assert (Hw : width flat_image < 1) by (cbn; lia).
  assert (Hl : (char_size wavefront_pvt ColorChannel
                <= length (c_str (get_string_attribute
                                    (labelled_image exact_platform)
                                    "rla:ColorChannel" "rgb")))%nat)
    by (vm_compute; lia).
  pose proof (open_failures exact_platform wavefront_pvt (test_host true) "a.rla"
                flat_image Create (empty_output exact_platform))
    as (_ & _ & _ & Hres & _).
  pose proof (open_failures exact_platform wavefront_pvt (test_host true) "a.rla"
                (labelled_image exact_platform) Create
                (empty_output exact_platform))
    as (_ & _ & _ & _ & _ & _ & _ & Hlong).
  split.
  - split; [exact Hw |]. exact (Hres eq_refl eq_refl (or_introl Hw)).
  - split; [exact Hl |].
    apply (Hlong eq_refl eq_refl); [cbn; lia | cbn; lia | cbn; lia | exact Hl].
Defined.

(** The open of the image with the 32-character label passes every check
    and overflows the label array. *)
Example labelled_image_open :
  open wavefront_pvt (test_host true) "a.rla" (labelled_image exact_platform)
    Create (empty_output exact_platform) = Undefined (BufferOverflow 33).
Proof. vm_compute. reflexivity. Qed.

(** A name with an embedded NUL opens the file named by the characters
    before it. *)
Example nul_name_opens_prefix :
  c_name nul_name = "a"%string /\
  (length <$> written_file
                (open wavefront_pvt (test_host true) nul_name
                   (small_image exact_platform) Create
                   (empty_output exact_platform)) "a")
  = Some 758%nat.
Proof. split; vm_compute; reflexivity. Qed.

(** * The layout of the file *)

Lemma flat_map_length_sizes {A : Type} (g : A -> list byte) (size : A -> nat)
    (l : list A) :
  (forall m, length (g m) = size m) ->
  length (flat_map g l) = sum_list (size <$> l).
Proof.
  intros Hg. induction l as [| a l IH]; [done |].
  cbn. rewrite length_app, IH, Hg. done.
Qed.

Lemma big_endian_member_length (pvt : rla_pvt) (rla : WAVEFRONT) (m : Member) :
  well_sized pvt rla -> length (big_endian_member rla m) = member_size pvt m.
Proof.
  intros Hw. destruct m as [f | f]; cbn.
  - by rewrite length_rev, length_to_le.
  - apply Hw.
Qed.

Lemma flat_map_at_offset (pvt : rla_pvt) (g : Member -> list byte)
    (m : Member) (l : list Member) (tail : list byte) :
  (forall m', length (g m') = member_size pvt m') ->
  m ∈ l ->
  take (member_size pvt m) (drop (offset_in pvt m l) (flat_map g l ++ tail)) = g m.
Proof.
  intros Hg. induction l as [| a l IH]; intros Hin; [by apply elem_of_nil in Hin |].
  cbn [flat_map offset_in]. destruct (decide (a = m)) as [-> | Hne].
  - rewrite drop_0, <- app_assoc. by apply take_app_length'.
  - apply elem_of_cons in Hin as [-> | Hin]; [done |].
    rewrite <- app_assoc, drop_app_add' by done. by apply IH.
Qed.

Lemma written_members_all (m : Member) : m ∈ written_members.
Proof.
  unfold written_members. destruct m as [f | f]; destruct f; repeat constructor.
Qed.

Lemma object_value_big_endian (w : nat) (v : Z) :
  object_value false w (rev (to_le w v)) = wrap (8 * Z.of_nat w) v.
Proof.
  unfold object_value. rewrite rev_involutive.
  destruct w as [| w]; [unfold wrap; cbn; by rewrite !Z.mod_1_r |].
  set (W := 8 * Z.of_nat (S w)).
  assert (HW : 0 < 2 ^ W) by (apply Z.pow_pos_nonneg; lia).
  assert (Hmod : of_le (to_le (S w) v) = v mod 2 ^ W).
  { unfold W. clear. generalize (S w). intros n. revert v.
    induction n as [| n IH]; intros v.
    - cbn. by rewrite Z.mod_1_r.
    - cbn [to_le of_le]. rewrite IH.
      replace (8 * Z.of_nat (S n)) with (8 + 8 * Z.of_nat n) by lia.
      rewrite Z.pow_add_r by lia. change (2 ^ 8) with 256.
      unfold byte_of_Z. rewrite Z.mod_mod by lia.
      assert (Hb : Z_of_byte (default x00 (Byte.of_N (Z.to_N (v mod 256))))
                   = v mod 256).
      { pose proof (Z.mod_pos_bound v 256 ltac:(lia)) as Hr.
        destruct (Byte.of_N (Z.to_N (v mod 256))) as [b |] eqn:E.
        - apply Byte.to_of_N in E. unfold Z_of_byte. cbn. rewrite E. lia.
        - apply Byte.of_N_None_iff in E. lia. }
      rewrite Hb. rewrite Z.rem_mul_r by lia. lia. }
  rewrite Hmod. unfold wrap.
  rewrite <- (Z.add_mod_idemp_l v) by lia. done.
Qed.

(** ** The integer members stay in the range of their type *)

Lemma int_width_pos (g : IntField) : 0 < 8 * Z.of_nat (int_width g).
Proof. destruct g; cbn; lia. Qed.

Lemma zeroed_in_range (pvt : rla_pvt) : in_range (zeroed pvt).
Proof. intros g. rewrite get_zeroed. by destruct g. Qed.

Lemma set_int_in_range (f : IntField) (v : Z) (rla : WAVEFRONT) :
  in_range rla -> in_range (set_int f v rla).
Proof.
  intros H g. destruct (decide (g = f)) as [-> | Hne].
  - rewrite get_set_eq. apply wrap_wrap, int_width_pos.
  - rewrite get_set_ne by done. apply H.
Qed.

Lemma classify_in_range (pvt : rla_pvt) nchannels format cf rla rla' :
  in_range rla -> classify pvt nchannels format cf rla = Ok rla' -> in_range rla'.
Proof.
  intros Hr. unfold classify. destruct (decide (cf <> [])).
  - unfold classify_explicit, explicit_color, explicit_matte, explicit_aux.
    destruct (streak_for _ _ _ _) as [[s1 r1] |]; [| done]. cbn [bind].
    destruct (at_index cf 0); [| done]. cbn [bind].
    destruct (decide (r1 <> 0)).
    + destruct (streak_for _ _ _ _) as [[s2 r2] |]; [| done]. cbn [bind].
      destruct (at_index cf _); [| done]. cbn [bind].
      destruct (decide (r2 <> 0));
        [| intros H; injection H as <-; by repeat apply set_int_in_range].
      destruct (streak_for _ _ _ _) as [[s3 r3] |]; [| done]. cbn [bind].
      destruct (at_index cf _); [| done]. cbn [bind].
      intros H; injection H as <-; by repeat apply set_int_in_range.
    + cbn [bind]. destruct (decide (r1 <> 0)); [done |].
      intros H; injection H as <-; by repeat apply set_int_in_range.
  - intros H. injection H as <-.
    unfold classify_global, global_types, global_color, global_matte, global_aux.
    destruct (3 <=? nchannels); destruct (0 <? _); destruct (0 <? _);
      by repeat apply set_int_in_range.
Qed.

Lemma build_header_in_range (P : Platform) (pvt : rla_pvt) (name : string)
    (spec : ImageSpec P) (now : tm) (rla : WAVEFRONT) :
  build_header pvt name spec now = Ok rla -> in_range rla.
Proof.
  intros H. pose proof (build_header_stages P pvt name spec now) as S.
  rewrite H in S. destruct S as (r1 & Hc & Hi & _).
  intros g. rewrite Hi.
  assert (Hr : in_range (numbered spec r1)); [| apply Hr].
  unfold numbered. repeat apply set_int_in_range.
  refine (classify_in_range _ _ _ _ _ _ _ Hc).
  unfold windowed. repeat apply set_int_in_range. apply zeroed_in_range.
Qed.

(** * What a reader finds in the file *)

Section FileLayout.
Variable P : Platform.
Variable pvt : rla_pvt.
Variable host : Host.

Lemma big_endian_header_length (rla : WAVEFRONT) :
  well_sized pvt rla -> length (big_endian_header rla) = header_size pvt.
Proof.
  intros Hw. unfold header_size, big_endian_header.
  apply flat_map_length_sizes. intros m. by apply big_endian_member_length.
Qed.

Lemma bytes_at_header (rla : WAVEFRONT) (m : Member) (tail : list byte) :
  well_sized pvt rla ->
  bytes_at pvt m (big_endian_header rla ++ tail) = big_endian_member rla m.
Proof.
  intros Hw. unfold bytes_at, member_offset, big_endian_header.
  apply flat_map_at_offset; [| apply written_members_all].
  intros m'. by apply big_endian_member_length.
Qed.

(** X19.  After a successful [open] the file is as long as the members of
    the header together and four bytes for each scanline: the length depends
    on the declared sizes and the height, not on what the header holds. *)
Theorem opened_file_length (name : string) (spec : ImageSpec P) (mode : OpenMode)
    (st0 st : RLAOutput P) :
  open pvt host name spec mode st0 = Ok (true, st) ->
  exists data,
    fs st !! c_name name = Some data /\
    length data = (header_size pvt + 4 * Z.to_nat (height spec))%nat.
Proof.
  intros H. apply open_file in H as (rla & Hb & _ & _ & Hfs).
  eexists. split; [exact Hfs |].
  rewrite length_app, length_replicate. f_equal.
  apply big_endian_header_length.
  by apply (build_header_well_sized P pvt name (m_spec st) (localtime host)).
Qed.

(** X20.  After a successful [open] a big-endian reader finds the header in
    the file: at the offset of each integer member, the bytes decode to the
    value that the header holds; at the offset of each character array, the
    array itself; and after the header, four zero bytes for each
    scanline. *)
Theorem header_read_back (name : string) (spec : ImageSpec P) (mode : OpenMode)
    (st0 st : RLAOutput P) :
  open pvt host name spec mode st0 = Ok (true, st) ->
  exists rla data,
    build_header pvt name (m_spec st) (localtime host) = Ok rla /\
    fs st !! c_name name = Some data /\
    (forall f, object_value false (int_width f) (bytes_at pvt (IntMember f) data)
               = get_int rla f) /\
    (forall f, bytes_at pvt (CharMember f) data = chars rla f) /\
    drop (header_size pvt) data = replicate (4 * Z.to_nat (height spec)) x00.
Proof.
  intros H. apply open_file in H as (rla & Hb & _ & _ & Hfs).
  exists rla. eexists. split; [exact Hb |]. split; [exact Hfs |].
  pose proof (build_header_well_sized P pvt name _ _ rla Hb) as Hw.
  repeat split.
  - intros f. rewrite bytes_at_header by done. cbn [big_endian_member].
    rewrite object_value_big_endian.
    apply (build_header_in_range P pvt name _ _ rla Hb).
  - intros f. by rewrite bytes_at_header.
  - apply drop_app_length'. symmetry. by apply big_endian_header_length.
Qed.

(** C6.  The file that a successful [open] leaves begins with the header
    as [fwrite] received it, member by member, from the header swapped
    under [littleendian ()]: the swap reverses the bytes of every integer
    member exactly on a little-endian host, and each of them stands in the
    file most significant byte first, at its offset.  A window left edge of
    0x0102 is written as the bytes 01 02.  A host of either byte order, with
    the same clock, writes the same bytes. *)
Theorem header_is_big_endian (name : string) (spec : ImageSpec P)
    (mode : OpenMode) (st0 st : RLAOutput P) :
  open pvt host name spec mode st0 = Ok (true, st) ->
  exists rla data,
    build_header pvt name (opened_spec spec) (localtime host) = Ok rla /\
    fs st !! c_name name = Some data /\
    take (header_size pvt) data
    = header_bytes (littleendian host) (to_file_order (littleendian host) rla) /\
    (forall f,
        get_int (to_file_order (littleendian host) rla) f
        = if littleendian host
          then wrap (8 * Z.of_nat (int_width f))
                 (swap_endian true (int_width f) (get_int rla f))
          else get_int rla f) /\
    (forall f,
        bytes_at pvt (IntMember f) data
        = rev (to_le (int_width f) (get_int rla f))) /\
    (full_x spec = 258 -> take 2 data = [x01; x02]) /\
    (forall (host' : Host) (st0' : RLAOutput P),
        localtime host' = localtime host ->
        can_create host' (c_name name) = true ->
        exists st',
          open pvt host' name spec mode st0' = Ok (true, st') /\
          fs st' !! c_name name = Some data).
Proof.
  intros H.
  destruct (open_true_checks P pvt host _ _ _ _ _ H) as (-> & Hc & Hw & Hh & Hd).
  apply open_file in H as (rla & Hb & Hs & _ & Hfs). rewrite Hs in Hb.
  exists rla. eexists. split; [exact Hb |]. split; [exact Hfs |].
  pose proof (build_header_well_sized P pvt name _ _ rla Hb) as Hsz.
  split; [| split; [| split; [| split]]].
  - rewrite header_big_endian.
    apply take_app_length'. symmetry. by apply big_endian_header_length.
  - intros f. destruct (littleendian host); [apply to_file_order_member | done].
  - intros f. by rewrite bytes_at_header.
  - intros Hx.
    change (take 2 (big_endian_header rla
                    ++ replicate (4 * Z.to_nat (height spec)) x00))
      with (bytes_at pvt (IntMember WindowLeft)
              (big_endian_header rla
               ++ replicate (4 * Z.to_nat (height spec)) x00)).
    rewrite bytes_at_header by done. cbn [big_endian_member].
    rewrite (build_header_other_members P pvt name _ _ rla WindowLeft Hb) by done.
    unfold numbered, windowed. members.
    assert (Hfx : full_x (opened_spec spec) = 258)
      by (unfold opened_spec; by destruct (depth spec <? 1)).
    rewrite Hfx. reflexivity.
  - intros host' st0' Ht Hc'.
    pose proof (open_past_checks P pvt host' name spec st0' Hc' Hw Hh Hd) as Ho.
    pose proof (write_image_defined P pvt host' name
                  (with_spec (opened_spec spec)
                     (fopen_wb (c_name name)
                        (with_spec spec (with_file None st0'))))) as Hd'.
    cbn [m_spec with_spec] in Hd'. rewrite Ht, Hb in Hd'.
    destruct Hd' as [st' Hst']. rewrite <- Ho in Hst'.
    exists st'. split; [exact Hst' |].
    apply open_file in Hst' as (rla' & Hb' & Hs' & _ & Hfs').
    rewrite Hs', Ht, Hb in Hb'. injection Hb' as <-. exact Hfs'.
Qed.
End FileLayout.

Lemma opened_shifted_image_open :
  open wavefront_pvt (test_host true) "a.rla" shifted_image Create
    (empty_output exact_platform) = Ok (true, opened_shifted_image).
Proof. vm_compute. reflexivity. Qed.

Lemma header_is_big_endian_witness :
  open wavefront_pvt (test_host true) "a.rla" shifted_image Create
    (empty_output exact_platform) = Ok (true, opened_shifted_image) /\
  exists rla data,
    build_header wavefront_pvt "a.rla" (opened_spec shifted_image)
      (localtime (test_host true)) = Ok rla /\
    fs opened_shifted_image !! "a.rla"%string = Some data /\
    take (header_size wavefront_pvt) data
    = header_bytes true (to_file_order true rla) /\
    (forall f,
        get_int (to_file_order true rla) f
        = wrap (8 * Z.of_nat (int_width f))
            (swap_endian true (int_width f) (get_int rla f))) /\
    (forall f,
        bytes_at wavefront_pvt (IntMember f) data
        = rev (to_le (int_width f) (get_int rla f))) /\
    (full_x shifted_image = 258 -> take 2 data = [x01; x02]) /\
    (forall (host' : Host) (st0' : RLAOutput exact_platform),
        localtime host' = localtime (test_host true) ->
        can_create host' "a.rla" = true ->
        exists st',
          open wavefront_pvt host' "a.rla" shifted_image Create st0'
          = Ok (true, st') /\
          fs st' !! "a.rla"%string = Some data).
Proof.
  split; [exact opened_shifted_image_open |].
  exact (header_is_big_endian exact_platform wavefront_pvt (test_host true)
           "a.rla" shifted_image Create (empty_output exact_platform)
           opened_shifted_image opened_shifted_image_open).
Defined.

(** The big-endian test host writes the file of the little-endian one. *)
Example either_host_same_file :
  written_file
    (open wavefront_pvt (test_host false) "a.rla" shifted_image Create
       (empty_output exact_platform)) "a.rla"
  = fs opened_shifted_image !! "a.rla"%string.
Proof. vm_compute. reflexivity. Qed.

Lemma opened_file_length_witness :
  open wavefront_pvt (test_host true) "a.rla" (small_image exact_platform) Create
    (empty_output exact_platform) = Ok (true, opened_small_image) /\
  exists data,
    fs opened_small_image !! "a.rla"%string = Some data /\
    length data
    = (header_size wavefront_pvt
       + 4 * Z.to_nat (height (small_image exact_platform)))%nat.
Proof.
  split; [exact opened_small_image_open |].
  exact (opened_file_length exact_platform wavefront_pvt (test_host true) "a.rla"
           (small_image exact_platform) Create (empty_output exact_platform)
           opened_small_image opened_small_image_open).
Defined.

Lemma header_read_back_witness :
  open wavefront_pvt (test_host true) "a.rla" (small_image exact_platform) Create
    (empty_output exact_platform) = Ok (true, opened_small_image) /\
  exists rla data,
    build_header wavefront_pvt "a.rla" (m_spec opened_small_image)
      (localtime (test_host true)) = Ok rla /\
    fs opened_small_image !! "a.rla"%string = Some data /\
    (forall f,
        object_value false (int_width f) (bytes_at wavefront_pvt (IntMember f) data)
        = get_int rla f) /\
    (forall f, bytes_at wavefront_pvt (CharMember f) data = chars rla f) /\
    drop (header_size wavefront_pvt) data
    = replicate (4 * Z.to_nat (height (small_image exact_platform))) x00.
Proof.
  split; [exact opened_small_image_open |].
  exact (header_read_back exact_platform wavefront_pvt (test_host true) "a.rla"
           (small_image exact_platform) Create (empty_output exact_platform)
           opened_small_image opened_small_image_open).
Defined.



Lemma open_refused_keeps_files_witness :
  AppendSubimage <> Create /\
  exists st',
    open wavefront_pvt (test_host true) "a.rla" (small_image exact_platform)
      AppendSubimage busy_output = Ok (false, st') /\
    fs st' = fs busy_output /\
    (AppendSubimage <> Create ->
     m_file st' = m_file busy_output /\ m_spec st' = m_spec busy_output) /\
    (AppendSubimage = Create ->
     m_file st' = None /\ m_spec st' = small_image exact_platform).
Proof.
  assert (H : AppendSubimage <> Create) by discriminate.
  split; [exact H |].
  exact (open_refused_keeps_files exact_platform wavefront_pvt (test_host true)
           "a.rla" (small_image exact_platform) AppendSubimage busy_output
           (or_introl H)).
Defined.

Lemma failed_open_truncates_witness :
  can_create (test_host true) (c_name "old.rla") = true /\
  1 < depth deep_image /\
  fs busy_output !! "old.rla"%string = Some (bytes "old") /\
  exists st',
    open wavefront_pvt (test_host true) "old.rla" deep_image Create busy_output
    = Ok (false, st') /\
    fs st' !! "old.rla"%string = Some [] /\
    m_file st' = Some "old.rla"%string.
Proof.
  assert (Hc : can_create (test_host true) (c_name "old.rla") = true)
    by reflexivity.
  assert (Hd : 1 < depth deep_image) by (cbn; lia).
  split; [exact Hc |]. split; [exact Hd |].
  split; [vm_compute; reflexivity |].
  exact (failed_open_truncates exact_platform wavefront_pvt (test_host true)
           "old.rla" deep_image busy_output Hc (or_intror (or_intror Hd))).
Defined.

(** ** A chromaticity given as floats *)

(** X21.  With a chromaticity attribute of float base type, a built header
    holds in its array: for two floats, both printed with four decimals and
    separated by a space; for three floats, the three of them; cut to the
    array, NUL included, and followed by zero bytes.  The attribute then
    holds at least that many floats.  For any other aggregate the array is
    all zero. *)
Theorem vector_chromaticity (P : Platform) (pvt : rla_pvt) (name : string)
    (spec : ImageSpec P) (now : tm) (rla : WAVEFRONT) attr f dflt
    (p : ImageIOParameter P) :
  (attr, f, dflt) ∈ chromaticities ->
  find_attribute spec attr = Some p ->
  basetype (ptype p) = FLOAT ->
  build_header pvt name spec now = Ok rla ->
  match aggregate (ptype p) with
  | VEC2 =>
      exists a b rest,
        pdata p = FloatData (a :: b :: rest) /\
        chars rla f
        = padded (take (char_size pvt f - 1)
                    (printf_f P 4 a ++ space ++ printf_f P 4 b))
            (char_size pvt f)
  | VEC3 =>
      exists a b c rest,
        pdata p = FloatData (a :: b :: c :: rest) /\
        chars rla f
        = padded (take (char_size pvt f - 1)
                    (printf_f P 4 a ++ space ++ printf_f P 4 b ++ space
                     ++ printf_f P 4 c))
            (char_size pvt f)
  | _ => chars rla f = zeros pvt f
  end.
Proof.
  intros Hin Hp Hfl H.
  apply (build_header_chars P pvt name spec now rla f) in H.
  rewrite (chroma_field_op P pvt name spec now attr f dflt Hin) in H.
  unfold chroma_op, set_chromaticity, zeros in H.
  rewrite Hp, bool_decide_eq_true_2 in H by done.
  unfold float_at in H.
  destruct (aggregate (ptype p)); try by injection H as <-.
  - destruct (pdata p) as [| v |]; try done.
    destruct v as [| a [| b rest]]; try done. cbn in H.
    rewrite snprintf_zeros in H. injection H as <-. by exists a, b, rest.
  - destruct (pdata p) as [| v |]; try done.
    destruct v as [| a [| b [| c rest]]]; try done. cbn in H.
    rewrite snprintf_zeros in H. injection H as <-. by exists a, b, c, rest.
Qed.

Lemma vec2_header_built :
  build_header wavefront_pvt "a.rla" vec2_image (localtime (test_host true))
  = Ok vec2_header.
Proof. vm_compute. reflexivity. Qed.

Lemma vector_chromaticity_witness :
  ("rla:RedChroma"%string, RedChroma, "0.67 0.08"%string) ∈ chromaticities /\
  find_attribute vec2_image "rla:RedChroma" = Some red_pair /\
  basetype (ptype red_pair) = FLOAT /\
  build_header wavefront_pvt "a.rla" vec2_image (localtime (test_host true))
  = Ok vec2_header /\
  exists a b rest,
    pdata red_pair = FloatData (a :: b :: rest) /\
    chars vec2_header RedChroma
    = padded (take (char_size wavefront_pvt RedChroma - 1)
                (printf_f exact_platform 4 a ++ space
                 ++ printf_f exact_platform 4 b))
        (char_size wavefront_pvt RedChroma).
Proof.
  assert (H1 : ("rla:RedChroma"%string, RedChroma, "0.67 0.08"%string)
               ∈ chromaticities)
    by (unfold chromaticities; repeat constructor).
  assert (H2 : find_attribute vec2_image "rla:RedChroma" = Some red_pair)
    by reflexivity.
  assert (H3 : basetype (ptype red_pair) = FLOAT) by reflexivity.
  split; [exact H1 |]. split; [exact H2 |]. split; [exact H3 |].
  split; [exact vec2_header_built |].
  exact (vector_chromaticity exact_platform wavefront_pvt "a.rla" vec2_image
           (localtime (test_host true)) vec2_header "rla:RedChroma" RedChroma
           "0.67 0.08" red_pair H1 H2 H3 vec2_header_built).
Defined.

(** The header of the image with two floats holds them with four decimals. *)
Example vec2_red_header :
  chars vec2_header RedChroma = bytes "0.6400 0.3300" ++ replicate 11 x00.
Proof. vm_compute. reflexivity. Qed.
